(** * coreMQTT: the MQTT 5 properties codec (core_mqtt5_properties.c)

    A shallow embedding of the properties codec and the proofs of its
    specification.  Integers of the C program are values of [Z], every
    conversion to a fixed-width unsigned type is written out as a
    reduction modulo a power of two.  Byte buffers are lists of [Z];
    a pointer into a writable buffer is the buffer together with an
    offset, a pointer to read-only bytes is the list of the bytes that
    can be read from it.  An access outside an object is a [Fault]. *)

From stdpp Require Import base list numbers list_numbers.

Open Scope Z_scope.

(** ** Fixed-width unsigned integers *)

Definition to_uint8 (x : Z) : Z := x mod 2 ^ 8.
Definition to_uint16 (x : Z) : Z := x mod 2 ^ 16.
Definition to_uint32 (x : Z) : Z := x mod 2 ^ 32.
(** [size_t] is taken to be 64 bits wide. *)
Definition to_size_t (x : Z) : Z := x mod 2 ^ 64.

Definition is_uint8 (x : Z) : Prop := 0 ≤ x < 2 ^ 8.
Definition is_uint16 (x : Z) : Prop := 0 ≤ x < 2 ^ 16.
Definition is_uint32 (x : Z) : Prop := 0 ≤ x < 2 ^ 32.

(** The largest value a Variable Byte Integer of four bytes can hold. *)
Definition VBI_MAX : Z := 268435455.

(** No object is larger than [PTRDIFF_MAX] bytes. *)
Definition PTRDIFF_MAX : Z := 2 ^ 63 - 1.

(** ** Outcomes of running C code *)

Inductive fault : Set :=
| OutOfBoundsRead    (* a load outside the object the pointer points into *)
| OutOfBoundsWrite   (* a store outside the object *)
| InactiveMember.    (* a union member is read that was not the one stored *)

Inductive outcome (A : Type) : Type :=
| Ret (a : A)
| Fault (f : fault)
| OutOfFuel.

Arguments Ret {A} a.
Arguments Fault {A} f.
Arguments OutOfFuel {A}.

#[global] Instance outcome_ret : MRet outcome := @Ret.
#[global] Instance outcome_bind : MBind outcome := fun A B k m =>
  match m with
  | Ret a => k a
  | Fault f => Fault f
  | OutOfFuel => OutOfFuel
  end.

(** Code that returns, or else writes outside its buffer. *)
Definition returns_or_overruns {A : Type} (m : outcome A) : Prop :=
  (∃ a, m = Ret a) ∨ m = Fault OutOfBoundsWrite.

(** ** Arrays *)

(** [p[i]] as an rvalue. *)
Definition load {A : Type} (mem : list A) (i : Z) : outcome A :=
  if 0 <=? i then
    match mem !! Z.to_nat i with
    | Some x => Ret x
    | None => Fault OutOfBoundsRead
    end
  else Fault OutOfBoundsRead.

(** [p[i] = x]. *)
Definition store {A : Type} (mem : list A) (i : Z) (x : A) : outcome (list A) :=
  if (0 <=? i) && (i <? Z.of_nat (length mem)) then Ret (<[Z.to_nat i := x]> mem)
  else Fault OutOfBoundsWrite.

(** [memcpy( &mem[dst], src, n )]: [n] bytes are read from [src] and
    written to [mem] from offset [dst] on. *)
Definition memcpy (mem : list Z) (dst : Z) (src : list Z) (n : Z) : outcome (list Z) :=
  if n <=? Z.of_nat (length src) then
    if (0 <=? dst) && (0 <=? n) && (dst + n <=? Z.of_nat (length mem)) then
      Ret (take (Z.to_nat dst) mem ++ take (Z.to_nat n) src
             ++ drop (Z.to_nat (dst + n)) mem)
    else Fault OutOfBoundsWrite
  else Fault OutOfBoundsRead.

(** ** The data model (core_mqtt5_properties.h) *)

(** Modelled from the spec: the status enumeration [MQTTStatus_t] is declared
    in core_mqtt_serializer.h, which is not among the sources.  The three
    enumerators below are the ones core_mqtt5_properties.c returns.  Of the
    error kinds of the specification, InvalidArgument and Malformed are
    [MQTTBadParameter] in the code (an absent argument, a type that is not
    found, malformed wire data) and CapacityExceeded is [MQTTNoMemory] (a
    full collection). *)
Inductive MQTTStatus_t : Set :=
| MQTTSuccess
| MQTTBadParameter
| MQTTNoMemory.

#[global] Instance MQTTStatus_eq_dec : EqDecision MQTTStatus_t.
Proof. solve_decision. Defined.

(** [MQTT5PropertyType_t]: an enumeration, hence an integer. *)
Definition MQTT5_PROPERTY_PAYLOAD_FORMAT_INDICATOR : Z := 0x01.
Definition MQTT5_PROPERTY_MESSAGE_EXPIRY_INTERVAL : Z := 0x02.
Definition MQTT5_PROPERTY_CONTENT_TYPE : Z := 0x03.
Definition MQTT5_PROPERTY_RESPONSE_TOPIC : Z := 0x08.
Definition MQTT5_PROPERTY_CORRELATION_DATA : Z := 0x09.
Definition MQTT5_PROPERTY_SUBSCRIPTION_IDENTIFIER : Z := 0x0B.
Definition MQTT5_PROPERTY_SESSION_EXPIRY_INTERVAL : Z := 0x11.
Definition MQTT5_PROPERTY_ASSIGNED_CLIENT_IDENTIFIER : Z := 0x12.
Definition MQTT5_PROPERTY_SERVER_KEEP_ALIVE : Z := 0x13.
Definition MQTT5_PROPERTY_AUTHENTICATION_METHOD : Z := 0x15.
Definition MQTT5_PROPERTY_AUTHENTICATION_DATA : Z := 0x16.
Definition MQTT5_PROPERTY_REQUEST_PROBLEM_INFORMATION : Z := 0x17.
Definition MQTT5_PROPERTY_WILL_DELAY_INTERVAL : Z := 0x18.
Definition MQTT5_PROPERTY_REQUEST_RESPONSE_INFORMATION : Z := 0x19.
Definition MQTT5_PROPERTY_RESPONSE_INFORMATION : Z := 0x1A.
Definition MQTT5_PROPERTY_SERVER_REFERENCE : Z := 0x1C.
Definition MQTT5_PROPERTY_REASON_STRING : Z := 0x1F.
Definition MQTT5_PROPERTY_RECEIVE_MAXIMUM : Z := 0x21.
Definition MQTT5_PROPERTY_TOPIC_ALIAS_MAXIMUM : Z := 0x22.
Definition MQTT5_PROPERTY_TOPIC_ALIAS : Z := 0x23.
Definition MQTT5_PROPERTY_MAXIMUM_QOS : Z := 0x24.
Definition MQTT5_PROPERTY_RETAIN_AVAILABLE : Z := 0x25.
Definition MQTT5_PROPERTY_USER_PROPERTY : Z := 0x26.
Definition MQTT5_PROPERTY_MAXIMUM_PACKET_SIZE : Z := 0x27.
Definition MQTT5_PROPERTY_WILDCARD_SUBSCRIPTION_AVAILABLE : Z := 0x28.
Definition MQTT5_PROPERTY_SUBSCRIPTION_IDENTIFIER_AVAILABLE : Z := 0x29.
Definition MQTT5_PROPERTY_SHARED_SUBSCRIPTION_AVAILABLE : Z := 0x2A.

(** The groups of [case] labels.  The three [switch] statements of the file
    (in MQTT5_GetPropertiesSize, MQTT5_SerializeProperties and
    MQTT5_DeserializeProperties) list the same labels in the same groups. *)
Inductive case_group : Set :=
| CaseByte | CaseTwoByte | CaseFourByte | CaseUtf8String | CaseBinaryData
| CaseUserProperty | CaseSubscriptionIdentifier.

Definition byte_labels : list Z :=
  [ MQTT5_PROPERTY_PAYLOAD_FORMAT_INDICATOR;
    MQTT5_PROPERTY_REQUEST_PROBLEM_INFORMATION;
    MQTT5_PROPERTY_REQUEST_RESPONSE_INFORMATION;
    MQTT5_PROPERTY_MAXIMUM_QOS;
    MQTT5_PROPERTY_RETAIN_AVAILABLE;
    MQTT5_PROPERTY_WILDCARD_SUBSCRIPTION_AVAILABLE;
    MQTT5_PROPERTY_SUBSCRIPTION_IDENTIFIER_AVAILABLE;
    MQTT5_PROPERTY_SHARED_SUBSCRIPTION_AVAILABLE ].

Definition two_byte_labels : list Z :=
  [ MQTT5_PROPERTY_SERVER_KEEP_ALIVE;
    MQTT5_PROPERTY_RECEIVE_MAXIMUM;
    MQTT5_PROPERTY_TOPIC_ALIAS_MAXIMUM;
    MQTT5_PROPERTY_TOPIC_ALIAS ].

Definition four_byte_labels : list Z :=
  [ MQTT5_PROPERTY_MESSAGE_EXPIRY_INTERVAL;
    MQTT5_PROPERTY_SESSION_EXPIRY_INTERVAL;
    MQTT5_PROPERTY_WILL_DELAY_INTERVAL;
    MQTT5_PROPERTY_MAXIMUM_PACKET_SIZE ].

Definition utf8_string_labels : list Z :=
  [ MQTT5_PROPERTY_CONTENT_TYPE;
    MQTT5_PROPERTY_RESPONSE_TOPIC;
    MQTT5_PROPERTY_ASSIGNED_CLIENT_IDENTIFIER;
    MQTT5_PROPERTY_AUTHENTICATION_METHOD;
    MQTT5_PROPERTY_RESPONSE_INFORMATION;
    MQTT5_PROPERTY_SERVER_REFERENCE;
    MQTT5_PROPERTY_REASON_STRING ].

Definition binary_data_labels : list Z :=
  [ MQTT5_PROPERTY_CORRELATION_DATA;
    MQTT5_PROPERTY_AUTHENTICATION_DATA ].

Definition has_label (type : Z) (labels : list Z) : bool :=
  existsb (Z.eqb type) labels.

(** Which group of labels a [switch] on [type] jumps to; [None] is the
    [default] label. *)
Definition switch (type : Z) : option case_group :=
  if has_label type byte_labels then Some CaseByte
  else if has_label type two_byte_labels then Some CaseTwoByte
  else if has_label type four_byte_labels then Some CaseFourByte
  else if has_label type utf8_string_labels then Some CaseUtf8String
  else if has_label type binary_data_labels then Some CaseBinaryData
  else if type =? MQTT5_PROPERTY_USER_PROPERTY then Some CaseUserProperty
  else if type =? MQTT5_PROPERTY_SUBSCRIPTION_IDENTIFIER
       then Some CaseSubscriptionIdentifier
  else None.

(** The [value] union of [MQTT5Property_t], one constructor per member.  A
    pointer member is the list of the bytes readable from it. *)
Inductive MQTT5PropertyValue : Type :=
| byte (b : Z)
| twoByteInteger (v : Z)
| fourByteInteger (v : Z)
| binaryData (pData : list Z) (length_ : Z)
| utf8String (pString : list Z) (length_ : Z)
| userProperty (pKey : list Z) (keyLength : Z) (pValue : list Z) (valueLength : Z).

Record MQTT5Property_t : Type := {
  type : Z;
  value : MQTT5PropertyValue
}.

(** Reading a member of the union.  The members overlap in memory; what a
    read of another member than the stored one yields depends on the layout
    and is a fault here. *)
Definition value_byte (v : MQTT5PropertyValue) : outcome Z :=
  match v with byte b => Ret b | _ => Fault InactiveMember end.

Definition value_twoByteInteger (v : MQTT5PropertyValue) : outcome Z :=
  match v with twoByteInteger x => Ret x | _ => Fault InactiveMember end.

Definition value_fourByteInteger (v : MQTT5PropertyValue) : outcome Z :=
  match v with fourByteInteger x => Ret x | _ => Fault InactiveMember end.

(** [value.binaryData] as the pair of [pData] and [length]. *)
Definition value_binaryData (v : MQTT5PropertyValue) : outcome (list Z * Z) :=
  match v with binaryData p n => Ret (p, n) | _ => Fault InactiveMember end.

Definition value_utf8String (v : MQTT5PropertyValue) : outcome (list Z * Z) :=
  match v with utf8String p n => Ret (p, n) | _ => Fault InactiveMember end.

Definition value_userProperty (v : MQTT5PropertyValue)
  : outcome (list Z * Z * list Z * Z) :=
  match v with
  | userProperty k kn w wn => Ret (k, kn, w, wn)
  | _ => Fault InactiveMember
  end.

(** [MQTT5Properties_t]; [pProperties] is the caller's storage array. *)
Record MQTT5Properties_t : Type := {
  pProperties : list MQTT5Property_t;
  count : Z;
  capacity : Z
}.

(** The entries of a collection: the first [count] slots of the storage. *)
Definition entries (p : MQTT5Properties_t) : list MQTT5Property_t :=
  take (Z.to_nat (count p)) (pProperties p).

(** ** The collection (MQTT5_InitProperties, MQTT5_AddProperty, MQTT5_GetProperty) *)

(** A pointer argument that the code compares with NULL is an [option]; the
    result carries the object the pointer points to after the call. *)
Definition MQTT5_InitProperties (pProperties_ : option MQTT5Properties_t)
    (pBuffer : option (list MQTT5Property_t)) (capacity_ : Z)
  : MQTTStatus_t * option MQTT5Properties_t :=
  match pProperties_, pBuffer with
  | Some _, Some buffer =>
      if capacity_ =? 0 then (MQTTBadParameter, pProperties_)
      else (MQTTSuccess,
            Some {| pProperties := buffer; count := 0; capacity := capacity_ |})
  | _, _ => (MQTTBadParameter, pProperties_)
  end.

Definition MQTT5_AddProperty (pProperties_ : option MQTT5Properties_t)
    (pProperty : option MQTT5Property_t)
  : outcome (MQTTStatus_t * option MQTT5Properties_t) :=
  match pProperties_, pProperty with
  | Some p, Some property =>
      if count p >=? capacity p then Ret (MQTTNoMemory, pProperties_)
      else
        slots ← store (pProperties p) (count p) property;
        Ret (MQTTSuccess,
             Some {| pProperties := slots;
                     count := to_size_t (count p + 1);
                     capacity := capacity p |})
  | _, _ => Ret (MQTTBadParameter, pProperties_)
  end.

(** The [for] loop of MQTT5_GetProperty, [n] iterations from [i] on.  The
    counter of a loop [for( i = 0U; i < count; i++ )] stays below [count]
    and does not wrap. *)
Fixpoint GetProperty_loop (n : nat) (slots : list MQTT5Property_t) (i : Z)
    (type_ : Z) (status : MQTTStatus_t) (out : MQTT5Property_t)
  : outcome (MQTTStatus_t * MQTT5Property_t) :=
  match n with
  | O => Ret (status, out)
  | S n' =>
      entry ← load slots i;
      if type entry =? type_ then Ret (MQTTSuccess, entry)
      else GetProperty_loop n' slots (i + 1) type_ status out
  end.

(** MQTT5_GetProperty for an output record [*pProperty] that is an object
    of the caller apart from the storage of the collection: the storage is
    only read and is no part of the result.  [MQTT5_GetProperty_at] below is
    the function for an output pointer that may point into the storage. *)
Definition MQTT5_GetProperty (pProperties_ : option MQTT5Properties_t)
    (type_ : Z) (pProperty : option MQTT5Property_t)
  : outcome (MQTTStatus_t * option MQTT5Property_t) :=
  match pProperties_, pProperty with
  | Some p, Some out =>
      '(status, out') ← GetProperty_loop (Z.to_nat (count p)) (pProperties p)
                          0 type_ MQTTBadParameter out;
      Ret (status, Some out')
  | _, _ => Ret (MQTTBadParameter, pProperty)
  end.

(** Where the output pointer [pProperty] of MQTT5_GetProperty points: to a
    record of the caller apart from the storage of the collection, or to
    the slot [j] of that storage, as [&pProperties->pProperties[ j ]]
    does. *)
Inductive output_pointer : Type :=
| Apart (record : MQTT5Property_t)
| Slot (j : Z).

(** [*pProperty = pProperties->pProperties[ i ]], where [entry] is the
    value read: the assignment writes the record of the caller, or the slot
    of the storage the pointer points to. *)
Definition assign_output (slots : list MQTT5Property_t)
    (pProperty : output_pointer) (entry : MQTT5Property_t)
  : outcome (list MQTT5Property_t * output_pointer) :=
  match pProperty with
  | Apart _ => Ret (slots, Apart entry)
  | Slot j => slots ← store slots j entry; Ret (slots, Slot j)
  end.

(** The [for] loop of MQTT5_GetProperty with the storage as a part of the
    state. *)
Fixpoint GetProperty_loop_at (n : nat) (slots : list MQTT5Property_t) (i : Z)
    (type_ : Z) (status : MQTTStatus_t) (pProperty : output_pointer)
  : outcome (MQTTStatus_t * list MQTT5Property_t * output_pointer) :=
  match n with
  | O => Ret (status, slots, pProperty)
  | S n' =>
      entry ← load slots i;
      if type entry =? type_ then
        '(slots, pProperty) ← assign_output slots pProperty entry;
        Ret (MQTTSuccess, slots, pProperty)
      else GetProperty_loop_at n' slots (i + 1) type_ status pProperty
  end.

(** MQTT5_GetProperty with an output pointer that may point into the
    storage of the collection.  The result carries the collection and what
    the output pointer points to after the call. *)
Definition MQTT5_GetProperty_at (pProperties_ : option MQTT5Properties_t)
    (type_ : Z) (pProperty : option output_pointer)
  : outcome (MQTTStatus_t * option MQTT5Properties_t * option output_pointer) :=
  match pProperties_, pProperty with
  | Some p, Some out =>
      '(status, slots, out) ← GetProperty_loop_at (Z.to_nat (count p)) (pProperties p)
                                0 type_ MQTTBadParameter out;
      Ret (status,
           Some {| pProperties := slots; count := count p; capacity := capacity p |},
           Some out)
  | _, _ => Ret (MQTTBadParameter, pProperties_, pProperty)
  end.

(** ** Size computation (MQTT5_GetPropertiesSize) *)

(** What the [switch] adds to [totalSize] for the value of one property. *)
Definition add_value_size (totalSize : Z) (pProp : MQTT5Property_t) : outcome Z :=
  match switch (type pProp) with
  | Some CaseByte => Ret (to_size_t (totalSize + 1))
  | Some CaseTwoByte => Ret (to_size_t (totalSize + 2))
  | Some CaseFourByte => Ret (to_size_t (totalSize + 4))
  | Some CaseUtf8String =>
      '(_, length) ← value_utf8String (value pProp);
      Ret (to_size_t (totalSize + to_uint32 (2 + length)))
  | Some CaseBinaryData =>
      '(_, length) ← value_binaryData (value pProp);
      Ret (to_size_t (totalSize + to_uint32 (2 + length)))
  | Some CaseUserProperty =>
      '(_, keyLength, _, valueLength) ← value_userProperty (value pProp);
      Ret (to_size_t (totalSize + to_uint32 (2 + keyLength + 2 + valueLength)))
  | Some CaseSubscriptionIdentifier =>
      (* Conservative estimate *)
      Ret (to_size_t (totalSize + 4))
  | None => Ret totalSize
  end.

Fixpoint GetPropertiesSize_loop (n : nat) (slots : list MQTT5Property_t)
    (i totalSize : Z) : outcome Z :=
  match n with
  | O => Ret totalSize
  | S n' =>
      pProp ← load slots i;
      (* Property ID (1 byte) *)
      totalSize ← add_value_size (to_size_t (totalSize + 1)) pProp;
      GetPropertiesSize_loop n' slots (i + 1) totalSize
  end.

Definition MQTT5_GetPropertiesSize (pProperties_ : option MQTT5Properties_t)
  : outcome Z :=
  match pProperties_ with
  | Some p => GetPropertiesSize_loop (Z.to_nat (count p)) (pProperties p) 0 0
  | None => Ret 0
  end.

(** ** The Variable Byte Integer codec *)

(** The [do ... while] loop of encodeVariableByteInteger.  [pBuffer] is
    NULL ([None]) or the offset in [mem] the pointer points to. *)
Fixpoint encode_loop (fuel : nat) (mem : list Z) (pBuffer : option Z)
    (value_ bytesWritten : Z) : outcome (list Z * Z) :=
  match fuel with
  | O => OutOfFuel
  | S fuel' =>
      let encodedByte := to_uint8 (value_ mod 128) in
      let value_ := value_ / 128 in
      let encodedByte :=
        if 0 <? value_ then Z.lor encodedByte 0x80 else encodedByte in
      mem ← match pBuffer with
            | Some offset => store mem (offset + bytesWritten) encodedByte
            | None => Ret mem
            end;
      let bytesWritten := to_size_t (bytesWritten + 1) in
      if 0 <? value_ then encode_loop fuel' mem pBuffer value_ bytesWritten
      else Ret (mem, bytesWritten)
  end.

(** The parameter [value] is a [uint32_t]: five rounds of division by 128
    exhaust it. *)
Definition encodeVariableByteInteger (mem : list Z) (pBuffer : option Z)
    (value_ : Z) : outcome (list Z * Z) :=
  encode_loop 5 mem pBuffer (to_uint32 value_) 0.

(** The [do ... while] loop of MQTT5_DecodeVariableByteInteger; the result
    is the pair of the returned count and of [*pValue]. *)
Fixpoint decode_loop (fuel : nat) (pBuffer : list Z) (bufferSize : Z)
    (bytesRead multiplier pValue : Z) : outcome (Z * Z) :=
  match fuel with
  | O => OutOfFuel
  | S fuel' =>
      if bytesRead >=? bufferSize then Ret (0, pValue)
      else
        encodedByte ← load pBuffer bytesRead;
        let pValue :=
          to_uint32 (pValue + to_uint32 (Z.land encodedByte 0x7F * multiplier)) in
        let multiplier := to_uint32 (multiplier * 128) in
        let bytesRead := to_size_t (bytesRead + 1) in
        if 4 <? bytesRead then Ret (0, pValue)
        else if negb (Z.land encodedByte 0x80 =? 0)
             then decode_loop fuel' pBuffer bufferSize bytesRead multiplier pValue
             else Ret (bytesRead, pValue)
  end.

Definition MQTT5_DecodeVariableByteInteger (pBuffer : list Z) (bufferSize : Z)
  : outcome (Z * Z) :=
  decode_loop 5 pBuffer bufferSize 0 1 0.

(** ** Serialization (MQTT5_SerializeProperties) *)

(** A 2-byte big-endian length field written at [index]. *)
Definition store_length (pBuffer : list Z) (index length : Z) : outcome (list Z) :=
  pBuffer ← store pBuffer index (to_uint8 (Z.shiftr length 8));
  store pBuffer (to_size_t (index + 1)) (to_uint8 (Z.land length 0xFF)).

(** The body of the [for] loop: the identifier and the value of [pProp]
    are written from [index] on. *)
Definition serialize_property (pBuffer : list Z) (index : Z)
    (pProp : MQTT5Property_t) : outcome (MQTTStatus_t * list Z * Z) :=
  pBuffer ← store pBuffer index (to_uint8 (type pProp));
  let index := to_size_t (index + 1) in
  match switch (type pProp) with
  | Some CaseByte =>
      b ← value_byte (value pProp);
      pBuffer ← store pBuffer index b;
      Ret (MQTTSuccess, pBuffer, to_size_t (index + 1))
  | Some CaseTwoByte =>
      v ← value_twoByteInteger (value pProp);
      pBuffer ← store pBuffer index (to_uint8 (Z.shiftr v 8));
      pBuffer ← store pBuffer (to_size_t (index + 1)) (to_uint8 (Z.land v 0xFF));
      Ret (MQTTSuccess, pBuffer, to_size_t (index + 2))
  | Some CaseFourByte =>
      v ← value_fourByteInteger (value pProp);
      pBuffer ← store pBuffer index (to_uint8 (Z.shiftr v 24));
      pBuffer ← store pBuffer (to_size_t (index + 1))
                  (to_uint8 (Z.land (Z.shiftr v 16) 0xFF));
      pBuffer ← store pBuffer (to_size_t (index + 2))
                  (to_uint8 (Z.land (Z.shiftr v 8) 0xFF));
      pBuffer ← store pBuffer (to_size_t (index + 3)) (to_uint8 (Z.land v 0xFF));
      Ret (MQTTSuccess, pBuffer, to_size_t (index + 4))
  | Some CaseUtf8String =>
      '(pString, length) ← value_utf8String (value pProp);
      pBuffer ← store_length pBuffer index length;
      let index := to_size_t (index + 2) in
      pBuffer ← memcpy pBuffer index pString length;
      Ret (MQTTSuccess, pBuffer, to_size_t (index + length))
  | Some CaseBinaryData =>
      '(pData, length) ← value_binaryData (value pProp);
      pBuffer ← store_length pBuffer index length;
      let index := to_size_t (index + 2) in
      pBuffer ← memcpy pBuffer index pData length;
      Ret (MQTTSuccess, pBuffer, to_size_t (index + length))
  | Some CaseUserProperty =>
      '(pKey, keyLength, pValue, valueLength) ← value_userProperty (value pProp);
      pBuffer ← store_length pBuffer index keyLength;
      let index := to_size_t (index + 2) in
      pBuffer ← memcpy pBuffer index pKey keyLength;
      let index := to_size_t (index + keyLength) in
      pBuffer ← store_length pBuffer index valueLength;
      let index := to_size_t (index + 2) in
      pBuffer ← memcpy pBuffer index pValue valueLength;
      Ret (MQTTSuccess, pBuffer, to_size_t (index + valueLength))
  | Some CaseSubscriptionIdentifier =>
      v ← value_fourByteInteger (value pProp);
      '(pBuffer, written) ← encodeVariableByteInteger pBuffer (Some index) v;
      Ret (MQTTSuccess, pBuffer, to_size_t (index + written))
  | None => Ret (MQTTBadParameter, pBuffer, index)
  end.

(** [for( i = 0U; ( i < count ) && ( status == MQTTSuccess ); i++ )], with
    [n] iterations left before [i] reaches [count]. *)
Fixpoint serialize_loop (n : nat) (slots : list MQTT5Property_t) (i : Z)
    (pBuffer : list Z) (index : Z) (status : MQTTStatus_t)
  : outcome (MQTTStatus_t * list Z * Z) :=
  match n with
  | O => Ret (status, pBuffer, index)
  | S n' =>
      if decide (status = MQTTSuccess) then
        pProp ← load slots i;
        '(status, pBuffer, index) ← serialize_property pBuffer index pProp;
        serialize_loop n' slots (i + 1) pBuffer index status
      else Ret (status, pBuffer, index)
  end.

(** The result is the status, the output buffer and [*pSize] after the
    call. *)
Definition MQTT5_SerializeProperties (pProperties_ : option MQTT5Properties_t)
    (pBuffer : option (list Z)) (pSize : option Z)
  : outcome (MQTTStatus_t * option (list Z) * option Z) :=
  match pProperties_, pBuffer, pSize with
  | Some p, Some buffer, Some _ =>
      propertiesLength ← MQTT5_GetPropertiesSize pProperties_;
      '(buffer, vbiLength) ←
        encodeVariableByteInteger buffer (Some 0) (to_uint32 propertiesLength);
      let index := to_size_t (0 + vbiLength) in
      '(status, buffer, index) ←
        serialize_loop (Z.to_nat (count p)) (pProperties p) 0 buffer index
          MQTTSuccess;
      Ret (status, Some buffer, Some index)
  | _, _, _ => Ret (MQTTBadParameter, pBuffer, pSize)
  end.

(** ** Deserialization (MQTT5_DeserializeProperties) *)

(** [( ( uint16_t ) pBuffer[ index ] << 8U ) | ( uint16_t ) pBuffer[ index + 1U ]],
    assigned to a [uint16_t]. *)
Definition load_uint16 (pBuffer : list Z) (index : Z) : outcome Z :=
  hi ← load pBuffer index;
  lo ← load pBuffer (to_size_t (index + 1));
  Ret (to_uint16 (Z.lor (Z.shiftl hi 8) lo)).

Definition load_uint32 (pBuffer : list Z) (index : Z) : outcome Z :=
  b0 ← load pBuffer index;
  b1 ← load pBuffer (to_size_t (index + 1));
  b2 ← load pBuffer (to_size_t (index + 2));
  b3 ← load pBuffer (to_size_t (index + 3));
  Ret (Z.lor (Z.lor (Z.lor (to_uint32 (Z.shiftl b0 24))
                           (to_uint32 (Z.shiftl b1 16)))
                    (to_uint32 (Z.shiftl b2 8)))
             b3).

(** The locals of MQTT5_DeserializeProperties that the [while] loop reads
    and writes, and the collection. *)
Record locals : Type := {
  l_index : Z;
  l_vbiLength : Z;
  l_status : MQTTStatus_t;
  l_properties : MQTT5Properties_t
}.

(** The [switch] of the loop, entered with [index] past the identifier.  The
    result is the member of [property.value] it wrote, [None] where it sets
    [status] to MQTTBadParameter, with the new [index] and [vbiLength].  The
    local [property] is read after the [switch] only where [status] is still
    MQTTSuccess, that is where a member has been written in this round. *)
Definition read_value (pBuffer : list Z) (size : Z) (type_ : Z)
    (index vbiLength : Z) : outcome (option MQTT5PropertyValue * Z * Z) :=
  match switch type_ with
  | Some CaseByte =>
      b ← load pBuffer index;
      Ret (Some (byte b), to_size_t (index + 1), vbiLength)
  | Some CaseTwoByte =>
      v ← load_uint16 pBuffer index;
      Ret (Some (twoByteInteger v), to_size_t (index + 2), vbiLength)
  | Some CaseFourByte =>
      v ← load_uint32 pBuffer index;
      Ret (Some (fourByteInteger v), to_size_t (index + 4), vbiLength)
  | Some CaseUtf8String =>
      length ← load_uint16 pBuffer index;
      let index := to_size_t (index + 2) in
      let pString := drop (Z.to_nat index) pBuffer in
      Ret (Some (utf8String pString length), to_size_t (index + length), vbiLength)
  | Some CaseBinaryData =>
      length ← load_uint16 pBuffer index;
      let index := to_size_t (index + 2) in
      let pData := drop (Z.to_nat index) pBuffer in
      Ret (Some (binaryData pData length), to_size_t (index + length), vbiLength)
  | Some CaseUserProperty =>
      keyLength ← load_uint16 pBuffer index;
      let index := to_size_t (index + 2) in
      let pKey := drop (Z.to_nat index) pBuffer in
      let index := to_size_t (index + keyLength) in
      valueLength ← load_uint16 pBuffer index;
      let index := to_size_t (index + 2) in
      let pValue := drop (Z.to_nat index) pBuffer in
      Ret (Some (userProperty pKey keyLength pValue valueLength),
           to_size_t (index + valueLength), vbiLength)
  | Some CaseSubscriptionIdentifier =>
      '(vbiLength, v) ←
        MQTT5_DecodeVariableByteInteger (drop (Z.to_nat index) pBuffer)
          (to_size_t (size - index));
      if vbiLength =? 0 then Ret (None, index, vbiLength)
      else Ret (Some (fourByteInteger v), to_size_t (index + vbiLength), vbiLength)
  | None => Ret (None, index, vbiLength)
  end.

(** The condition of the [while] loop. *)
Definition loop_condition (size propertiesLength : Z) (l : locals) : bool :=
  (l_index l <? size)
  && (l_index l <? to_size_t (l_vbiLength l + propertiesLength))
  && bool_decide (l_status l = MQTTSuccess).

(** The body of the [while] loop. *)
Definition loop_body (pBuffer : list Z) (size : Z) (l : locals) : outcome locals :=
  type_ ← load pBuffer (l_index l);
  let index := to_size_t (l_index l + 1) in
  '(written, index, vbiLength) ← read_value pBuffer size type_ index (l_vbiLength l);
  match written with
  | Some value_ =>
      '(status, pProperties_) ←
        MQTT5_AddProperty (Some (l_properties l))
          (Some {| type := type_; value := value_ |});
      Ret {| l_index := index; l_vbiLength := vbiLength; l_status := status;
             l_properties := default (l_properties l) pProperties_ |}
  | None =>
      Ret {| l_index := index; l_vbiLength := vbiLength;
             l_status := MQTTBadParameter; l_properties := l_properties l |}
  end.

Fixpoint deserialize_loop (fuel : nat) (pBuffer : list Z)
    (size propertiesLength : Z) (l : locals) : outcome locals :=
  match fuel with
  | O => OutOfFuel
  | S fuel' =>
      if loop_condition size propertiesLength l then
        l ← loop_body pBuffer size l;
        deserialize_loop fuel' pBuffer size propertiesLength l
      else Ret l
  end.

(** Every round of the loop moves [index] forward and ends below [size]:
    [size] rounds and the test that ends the loop are the fuel. *)
Definition MQTT5_DeserializeProperties (pProperties_ : option MQTT5Properties_t)
    (pBuffer : option (list Z)) (size : Z)
  : outcome (MQTTStatus_t * option MQTT5Properties_t) :=
  match pProperties_, pBuffer with
  | Some p, Some buffer =>
      '(vbiLength, propertiesLength) ← MQTT5_DecodeVariableByteInteger buffer size;
      if vbiLength =? 0 then Ret (MQTTBadParameter, pProperties_)
      else
        l ← deserialize_loop (S (Z.to_nat size)) buffer size propertiesLength
              {| l_index := vbiLength; l_vbiLength := vbiLength;
                 l_status := MQTTSuccess; l_properties := p |};
        Ret (l_status l, Some (l_properties l))
  | _, _ => Ret (MQTTBadParameter, pProperties_)
  end.

(** ** The protocol version (core_mqtt_version.h) *)

Definition MQTT_VERSION_3_1_1 : Z := 311.
Definition MQTT_VERSION_5_0 : Z := 500.

(** [MQTT_VERSION] after the header has been read: the value the build
    defines, or that of MQTT_VERSION_3_1_1 when the build defines none. *)
Definition MQTT_VERSION (defined : option Z) : Z :=
  match defined with
  | Some version => version
  | None => MQTT_VERSION_3_1_1
  end.

(** The condition of the [#if] that ends the compilation with [#error]. *)
Definition version_error (defined : option Z) : bool :=
  negb (MQTT_VERSION defined =? MQTT_VERSION_3_1_1)
  && negb (MQTT_VERSION defined =? MQTT_VERSION_5_0).

Definition MQTT_VERSION_IS_3_1_1 (defined : option Z) : bool :=
  MQTT_VERSION defined =? MQTT_VERSION_3_1_1.

Definition MQTT_VERSION_IS_5_0 (defined : option Z) : bool :=
  MQTT_VERSION defined =? MQTT_VERSION_5_0.

(** ** Wire formats, stated apart from the code *)

(** The bytes of the Variable Byte Integer of [v]: seven bits a byte, the
    low ones first, bit 7 set on every byte but the last; at most [n]
    bytes carry the continuation bit. *)
Fixpoint vbi_bytes (n : nat) (v : Z) : list Z :=
  match n with
  | O => [v mod 128]
  | S n' =>
      if 0 <? v / 128 then Z.lor (v mod 128) 0x80 :: vbi_bytes n' (v / 128)
      else [v mod 128]
  end.

(** A byte with the continuation bit. *)
Definition continues (b : Z) : Prop := Z.land b 0x80 ≠ 0.

(** The number of bytes of the Variable Byte Integer of [v]. *)
Definition vbi_width (v : Z) : Z :=
  if v <? 128 then 1
  else if v <? 16384 then 2
  else if v <? 2097152 then 3
  else if v <? 268435456 then 4
  else 5.

(** The value of the bytes of a Variable Byte Integer: the low seven bits
    of each byte, the first byte the least significant. *)
Fixpoint vbi_value (bytes : list Z) : Z :=
  match bytes with
  | [] => 0
  | b :: bytes => Z.land b 0x7F + 128 * vbi_value bytes
  end.

(** ** Runs of the deserialization loop *)

(** The locals at the first round of the [while] loop of
    MQTT5_DeserializeProperties. *)
Definition first_round (vbiLength : Z) (p : MQTT5Properties_t) : locals :=
  {| l_index := vbiLength; l_vbiLength := vbiLength; l_status := MQTTSuccess;
     l_properties := p |}.

(** [rounds pBuffer size propertiesLength l l']: some rounds of the loop
    take the locals from [l] to [l']. *)
Inductive rounds (pBuffer : list Z) (size propertiesLength : Z)
  : locals → locals → Prop :=
| rounds_refl l : rounds pBuffer size propertiesLength l l
| rounds_step l l' l'' :
    loop_condition size propertiesLength l = true →
    loop_body pBuffer size l = Ret l' →
    rounds pBuffer size propertiesLength l' l'' →
    rounds pBuffer size propertiesLength l l''.

(** [wire_sequence pBuffer size index vbiLength ps]: the properties [ps]
    are read one after the other from [pBuffer], the first at [index], each
    at the position where the one before ends. *)
Inductive wire_sequence (pBuffer : list Z) (size : Z)
  : Z → Z → list MQTT5Property_t → Prop :=
| wire_nil index vbiLength : wire_sequence pBuffer size index vbiLength []
| wire_cons index vbiLength type_ value_ index' vbiLength' ps :
    load pBuffer index = Ret type_ →
    read_value pBuffer size type_ (to_size_t (index + 1)) vbiLength
      = Ret (Some value_, index', vbiLength') →
    wire_sequence pBuffer size index' vbiLength' ps →
    wire_sequence pBuffer size index vbiLength
      ({| type := type_; value := value_ |} :: ps).

(** ** Well-formed collections and their wire format *)

(** The type/value-shape invariant: the member of the union that is stored
    is the one the type of the property calls for, its value is in the
    range of the member's C type (of a four-byte Variable Byte Integer for
    a Subscription Identifier), and a pointer member points to at least as
    many bytes as the length next to it announces. *)
Definition well_shaped (x : MQTT5Property_t) : Prop :=
  match switch (type x), value x with
  | Some CaseByte, byte b => is_uint8 b
  | Some CaseTwoByte, twoByteInteger v => is_uint16 v
  | Some CaseFourByte, fourByteInteger v => is_uint32 v
  | Some CaseUtf8String, utf8String pString length_ =>
      is_uint16 length_ ∧ length_ ≤ Z.of_nat (length pString)
  | Some CaseBinaryData, binaryData pData length_ =>
      is_uint16 length_ ∧ length_ ≤ Z.of_nat (length pData)
  | Some CaseUserProperty, userProperty pKey keyLength pValue valueLength =>
      is_uint16 keyLength ∧ keyLength ≤ Z.of_nat (length pKey)
      ∧ is_uint16 valueLength ∧ valueLength ≤ Z.of_nat (length pValue)
  | Some CaseSubscriptionIdentifier, fourByteInteger v => 0 ≤ v ≤ VBI_MAX
  | _, _ => False
  end.

(** The width of a property in the table of value shapes: one byte for the
    identifier and the width of the value, four bytes for a Subscription
    Identifier. *)
Definition charged_size (x : MQTT5Property_t) : Z :=
  1 + match switch (type x), value x with
      | Some CaseByte, _ => 1
      | Some CaseTwoByte, _ => 2
      | Some CaseFourByte, _ => 4
      | Some CaseUtf8String, utf8String _ length_ => 2 + length_
      | Some CaseBinaryData, binaryData _ length_ => 2 + length_
      | Some CaseUserProperty, userProperty _ keyLength _ valueLength =>
          2 + keyLength + 2 + valueLength
      | Some CaseSubscriptionIdentifier, _ => 4
      | _, _ => 0
      end.

(** The properties length of a list of properties. *)
Definition properties_size (ps : list MQTT5Property_t) : Z :=
  foldr (λ x n, charged_size x + n) 0 ps.

(** A 2-byte big-endian length. *)
Definition wire_length (n : Z) : list Z := [n / 256; n mod 256].

(** The bytes of a property on the wire: the identifier, then the value,
    integers big-endian, byte sequences behind their length, a
    Subscription Identifier as a Variable Byte Integer. *)
Definition wire_property (x : MQTT5Property_t) : list Z :=
  type x ::
  match value x with
  | byte b => [b]
  | twoByteInteger v => wire_length v
  | fourByteInteger v =>
      match switch (type x) with
      | Some CaseSubscriptionIdentifier => vbi_bytes 3 v
      | _ => [v / 2 ^ 24; (v / 2 ^ 16) mod 256; (v / 2 ^ 8) mod 256; v mod 256]
      end
  | binaryData pData length_ => wire_length length_ ++ take (Z.to_nat length_) pData
  | utf8String pString length_ =>
      wire_length length_ ++ take (Z.to_nat length_) pString
  | userProperty pKey keyLength pValue valueLength =>
      wire_length keyLength ++ take (Z.to_nat keyLength) pKey
      ++ wire_length valueLength ++ take (Z.to_nat valueLength) pValue
  end.

Definition wire_properties (ps : list MQTT5Property_t) : list Z :=
  concat (map wire_property ps).

(** Equal values: the same member with the same integer, or with the same
    length and the same bytes up to that length. *)
Definition same_value (a b : MQTT5PropertyValue) : Prop :=
  match a, b with
  | byte x, byte y => x = y
  | twoByteInteger x, twoByteInteger y => x = y
  | fourByteInteger x, fourByteInteger y => x = y
  | binaryData d n, binaryData d' n' =>
      n = n' ∧ take (Z.to_nat n) d = take (Z.to_nat n) d'
  | utf8String s n, utf8String s' n' =>
      n = n' ∧ take (Z.to_nat n) s = take (Z.to_nat n) s'
  | userProperty k kn w wn, userProperty k' kn' w' wn' =>
      kn = kn' ∧ take (Z.to_nat kn) k = take (Z.to_nat kn) k'
      ∧ wn = wn' ∧ take (Z.to_nat wn) w = take (Z.to_nat wn) w'
  | _, _ => False
  end.

Definition same_property (a b : MQTT5Property_t) : Prop :=
  type a = type b ∧ same_value (value a) (value b).

(** The bytes of a properties block as MQTT5_SerializeProperties writes
    it: the length prefix, which is the Variable Byte Integer of
    [properties_size] and so counts four bytes for the value of every
    Subscription Identifier, and the properties.  For properties without
    Subscription Identifier [properties_size] is the length of their bytes,
    and the block is the properties block of MQTT 5.0; with a Subscription
    Identifier of fewer than four bytes the prefix announces more bytes
    than follow. *)
Definition wire_block (ps : list MQTT5Property_t) : list Z :=
  vbi_bytes 4 (properties_size ps) ++ wire_properties ps.

(** [vbiLength] after the round of the deserialization loop that reads the
    property [x]: the Subscription Identifier case assigns to it. *)
Definition next_vbiLength (x : MQTT5Property_t) (vbiLength : Z) : Z :=
  match switch (type x) with
  | Some CaseSubscriptionIdentifier => Z.of_nat (length (wire_property x)) - 1
  | _ => vbiLength
  end.

(** A property MQTT5_GetPropertiesSize charges without reading a member of
    the union other than the stored one: it respects the shape invariant,
    or its type is no [case] label. *)
Definition chargeable (x : MQTT5Property_t) : Prop :=
  well_shaped x ∨ switch (type x) = None.

(** A property whose value is not a Variable Byte Integer. *)
Definition fixed_width (x : MQTT5Property_t) : Prop :=
  switch (type x) ≠ Some CaseSubscriptionIdentifier.


(** A properties block with one Subscription Identifier of value [v], its
    properties length the length of the identifier and of the value. *)
Definition subscription_identifier_block (v : Z) : list Z :=
  [1 + Z.of_nat (length (vbi_bytes 3 v))]
  ++ MQTT5_PROPERTY_SUBSCRIPTION_IDENTIFIER :: vbi_bytes 3 v.

(** The pointer members of a value point into [pBuffer]. *)
Definition borrows (pBuffer : list Z) (v : MQTT5PropertyValue) : Prop :=
  match v with
  | binaryData pData _ => ∃ k, pData = drop k pBuffer
  | utf8String pString _ => ∃ k, pString = drop k pBuffer
  | userProperty pKey _ pValue _ =>
      (∃ k, pKey = drop k pBuffer) ∧ (∃ k, pValue = drop k pBuffer)
  | _ => True
  end.

(** A collection respects its capacity. *)
Definition within_capacity (p : MQTT5Properties_t) : Prop :=
  0 ≤ count p ≤ capacity p.

(** ** Properties in a buffer, stated apart from the code *)

(** [slice pBuffer index n]: the [n] bytes of [pBuffer] from [index] on, or
    the bytes there are when the buffer ends before. *)
Definition slice (pBuffer : list Z) (index n : Z) : list Z :=
  take (Z.to_nat n) (drop (Z.to_nat index) pBuffer).

(** [property_at pBuffer size index x n]: the property [x] is on the wire
    at [index] of [pBuffer], where it takes [n] bytes: the identifier, then
    the value in the format of its type, an integer big-endian, a byte
    sequence behind its 2-byte length.  The value of a Subscription
    Identifier is a Variable Byte Integer of at most four bytes that ends
    within the first [size] bytes of the buffer, whether or not it is the
    shortest one for its value. *)
Definition property_at (pBuffer : list Z) (size index : Z)
    (x : MQTT5Property_t) (n : Z) : Prop :=
  match switch (type x), value x with
  | Some CaseByte, byte b =>
      n = 2 ∧ slice pBuffer index n = [type x; b]
  | Some CaseTwoByte, twoByteInteger v =>
      n = 3 ∧ slice pBuffer index n = type x :: wire_length v
  | Some CaseFourByte, fourByteInteger v =>
      n = 5
      ∧ slice pBuffer index n
        = [type x; v / 2 ^ 24; (v / 2 ^ 16) mod 256; (v / 2 ^ 8) mod 256; v mod 256]
  | Some CaseUtf8String, utf8String pString length_ =>
      n = 3 + length_
      ∧ slice pBuffer index 3 = type x :: wire_length length_
      ∧ take (Z.to_nat length_) pString = slice pBuffer (index + 3) length_
  | Some CaseBinaryData, binaryData pData length_ =>
      n = 3 + length_
      ∧ slice pBuffer index 3 = type x :: wire_length length_
      ∧ take (Z.to_nat length_) pData = slice pBuffer (index + 3) length_
  | Some CaseUserProperty, userProperty pKey keyLength pValue valueLength =>
      n = 5 + keyLength + valueLength
      ∧ slice pBuffer index 3 = type x :: wire_length keyLength
      ∧ take (Z.to_nat keyLength) pKey = slice pBuffer (index + 3) keyLength
      ∧ slice pBuffer (index + 3 + keyLength) 2 = wire_length valueLength
      ∧ take (Z.to_nat valueLength) pValue
        = slice pBuffer (index + 5 + keyLength) valueLength
  | Some CaseSubscriptionIdentifier, fourByteInteger v =>
      ∃ bytes b,
        n = 2 + Z.of_nat (length bytes) ∧ n ≤ 5 ∧ index + n ≤ size
        ∧ slice pBuffer index n = type x :: bytes ++ [b]
        ∧ Forall continues bytes ∧ ¬ continues b
        ∧ v = vbi_value (bytes ++ [b])
  | _, _ => False
  end.

(** The loop of MQTT5_DeserializeProperties goes on while [index] is below
    [size] and below a limit, the declared properties length plus a width:
    the width of the length prefix at first and, after a Subscription
    Identifier, the width of its value.  [width_after x n width] is the
    width after the property [x] of [n] bytes. *)
Definition width_after (x : MQTT5Property_t) (n width : Z) : Z :=
  match switch (type x) with
  | Some CaseSubscriptionIdentifier => n - 1
  | _ => width
  end.

(** [laid_out pBuffer size propertiesLength index width ps index' width']:
    the properties [ps] are on the wire one behind the other from [index]
    to [index'], each of them starting below [size] and below the limit
    [width + propertiesLength] of its turn; the width is [width] at the
    first property and [width'] after the last. *)
Inductive laid_out (pBuffer : list Z) (size propertiesLength : Z)
  : Z → Z → list MQTT5Property_t → Z → Z → Prop :=
| laid_out_nil index width :
    laid_out pBuffer size propertiesLength index width [] index width
| laid_out_cons index width x n ps index' width' :
    0 ≤ index < size →
    index < width + propertiesLength →
    property_at pBuffer size index x n →
    laid_out pBuffer size propertiesLength (index + n) (width_after x n width)
      ps index' width' →
    laid_out pBuffer size propertiesLength index width (x :: ps) index' width'.

(** ** Sample data *)

Definition session_expiry_3600 : MQTT5Property_t :=
  {| type := MQTT5_PROPERTY_SESSION_EXPIRY_INTERVAL; value := fourByteInteger 3600 |}.

Definition user_property_k_v : MQTT5Property_t :=
  {| type := MQTT5_PROPERTY_USER_PROPERTY;
     value := userProperty [107] 1 [118] 1 |}.

Definition subscription_identifier_300 : MQTT5Property_t :=
  {| type := MQTT5_PROPERTY_SUBSCRIPTION_IDENTIFIER; value := fourByteInteger 300 |}.

Definition subscription_identifier_5 : MQTT5Property_t :=
  {| type := MQTT5_PROPERTY_SUBSCRIPTION_IDENTIFIER; value := fourByteInteger 5 |}.

(** A collection of three properties over a storage of three slots. *)
Definition three_properties : MQTT5Properties_t :=
  {| pProperties :=
       [session_expiry_3600; user_property_k_v; subscription_identifier_300];
     count := 3; capacity := 3 |}.

(** An empty collection over [n] slots that hold anything. *)
Definition empty_collection (n : nat) : MQTT5Properties_t :=
  {| pProperties := replicate n session_expiry_3600; count := 0;
     capacity := Z.of_nat n |}.




(** A collection with one entry over three slots. *)
Definition one_of_three : MQTT5Properties_t :=
  {| pProperties := [user_property_k_v; session_expiry_3600; session_expiry_3600];
     count := 1; capacity := 3 |}.

(** [one_of_three] with [session_expiry_3600] appended. *)
Definition two_of_three : MQTT5Properties_t :=
  {| pProperties := [user_property_k_v; session_expiry_3600; session_expiry_3600];
     count := 2; capacity := 3 |}.

(** A collection of one slot that is taken. *)
Definition full_collection : MQTT5Properties_t :=
  {| pProperties := [session_expiry_3600]; count := 1; capacity := 1 |}.


(** The properties block of [session_expiry_3600]. *)
Definition session_expiry_block : list Z := [0x05; 0x11; 0x00; 0x00; 0x0E; 0x10].

(** A properties block with a Payload Format Indicator and then the byte
    0xFE, which is no property identifier. *)
Definition unknown_identifier_block : list Z := [0x03; 0x01; 0x07; 0xFE].

(** The locals after the round that reads the Payload Format Indicator of
    [unknown_identifier_block] into an empty collection of one slot. *)
Definition after_payload_format : locals :=
  {| l_index := 3; l_vbiLength := 1; l_status := MQTTSuccess;
     l_properties :=
       {| pProperties :=
            [{| type := MQTT5_PROPERTY_PAYLOAD_FORMAT_INDICATOR; value := byte 7 |}];
          count := 1; capacity := 1 |} |}.

(** A second user property, and [one_of_three] with it appended. *)
Definition user_property_a_b : MQTT5Property_t :=
  {| type := MQTT5_PROPERTY_USER_PROPERTY;
     value := userProperty [97] 1 [98] 1 |}.

Definition two_user_properties : MQTT5Properties_t :=
  {| pProperties := [user_property_k_v; user_property_a_b; session_expiry_3600];
     count := 2; capacity := 3 |}.

(** A property whose type is no property identifier, and a collection
    with it between two others. *)
Definition unknown_type_property : MQTT5Property_t :=
  {| type := 0xFE; value := byte 0 |}.

Definition with_unknown_type : MQTT5Properties_t :=
  {| pProperties := [session_expiry_3600; unknown_type_property; user_property_k_v];
     count := 3; capacity := 3 |}.

(** Two properties that are no Subscription Identifier. *)
Definition two_fixed_properties : list MQTT5Property_t :=
  [session_expiry_3600; user_property_k_v].

(** The properties block of [user_property_k_v], and the collection of one
    slot it is read into: the key and the value point into the block. *)
Definition user_property_block : list Z :=
  [0x07; 0x26; 0x00; 0x01; 107; 0x00; 0x01; 118].

Definition borrowed_user_property : MQTT5Properties_t :=
  {| pProperties :=
       [{| type := MQTT5_PROPERTY_USER_PROPERTY;
           value := userProperty [107; 0x00; 0x01; 118] 1 [118] 1 |}];
     count := 1; capacity := 1 |}.

(** [three_properties] after MQTT5_GetProperty has been called for a user
    property with the output pointer at the first slot of the storage. *)
Definition first_slot_overwritten : MQTT5Properties_t :=
  {| pProperties := [user_property_k_v; user_property_k_v; subscription_identifier_300];
     count := 3; capacity := 3 |}.

(** The properties block of [two_fixed_properties] with two bytes behind
    it, and [one_of_three] after the block has been read into it: the key
    and the value of the user property point into the buffer. *)
Definition two_fixed_buffer : list Z :=
  [0x0C; 0x11; 0x00; 0x00; 0x0E; 0x10; 0x26; 0x00; 0x01; 107; 0x00; 0x01; 118;
   0x01; 0x01].

Definition one_of_three_filled : MQTT5Properties_t :=
  {| pProperties :=
       [user_property_k_v; session_expiry_3600;
        {| type := MQTT5_PROPERTY_USER_PROPERTY;
           value := userProperty [107; 0x00; 0x01; 118; 0x01; 0x01] 1
                      [118; 0x01; 0x01] 1 |}];
     count := 3; capacity := 3 |}.

(** * Proofs *)

(** ** Integers *)

Lemma to_uint8_small x : 0 ≤ x < 2 ^ 8 → to_uint8 x = x.
Proof. intros. unfold to_uint8. apply Z.mod_small. lia. Qed.

Lemma to_uint16_small x : 0 ≤ x < 2 ^ 16 → to_uint16 x = x.
Proof. intros. unfold to_uint16. apply Z.mod_small. lia. Qed.

Lemma to_uint32_small x : 0 ≤ x < 2 ^ 32 → to_uint32 x = x.
Proof. intros. unfold to_uint32. apply Z.mod_small. lia. Qed.

Lemma to_size_t_small x : 0 ≤ x < 2 ^ 64 → to_size_t x = x.
Proof. intros. unfold to_size_t. apply Z.mod_small. lia. Qed.

Lemma to_uint32_range x : 0 ≤ to_uint32 x < 2 ^ 32.
Proof. unfold to_uint32. apply Z.mod_pos_bound. lia. Qed.

(** A decidable property of the numbers below [n] is checked by running
    through them. *)
Lemma check_below (P : Z → bool) (n : Z) :
  forallb P (seqZ 0 n) = true → ∀ b, 0 ≤ b < n → P b = true.
Proof.
  intros Hall b Hb. rewrite forallb_forall in Hall. apply Hall.
  apply list_elem_of_In, elem_of_seqZ. lia.
Qed.

Lemma low7_land b : 0 ≤ b < 128 → Z.land b 0x7F = b ∧ Z.land b 0x80 = 0.
Proof.
  intros Hb.
  pose proof (check_below
    (λ b, (Z.land b 0x7F =? b) && (Z.land b 0x80 =? 0)) 128 eq_refl b Hb) as H.
  apply andb_prop in H as [H1 H2]. split; lia.
Qed.

Lemma continuation_land b :
  0 ≤ b < 128 →
  Z.land (Z.lor b 0x80) 0x7F = b ∧ Z.land (Z.lor b 0x80) 0x80 = 128
  ∧ 128 ≤ Z.lor b 0x80 < 256.
Proof.
  intros Hb.
  pose proof (check_below
    (λ b, (Z.land (Z.lor b 0x80) 0x7F =? b)
          && (Z.land (Z.lor b 0x80) 0x80 =? 128)
          && (128 <=? Z.lor b 0x80) && (Z.lor b 0x80 <? 256))
    128 eq_refl b Hb) as H.
  repeat (apply andb_prop in H as [H ?]). repeat split; lia.
Qed.

(** ** The outcome monad and arrays *)

Lemma bind_Ret {A B} (a : A) (k : A → outcome B) : (Ret a ≫= k) = k a.
Proof. reflexivity. Qed.

Lemma bind_is_Ret {A B} (m : outcome A) (k : A → outcome B) (b : B) :
  m ≫= k = Ret b → ∃ a, m = Ret a ∧ k a = Ret b.
Proof. destruct m; simpl; intros H; try discriminate. eauto. Qed.

Lemma load_lookup {A} (mem : list A) (i : nat) (x : A) :
  mem !! i = Some x → load mem (Z.of_nat i) = Ret x.
Proof.
  intros H. unfold load. rewrite Nat2Z.id, H.
  destruct (Z.leb_spec 0 (Z.of_nat i)); [done | lia].
Qed.

Lemma load_is_Ret {A} (mem : list A) (i : Z) (x : A) :
  load mem i = Ret x → 0 ≤ i ∧ mem !! Z.to_nat i = Some x.
Proof.
  unfold load. destruct (Z.leb_spec 0 i); [| discriminate].
  destruct (mem !! Z.to_nat i); [| discriminate]. intros [= ->]. done.
Qed.

Lemma load_in_range {A} (mem : list A) (i : Z) :
  0 ≤ i < Z.of_nat (length mem) → ∃ x, load mem i = Ret x ∧ mem !! Z.to_nat i = Some x.
Proof.
  intros Hi. destruct (lookup_lt_is_Some_2 mem (Z.to_nat i)) as [x Hx]; [lia |].
  exists x. split; [| done]. unfold load. rewrite Hx.
  destruct (Z.leb_spec 0 i); [done | lia].
Qed.

Lemma load_app_middle {A} (pre : list A) (x : A) (post : list A) (i : Z) :
  i = Z.of_nat (length pre) → load (pre ++ x :: post) i = Ret x.
Proof.
  intros ->. apply load_lookup. by rewrite list_lookup_middle.
Qed.

Lemma load_drop {A} (mem : list A) (n : nat) (i : Z) :
  0 ≤ i → load (drop n mem) i = load mem (Z.of_nat n + i).
Proof.
  intros Hi. unfold load. rewrite lookup_drop.
  replace (Z.to_nat (Z.of_nat n + i)) with (n + Z.to_nat i)%nat by lia.
  destruct (Z.leb_spec 0 i), (Z.leb_spec 0 (Z.of_nat n + i)); (done || lia).
Qed.

Lemma store_is_Ret {A} (mem mem' : list A) (i : Z) (x : A) :
  store mem i x = Ret mem' →
  0 ≤ i < Z.of_nat (length mem) ∧ mem' = <[Z.to_nat i := x]> mem.
Proof.
  unfold store.
  destruct (Z.leb_spec 0 i), (Z.ltb_spec i (Z.of_nat (length mem)));
    simpl; intros [= <-] || discriminate. done.
Qed.

(** Writing at the end of the part of the buffer that has been filled. *)
Lemma store_next {A} (filled : list A) (old : A) (free : list A) (i : Z) (x : A) :
  i = Z.of_nat (length filled) →
  store (filled ++ old :: free) i x = Ret ((filled ++ [x]) ++ free).
Proof.
  intros ->. unfold store.
  destruct (Z.leb_spec 0 (Z.of_nat (length filled))); [| lia].
  destruct (Z.ltb_spec (Z.of_nat (length filled))
              (Z.of_nat (length (filled ++ old :: free)))) as [_ | Hge].
  - simpl. rewrite Nat2Z.id, <- (Nat.add_0_r (length filled)), insert_app_r.
    simpl. by rewrite <- app_assoc.
  - rewrite length_app in Hge. simpl in Hge. lia.
Qed.

(** ** The Variable Byte Integer codec *)

Lemma vbi_bytes_length n v : (1 ≤ length (vbi_bytes n v) ≤ S n)%nat.
Proof.
  revert v. induction n as [| n IH]; intros v; simpl; [lia |].
  destruct (0 <? v / 128); simpl; [| lia]. specialize (IH (v / 128)). lia.
Qed.

Lemma pow128_bound (k : Z) : 0 ≤ k ≤ 4 → 0 < 128 ^ k ≤ 2 ^ 28.
Proof.
  intros Hk. split; [apply Z.pow_pos_nonneg; lia |].
  change (2 ^ 28) with (128 ^ 4). apply Z.pow_le_mono_r; lia.
Qed.

Lemma encode_loop_S fuel mem pBuffer v k :
  encode_loop (S fuel) mem pBuffer v k =
  let encodedByte := to_uint8 (v mod 128) in
  let v' := v / 128 in
  let encodedByte := if 0 <? v' then Z.lor encodedByte 0x80 else encodedByte in
  mem ← match pBuffer with
        | Some offset => store mem (offset + k) encodedByte
        | None => Ret mem
        end;
  if 0 <? v' then encode_loop fuel mem pBuffer v' (to_size_t (k + 1))
  else Ret (mem, to_size_t (k + 1)).
Proof. reflexivity. Qed.

Lemma decode_loop_S fuel pBuffer bufferSize k mult acc :
  decode_loop (S fuel) pBuffer bufferSize k mult acc =
  if k >=? bufferSize then Ret (0, acc)
  else
    encodedByte ← load pBuffer k;
    let acc' := to_uint32 (acc + to_uint32 (Z.land encodedByte 0x7F * mult)) in
    if 4 <? to_size_t (k + 1) then Ret (0, acc')
    else if negb (Z.land encodedByte 0x80 =? 0)
         then decode_loop fuel pBuffer bufferSize (to_size_t (k + 1))
                (to_uint32 (mult * 128)) acc'
         else Ret (to_size_t (k + 1), acc').
Proof. reflexivity. Qed.

Lemma encode_loop_vbi n : ∀ v filled free offset bytesWritten,
  0 ≤ v < 128 ^ (Z.of_nat n + 1) →
  offset + bytesWritten = Z.of_nat (length filled) →
  0 ≤ bytesWritten → bytesWritten + Z.of_nat n + 1 < 2 ^ 64 →
  (length (vbi_bytes n v) ≤ length free)%nat →
  encode_loop (S n) (filled ++ free) (Some offset) v bytesWritten
  = Ret ((filled ++ vbi_bytes n v) ++ drop (length (vbi_bytes n v)) free,
         bytesWritten + Z.of_nat (length (vbi_bytes n v))).
Proof.
  induction n as [| n IH]; intros v filled free offset k Hv Hoff Hk Hk' Hroom.
  - simpl in Hv, Hroom. destruct free as [| old free]; [simpl in Hroom; lia |].
    assert (v / 128 = 0) as Hq by (apply Z.div_small; lia).
    assert (v mod 128 = v) as Hr by (apply Z.mod_small; lia).
    rewrite encode_loop_S. cbn [vbi_bytes]. cbv zeta. rewrite Hq, Hr. cbn [Z.ltb Z.compare].
    rewrite (to_uint8_small v) by lia.
    rewrite (store_next filled old free); [| lia]. rewrite bind_Ret.
    rewrite to_size_t_small by lia. simpl. done.
  - pose proof (Z.mod_pos_bound v 128 ltac:(lia)) as Hr.
    pose proof (Z.div_mod v 128 ltac:(lia)) as Hdm.
    rewrite encode_loop_S. cbv zeta. rewrite (to_uint8_small (v mod 128)) by lia.
    cbn [vbi_bytes] in *.
    destruct (Z.ltb_spec 0 (v / 128)) as [Hq | Hq].
    + destruct free as [| old free]; [simpl in Hroom; lia |].
      rewrite (store_next filled old free); [| lia]. rewrite bind_Ret.
      rewrite to_size_t_small by lia.
      rewrite (IH (v / 128) (filled ++ [Z.lor (v mod 128) 128]) free offset (k + 1)).
      * f_equal. f_equal; [| rewrite length_cons; lia].
        by rewrite <- (app_assoc filled).
      * replace (Z.of_nat (S n) + 1) with (Z.succ (Z.of_nat n + 1)) in Hv by lia.
        rewrite Z.pow_succ_r in Hv by lia. split; [lia |].
        apply Z.div_lt_upper_bound; lia.
      * rewrite length_app. simpl. lia.
      * lia.
      * lia.
      * simpl in Hroom. lia.
    + destruct free as [| old free]; [simpl in Hroom; lia |].
      rewrite (store_next filled old free); [| lia]. rewrite bind_Ret.
      rewrite to_size_t_small by lia. simpl. done.
Qed.

Lemma decode_loop_vbi n : ∀ v pre rest bufferSize fuel acc,
  0 ≤ v < 128 ^ (Z.of_nat n + 1) →
  (length pre + n + 1 ≤ 4)%nat →
  0 ≤ acc → acc + v * 128 ^ Z.of_nat (length pre) < 2 ^ 32 →
  (n < fuel)%nat →
  Z.of_nat (length pre + length (vbi_bytes n v)) ≤ bufferSize →
  decode_loop fuel (pre ++ vbi_bytes n v ++ rest) bufferSize
    (Z.of_nat (length pre)) (128 ^ Z.of_nat (length pre)) acc
  = Ret (Z.of_nat (length pre + length (vbi_bytes n v)),
         acc + v * 128 ^ Z.of_nat (length pre)).
Proof.
  induction n as [| n IH]; intros v pre rest size fuel acc Hv Hlen Hacc Hsum Hfuel Hsize;
    (destruct fuel as [| fuel]; [lia |]);
    pose proof (pow128_bound (Z.of_nat (length pre)) ltac:(lia)) as Hpow;
    pose proof (Z.mod_pos_bound v 128 ltac:(lia)) as Hr;
    pose proof (Z.div_mod v 128 ltac:(lia)) as Hdm.
  - simpl in Hv. cbn [vbi_bytes] in *.
    assert (v mod 128 = v) as Hvr by (apply Z.mod_small; lia). rewrite Hvr in *.
    rewrite decode_loop_S.
    destruct (Z.geb_spec (Z.of_nat (length pre)) size) as [Hge | _];
      [simpl in Hsize; lia |].
    cbn [app]. rewrite load_app_middle; [| done]. rewrite bind_Ret.
    destruct (low7_land v ltac:(lia)) as [-> ->].
    rewrite (to_uint32_small (v * _)) by nia.
    rewrite to_uint32_small by nia.
    rewrite to_size_t_small by lia.
    destruct (Z.ltb_spec 4 (Z.of_nat (length pre) + 1)); [lia |].
    simpl. do 2 f_equal. lia.
  - cbn [vbi_bytes] in *. rewrite decode_loop_S.
    assert (0 ≤ v / 128) as Hq0 by (apply Z.div_pos; lia).
    destruct (Z.ltb_spec 0 (v / 128)) as [Hq | Hq].
    + rewrite length_cons in Hsize.
      destruct (Z.geb_spec (Z.of_nat (length pre)) size) as [Hge | _]; [lia |].
      cbn [app]. rewrite load_app_middle; [| done]. rewrite bind_Ret.
      destruct (continuation_land (v mod 128) ltac:(lia)) as (-> & -> & _).
      rewrite (to_uint32_small (v mod 128 * _)) by nia.
      rewrite to_uint32_small by nia.
      rewrite to_size_t_small by lia.
      destruct (Z.ltb_spec 4 (Z.of_nat (length pre) + 1)); [lia |].
      cbn [Z.eqb negb].
      assert (128 ^ Z.of_nat (length pre) * 128
              = 128 ^ Z.of_nat (length (pre ++ [Z.lor (v mod 128) 128]))) as Hm.
      { rewrite length_app. simpl. rewrite Nat2Z.inj_add. simpl.
        rewrite Z.pow_add_r by lia. lia. }
      rewrite to_uint32_small
        by (rewrite Hm; pose proof (pow128_bound
              (Z.of_nat (length (pre ++ [Z.lor (v mod 128) 128])))
              ltac:(rewrite length_app; simpl; lia)); lia).
      rewrite Hm.
      replace (Z.of_nat (length pre) + 1)
        with (Z.of_nat (length (pre ++ [Z.lor (v mod 128) 128])))
        by (rewrite length_app; simpl; lia).
      replace (pre ++ Z.lor (v mod 128) 128 :: vbi_bytes n (v / 128) ++ rest)
        with ((pre ++ [Z.lor (v mod 128) 128]) ++ vbi_bytes n (v / 128) ++ rest)
        by (by rewrite <- app_assoc).
      rewrite IH.
      * f_equal. f_equal; [rewrite length_app, length_cons; simpl; lia |].
        rewrite <- Hm. nia.
      * replace (Z.of_nat (S n) + 1) with (Z.succ (Z.of_nat n + 1)) in Hv by lia.
        rewrite Z.pow_succ_r in Hv by lia. split; [lia |].
        apply Z.div_lt_upper_bound; lia.
      * rewrite length_app. simpl. lia.
      * nia.
      * rewrite <- Hm. nia.
      * lia.
      * rewrite length_app. simpl. lia.
    + assert (v / 128 = 0) as Hq' by lia.
      assert (v mod 128 = v) as Hvr by lia. rewrite Hvr in *.
      destruct (Z.geb_spec (Z.of_nat (length pre)) size) as [Hge | _];
        [simpl in Hsize; lia |].
      cbn [app]. rewrite load_app_middle; [| done]. rewrite bind_Ret.
      destruct (low7_land v ltac:(lia)) as [-> ->].
      rewrite (to_uint32_small (v * _)) by nia.
      rewrite to_uint32_small by nia.
      rewrite to_size_t_small by lia.
      destruct (Z.ltb_spec 4 (Z.of_nat (length pre) + 1)); [lia |].
      simpl. do 2 f_equal. lia.
Qed.

Lemma to_uint32_lt_pow x : 0 ≤ to_uint32 x < 128 ^ (Z.of_nat 4 + 1).
Proof. pose proof (to_uint32_range x). simpl. lia. Qed.

(** encodeVariableByteInteger appends the Variable Byte Integer of its
    argument to the filled part of the buffer. *)
Lemma encode_appends (filled free : list Z) (v : Z) :
  (length (vbi_bytes 4 (to_uint32 v)) ≤ length free)%nat →
  encodeVariableByteInteger (filled ++ free) (Some (Z.of_nat (length filled))) v
  = Ret ((filled ++ vbi_bytes 4 (to_uint32 v))
           ++ drop (length (vbi_bytes 4 (to_uint32 v))) free,
         Z.of_nat (length (vbi_bytes 4 (to_uint32 v)))).
Proof.
  intros Hroom. unfold encodeVariableByteInteger.
  rewrite (encode_loop_vbi 4 (to_uint32 v) filled free (Z.of_nat (length filled)) 0);
    [done | apply to_uint32_lt_pow | lia | lia | simpl; lia | done].
Qed.

Lemma vbi_bytes_S n v :
  vbi_bytes (S n) v =
  if 0 <? v / 128 then Z.lor (v mod 128) 0x80 :: vbi_bytes n (v / 128)
  else [v mod 128].
Proof. reflexivity. Qed.

Lemma vbi_bytes_short v : 0 ≤ v ≤ VBI_MAX → vbi_bytes 4 v = vbi_bytes 3 v.
Proof.
  unfold VBI_MAX. intros Hv.
  assert (∀ n w, (0 ≤ w < 128 ^ (Z.of_nat n + 1)) → vbi_bytes (S n) w = vbi_bytes n w)
    as Hshort.
  { induction n as [| n IH]; intros w Hw.
    - simpl in Hw. cbn [vbi_bytes].
      rewrite (Z.div_small w 128) by lia. done.
    - rewrite (vbi_bytes_S (S n) w), (vbi_bytes_S n w).
      destruct (0 <? w / 128); [| done].
      rewrite IH; [done |].
      replace (Z.of_nat (S n) + 1) with (Z.succ (Z.of_nat n + 1)) in Hw by lia.
      rewrite Z.pow_succ_r in Hw by lia.
      split; [apply Z.div_pos; lia | apply Z.div_lt_upper_bound; lia]. }
  apply Hshort. simpl. lia.
Qed.

(** MQTT5_DecodeVariableByteInteger reads back a Variable Byte Integer of
    at most four bytes. *)
Lemma decode_vbi (v : Z) (rest : list Z) (bufferSize : Z) :
  0 ≤ v ≤ VBI_MAX →
  Z.of_nat (length (vbi_bytes 3 v)) ≤ bufferSize →
  MQTT5_DecodeVariableByteInteger (vbi_bytes 3 v ++ rest) bufferSize
  = Ret (Z.of_nat (length (vbi_bytes 3 v)), v).
Proof.
  unfold VBI_MAX. intros Hv Hsize. unfold MQTT5_DecodeVariableByteInteger.
  transitivity
    (Ret (A := Z * Z) (Z.of_nat (length (@nil Z) + length (vbi_bytes 3 v)),
          0 + v * 128 ^ Z.of_nat (length (@nil Z)))).
  - apply (decode_loop_vbi 3 v [] rest bufferSize 5 0);
      change (128 ^ Z.of_nat (length (@nil Z))) with 1;
      change (128 ^ (Z.of_nat 3 + 1)) with 268435456;
      change (length (@nil Z)) with 0%nat; lia.
  - change (128 ^ Z.of_nat (length (@nil Z))) with 1.
    change (length (@nil Z)) with 0%nat. do 2 f_equal; lia.
Qed.

(** Without a terminating byte among the first four, or among all bytes of
    a shorter input, decoding returns 0. *)
Lemma decode_loop_unterminated (pBuffer : list Z) (bufferSize : Z) :
  bufferSize ≤ Z.of_nat (length pBuffer) →
  (∀ i b, 0 ≤ i < Z.min bufferSize 4 → pBuffer !! Z.to_nat i = Some b → continues b) →
  ∀ fuel k mult acc,
    0 ≤ k ≤ 4 → 5 - k ≤ Z.of_nat fuel →
    ∃ v, decode_loop fuel pBuffer bufferSize k mult acc = Ret (0, v).
Proof.
  intros Hsize Hcont. induction fuel as [| fuel IH]; intros k mult acc Hk Hfuel; [lia |].
  rewrite decode_loop_S.
  destruct (Z.geb_spec k bufferSize) as [Hge | Hlt]; [eauto |].
  destruct (load_in_range pBuffer k ltac:(lia)) as (b & -> & Hb). rewrite bind_Ret.
  rewrite to_size_t_small by lia.
  destruct (Z.ltb_spec 4 (k + 1)) as [H4 | H4]; [eauto |].
  assert (continues b) as Hc by (apply (Hcont k); [lia | done]).
  unfold continues in Hc. destruct (Z.eqb_spec (Z.land b 128) 0) as [? | _]; [done |].
  simpl. apply IH; lia.
Qed.

(** A count other than 0 is the position after the first byte without the
    continuation bit, within the four bytes and the buffer. *)
Lemma decode_loop_count (pBuffer : list Z) (bufferSize : Z) :
  ∀ fuel k mult acc n v,
    0 ≤ k ≤ 4 →
    decode_loop fuel pBuffer bufferSize k mult acc = Ret (n, v) →
    n ≠ 0 →
    k < n ≤ 4 ∧ n ≤ bufferSize
    ∧ ∃ b, pBuffer !! Z.to_nat (n - 1) = Some b ∧ ¬ continues b.
Proof.
  induction fuel as [| fuel IH]; intros k mult acc n v Hk Hrun Hn; [done |].
  rewrite decode_loop_S in Hrun.
  destruct (Z.geb_spec k bufferSize) as [Hge | Hlt]; [by inversion Hrun |].
  apply bind_is_Ret in Hrun as (b & Hload & Hrun).
  apply load_is_Ret in Hload as [_ Hb].
  rewrite to_size_t_small in Hrun by lia.
  destruct (Z.ltb_spec 4 (k + 1)) as [H4 | H4]; [by inversion Hrun |].
  destruct (Z.eqb_spec (Z.land b 128) 0) as [Hend | Hcont]; simpl in Hrun.
  - inversion Hrun; subst n v. repeat split; [lia.. |].
    exists b. replace (k + 1 - 1) with k by lia. split; [done |].
    unfold continues. by intros [].
  - apply IH in Hrun as (? & ? & ?); [| lia | done]. repeat split; (lia || done).
Qed.

(** C5.  Encoding a value of at most 268435455 with
    encodeVariableByteInteger and decoding the bytes it wrote with
    MQTT5_DecodeVariableByteInteger gives the value back, and the count of
    bytes read is the count of bytes written, between 1 and 4.  The byte of
    127 is 0x7F, the bytes of 128 are 0x80 0x01, 16383 takes two bytes and
    16384 three. *)
Theorem vbi_round_trip (v : Z) (mem : list Z) (offset : Z) :
  0 ≤ v ≤ VBI_MAX →
  0 ≤ offset →
  offset + 4 ≤ Z.of_nat (length mem) →
  (∃ mem' n,
     encodeVariableByteInteger mem (Some offset) v = Ret (mem', n)
     ∧ 1 ≤ n ≤ 4
     ∧ MQTT5_DecodeVariableByteInteger
         (take (Z.to_nat n) (drop (Z.to_nat offset) mem')) n = Ret (n, v))
  ∧ encodeVariableByteInteger [0; 0; 0; 0] (Some 0) 127 = Ret ([0x7F; 0; 0; 0], 1)
  ∧ encodeVariableByteInteger [0; 0; 0; 0] (Some 0) 128 = Ret ([0x80; 0x01; 0; 0], 2)
  ∧ encodeVariableByteInteger [0; 0; 0; 0] (Some 0) 16383 = Ret ([0xFF; 0x7F; 0; 0], 2)
  ∧ encodeVariableByteInteger [0; 0; 0; 0] (Some 0) 16384
    = Ret ([0x80; 0x80; 0x01; 0], 3).
Proof.
  intros Hv Hoff Hroom. split; [| by vm_compute].
  assert (to_uint32 v = v) as Hv32 by (apply to_uint32_small; unfold VBI_MAX in Hv; lia).
  pose proof (vbi_bytes_length 3 v) as Hlen.
  set (filled := take (Z.to_nat offset) mem).
  set (free := drop (Z.to_nat offset) mem).
  assert (length filled = Z.to_nat offset) as Hfilled
    by (unfold filled; rewrite length_take; lia).
  assert (length free = (length mem - Z.to_nat offset)%nat) as Hfree
    by (unfold free; by rewrite length_drop).
  pose proof (encode_appends filled free v) as Henc.
  rewrite Hv32, vbi_bytes_short in Henc by done.
  unfold filled at 1, free at 2 in Henc. rewrite take_drop in Henc.
  rewrite Hfilled, Z2Nat.id in Henc by lia.
  eexists _, _. split; [apply Henc; lia |]. split; [lia |].
  rewrite Nat2Z.id, <- app_assoc, <- Hfilled, drop_app_length, take_app_length.
  rewrite <- (app_nil_r (vbi_bytes 3 v)) at 1.
  apply decode_vbi; [done | lia].
Qed.

Lemma vbi_round_trip_witness :
  (0 ≤ 300 ≤ VBI_MAX ∧ 0 ≤ 1 ∧ 1 + 4 ≤ Z.of_nat (length [9; 0; 0; 0; 0]))
  ∧ ∃ mem' n,
      encodeVariableByteInteger [9; 0; 0; 0; 0] (Some 1) 300 = Ret (mem', n)
      ∧ 1 ≤ n ≤ 4
      ∧ MQTT5_DecodeVariableByteInteger
          (take (Z.to_nat n) (drop (Z.to_nat 1) mem')) n = Ret (n, 300).
Proof.
  assert (0 ≤ 300 ≤ VBI_MAX ∧ 0 ≤ 1 ∧ 1 + 4 ≤ Z.of_nat (length [9; 0; 0; 0; 0]))
    as H by (unfold VBI_MAX; simpl; lia).
  split; [exact H |].
  exact (proj1 (vbi_round_trip 300 [9; 0; 0; 0; 0] 1
                  (proj1 H) (proj1 (proj2 H)) (proj2 (proj2 H)))).
Defined.

(** C6.  MQTT5_DecodeVariableByteInteger returns 0, its error signal, when
    no byte without the continuation bit is found before the input ends or
    within the first four bytes; five continuation bytes are such an
    input.  A successful call never returns 0: its count is at least 1. *)
Theorem decode_rejects_unterminated (pBuffer : list Z) (bufferSize : Z) :
  0 ≤ bufferSize ≤ Z.of_nat (length pBuffer) →
  (∀ i b, 0 ≤ i < Z.min bufferSize 4 →
          pBuffer !! Z.to_nat i = Some b → continues b) →
  (∃ v, MQTT5_DecodeVariableByteInteger pBuffer bufferSize = Ret (0, v))
  ∧ (∃ v, MQTT5_DecodeVariableByteInteger [0x80; 0x80; 0x80; 0x80; 0x80] 5
          = Ret (0, v)).
Proof.
  intros Hsize Hcont. split; [| by eexists; vm_compute].
  unfold MQTT5_DecodeVariableByteInteger.
  apply decode_loop_unterminated; (done || lia).
Qed.

Lemma five_continuation_bytes (i b : Z) :
  0 ≤ i < Z.min 5 4 →
  [0xFF; 0xFF; 0xFF; 0xFF; 0xFF] !! Z.to_nat i = Some b → continues b.
Proof.
  intros Hi.
  assert (i = 0 ∨ i = 1 ∨ i = 2 ∨ i = 3) as [-> | [-> | [-> | ->]]] by lia;
    intros [= <-]; by vm_compute.
Defined.

Lemma decode_rejects_unterminated_witness :
  0 ≤ 5 ≤ Z.of_nat (length [0xFF; 0xFF; 0xFF; 0xFF; 0xFF])
  ∧ ∃ v, MQTT5_DecodeVariableByteInteger [0xFF; 0xFF; 0xFF; 0xFF; 0xFF] 5
         = Ret (0, v).
Proof.
  assert (0 ≤ 5 ≤ Z.of_nat (length [0xFF; 0xFF; 0xFF; 0xFF; 0xFF])) as H
    by (simpl; lia).
  split; [exact H |].
  exact (proj1 (decode_rejects_unterminated [0xFF; 0xFF; 0xFF; 0xFF; 0xFF] 5
                  H five_continuation_bytes)).
Defined.

(** ** The collection *)

(** C7.  MQTT5_AddProperty on a collection whose count equals its capacity
    returns MQTTNoMemory and leaves the collection as it was: the storage,
    the count and the capacity are the ones before the call. *)
Theorem add_property_full (p : MQTT5Properties_t) (property : MQTT5Property_t) :
  count p = capacity p →
  MQTT5_AddProperty (Some p) (Some property) = Ret (MQTTNoMemory, Some p).
Proof.
  intros Hfull. unfold MQTT5_AddProperty.
  destruct (Z.geb_spec (count p) (capacity p)); [done | lia].
Qed.

Lemma add_property_full_witness :
  count full_collection = capacity full_collection
  ∧ MQTT5_AddProperty (Some full_collection) (Some session_expiry_3600)
    = Ret (MQTTNoMemory, Some full_collection).
Proof.
  split; [reflexivity |].
  exact (add_property_full full_collection session_expiry_3600 eq_refl).
Defined.

Lemma GetProperty_loop_at_not_found (slots : list MQTT5Property_t) (type_ : Z)
    (status : MQTTStatus_t) (pProperty : output_pointer) :
  ∀ n k,
    (k + n ≤ length slots)%nat →
    (∀ j e, (k ≤ j < k + n)%nat → slots !! j = Some e → type e ≠ type_) →
    GetProperty_loop_at n slots (Z.of_nat k) type_ status pProperty
    = Ret (status, slots, pProperty).
Proof.
  induction n as [| n IH]; intros k Hlen Hne; [done |].
  cbn [GetProperty_loop_at].
  destruct (lookup_lt_is_Some_2 slots k) as [e He]; [lia |].
  rewrite (load_lookup _ _ _ He), bind_Ret.
  destruct (Z.eqb_spec (type e) type_) as [Heq | _].
  - exfalso. apply (Hne k e); (lia || done).
  - replace (Z.of_nat k + 1) with (Z.of_nat (S k)) by lia.
    apply IH; [lia |]. intros j e' Hj. apply Hne. lia.
Qed.

(** With the output record apart from the storage the loop is the one of
    [GetProperty_loop], and the storage is the one before. *)
Lemma GetProperty_loop_at_apart (slots : list MQTT5Property_t) (type_ : Z)
    (status : MQTTStatus_t) (record : MQTT5Property_t) :
  ∀ n i,
    GetProperty_loop_at n slots i type_ status (Apart record)
    = '(status, record) ← GetProperty_loop n slots i type_ status record;
      Ret (status, slots, Apart record).
Proof.
  induction n as [| n IH]; intros i; [done |].
  cbn [GetProperty_loop_at GetProperty_loop].
  destruct (load slots i) as [e | |]; [| done..]. rewrite !bind_Ret.
  destruct (type e =? type_); [done | apply IH].
Qed.

(** [MQTT5_GetProperty] is [MQTT5_GetProperty_at] for an output record
    apart from the storage. *)
Lemma GetProperty_at_apart (p : MQTT5Properties_t) (type_ : Z)
    (record : MQTT5Property_t) :
  MQTT5_GetProperty_at (Some p) type_ (Some (Apart record))
  = '(status, record) ← MQTT5_GetProperty (Some p) type_ (Some record);
    Ret (status, Some p, option_map Apart record).
Proof.
  unfold MQTT5_GetProperty_at, MQTT5_GetProperty.
  rewrite GetProperty_loop_at_apart.
  destruct (GetProperty_loop _ _ _ _ _ _) as [[status record'] | |]; [| done..].
  rewrite !bind_Ret. by destruct p.
Qed.

Lemma GetProperty_loop_returns (slots : list MQTT5Property_t) (type_ : Z)
    (status : MQTTStatus_t) (record : MQTT5Property_t) :
  ∀ n k,
    (k + n ≤ length slots)%nat →
    ∃ status' record',
      GetProperty_loop n slots (Z.of_nat k) type_ status record = Ret (status', record').
Proof.
  induction n as [| n IH]; intros k Hlen; [by eexists _, _ |].
  cbn [GetProperty_loop].
  destruct (lookup_lt_is_Some_2 slots k) as [e He]; [lia |].
  rewrite (load_lookup _ _ _ He), bind_Ret.
  destruct (type e =? type_); [by eexists _, _ |].
  replace (Z.of_nat k + 1) with (Z.of_nat (S k)) by lia. apply IH. lia.
Qed.

(** C9.  MQTT5_GetProperty on a collection without an entry of the
    requested type returns MQTTBadParameter, the status for a type that is
    not found, and writes nothing: the output record and the collection
    are the ones before the call, wherever the output pointer points, also
    when it points to a slot of the storage of the collection.  And a call
    whose output record is apart from the storage, or that has no output
    pointer, leaves every collection as it was, whether it finds an entry
    or not.  (A call that finds an entry assigns it through the output
    pointer, and so to a slot of the storage when the pointer points
    there.) *)
Theorem get_property_frame (p : MQTT5Properties_t) (type_ : Z)
    (pProperty : output_pointer) :
  count p ≤ Z.of_nat (length (pProperties p)) →
  (∀ e, e ∈ entries p → type e ≠ type_) →
  MQTT5_GetProperty_at (Some p) type_ (Some pProperty)
  = Ret (MQTTBadParameter, Some p, Some pProperty)
  ∧ (∀ (q : MQTT5Properties_t) (type' : Z) (record : MQTT5Property_t),
       count q ≤ Z.of_nat (length (pProperties q)) →
       ∃ status record',
         MQTT5_GetProperty_at (Some q) type' (Some (Apart record))
         = Ret (status, Some q, Some (Apart record')))
  ∧ (∀ (q : MQTT5Properties_t) (type' : Z),
       MQTT5_GetProperty_at (Some q) type' None = Ret (MQTTBadParameter, Some q, None)).
Proof.
  intros Hcount Hne. split; [| split].
  - unfold MQTT5_GetProperty_at.
    rewrite (GetProperty_loop_at_not_found _ _ _ _ _ 0%nat); [by destruct p | lia |].
    intros j e Hj He. apply Hne. unfold entries.
    apply list_elem_of_lookup. exists j. rewrite lookup_take_lt; [done | lia].
  - intros q type' record Hq. rewrite GetProperty_at_apart. unfold MQTT5_GetProperty.
    destruct (GetProperty_loop_returns (pProperties q) type' MQTTBadParameter record
                (Z.to_nat (count q)) 0%nat ltac:(lia)) as (status & record' & Hrun).
    change (Z.of_nat 0) with 0 in Hrun. rewrite Hrun. by exists status, record'.
  - done.
Qed.

(** ** Deserialization *)

(** What a call of MQTT5_AddProperty with both arguments present does. *)
Lemma AddProperty_inv (p : MQTT5Properties_t) (x : MQTT5Property_t) st op :
  MQTT5_AddProperty (Some p) (Some x) = Ret (st, op) →
  (st = MQTTNoMemory ∧ op = Some p ∧ capacity p ≤ count p)
  ∨ (st = MQTTSuccess
     ∧ 0 ≤ count p < capacity p
     ∧ count p < Z.of_nat (length (pProperties p))
     ∧ op = Some {| pProperties := <[Z.to_nat (count p) := x]> (pProperties p);
                    count := to_size_t (count p + 1);
                    capacity := capacity p |}).
Proof.
  unfold MQTT5_AddProperty.
  destruct (Z.geb_spec (count p) (capacity p)) as [Hfull | Hroom].
  - intros [= <- <-]. left. done.
  - intros H. apply bind_is_Ret in H as (slots & Hstore & [= <- <-]).
    apply store_is_Ret in Hstore as [Hrange ->]. right. repeat split; (lia || done).
Qed.

Lemma entries_after_add (p : MQTT5Properties_t) (x : MQTT5Property_t) :
  0 ≤ count p < capacity p →
  capacity p < 2 ^ 64 →
  count p < Z.of_nat (length (pProperties p)) →
  entries {| pProperties := <[Z.to_nat (count p) := x]> (pProperties p);
             count := to_size_t (count p + 1);
             capacity := capacity p |}
  = entries p ++ [x].
Proof.
  intros Hc Hcap Hlen. unfold entries. cbn [pProperties count].
  rewrite to_size_t_small by lia.
  replace (Z.to_nat (count p + 1)) with (S (Z.to_nat (count p))) by lia.
  rewrite (take_S_r _ _ x) by (apply list_lookup_insert_eq; lia).
  by rewrite take_insert_ge.
Qed.

Lemma load_uint16_range pBuffer index v :
  load_uint16 pBuffer index = Ret v → 0 ≤ v < 2 ^ 16.
Proof.
  unfold load_uint16. intros H.
  apply bind_is_Ret in H as (hi & _ & H). apply bind_is_Ret in H as (lo & _ & H).
  injection H as <-. unfold to_uint16. apply Z.mod_pos_bound. lia.
Qed.

Lemma decode_count_range pBuffer bufferSize n v :
  MQTT5_DecodeVariableByteInteger pBuffer bufferSize = Ret (n, v) → 0 ≤ n ≤ 4.
Proof.
  intros H. destruct (decide (n = 0)) as [-> | Hn]; [lia |].
  apply decode_loop_count in H as (? & ? & ?); [lia | lia | done].
Qed.

(** The [switch] leaves [index] where it is or moves it forward. *)
Lemma read_value_advances pBuffer size type_ index vbiLength written index' vbiLength' :
  read_value pBuffer size type_ index vbiLength = Ret (written, index', vbiLength') →
  0 ≤ index ≤ 2 ^ 63 →
  index ≤ index'.
Proof.
  unfold read_value. intros H Hi.
  destruct (switch type_) as [[] |].
  - apply bind_is_Ret in H as (b & _ & [= _ <- _]).
    rewrite to_size_t_small; lia.
  - apply bind_is_Ret in H as (v & _ & [= _ <- _]).
    rewrite to_size_t_small; lia.
  - apply bind_is_Ret in H as (v & _ & [= _ <- _]).
    rewrite to_size_t_small; lia.
  - apply bind_is_Ret in H as (n & Hn & [= _ <- _]).
    apply load_uint16_range in Hn.
    rewrite (to_size_t_small (index + 2)) by lia. rewrite to_size_t_small; lia.
  - apply bind_is_Ret in H as (n & Hn & [= _ <- _]).
    apply load_uint16_range in Hn.
    rewrite (to_size_t_small (index + 2)) by lia. rewrite to_size_t_small; lia.
  - apply bind_is_Ret in H as (kn & Hkn & H).
    apply bind_is_Ret in H as (wn & Hwn & [= _ <- _]).
    apply load_uint16_range in Hkn, Hwn.
    rewrite (to_size_t_small (index + 2)) by lia.
    rewrite (to_size_t_small (index + 2 + kn)) by lia.
    rewrite (to_size_t_small (index + 2 + kn + 2)) by lia.
    rewrite to_size_t_small; lia.
  - apply bind_is_Ret in H as ([n v] & Hdec & H).
    apply decode_count_range in Hdec.
    destruct (n =? 0); injection H as _ <- _; [lia |].
    rewrite to_size_t_small; lia.
  - injection H as _ <- _. lia.
Qed.

(** The loop of MQTT5_DeserializeProperties on a buffer [pBuffer] of
    [size] bytes with the declared length [propertiesLength]. *)
Section DeserializationLoop.

Context (pBuffer : list Z) (size propertiesLength : Z).

Lemma deserialize_loop_S fuel l :
  deserialize_loop (S fuel) pBuffer size propertiesLength l =
  if loop_condition size propertiesLength l then
    l ← loop_body pBuffer size l;
    deserialize_loop fuel pBuffer size propertiesLength l
  else Ret l.
Proof. reflexivity. Qed.

Lemma loop_condition_true l :
  loop_condition size propertiesLength l = true →
  l_index l < size
  ∧ l_index l < to_size_t (l_vbiLength l + propertiesLength)
  ∧ l_status l = MQTTSuccess.
Proof.
  unfold loop_condition. intros H.
  apply andb_prop in H as [H Hs]. apply andb_prop in H as [H1 H2].
  apply bool_decide_eq_true in Hs. repeat split; (lia || done).
Qed.

Lemma loop_condition_status l :
  l_status l ≠ MQTTSuccess → loop_condition size propertiesLength l = false.
Proof.
  intros Hs. unfold loop_condition.
  rewrite (bool_decide_eq_false_2 _ Hs). by rewrite andb_false_r.
Qed.

(** What one round of the loop does. *)
Lemma loop_body_inv l l' :
  loop_body pBuffer size l = Ret l' →
  ∃ type_ written,
    load pBuffer (l_index l) = Ret type_
    ∧ read_value pBuffer size type_ (to_size_t (l_index l + 1)) (l_vbiLength l)
      = Ret (written, l_index l', l_vbiLength l')
    ∧ match written with
      | None => l_status l' = MQTTBadParameter ∧ l_properties l' = l_properties l
      | Some value_ =>
          ∃ op,
            MQTT5_AddProperty (Some (l_properties l))
              (Some {| type := type_; value := value_ |}) = Ret (l_status l', op)
            ∧ l_properties l' = default (l_properties l) op
      end.
Proof.
  unfold loop_body. intros H.
  apply bind_is_Ret in H as (type_ & Hload & H).
  apply bind_is_Ret in H as ([[written index] vbiLength] & Hread & H).
  exists type_, written. split; [done |].
  destruct written as [value_ |].
  - apply bind_is_Ret in H as ([st op] & Hadd & [= <-]). cbn. eauto.
  - injection H as <-. cbn. done.
Qed.

Lemma rounds_snoc l l' l'' :
  rounds pBuffer size propertiesLength l l' →
  loop_condition size propertiesLength l' = true →
  loop_body pBuffer size l' = Ret l'' →
  rounds pBuffer size propertiesLength l l''.
Proof.
  induction 1 as [l | l l1 l2 Hc Hb _ IH]; intros Hc' Hb'.
  - eapply rounds_step; [done.. | apply rounds_refl].
  - eapply rounds_step; [done.. | by apply IH].
Qed.

Lemma deserialize_loop_rounds :
  ∀ fuel l l',
    deserialize_loop fuel pBuffer size propertiesLength l = Ret l' →
    rounds pBuffer size propertiesLength l l'
    ∧ loop_condition size propertiesLength l' = false.
Proof.
  induction fuel as [| fuel IH]; intros l l' Hrun; [done |].
  rewrite deserialize_loop_S in Hrun.
  destruct (loop_condition size propertiesLength l) eqn:Hc.
  - apply bind_is_Ret in Hrun as (l1 & Hb & Hrun).
    apply IH in Hrun as [Hr Hend]. split; [| done]. by eapply rounds_step.
  - injection Hrun as <-. split; [apply rounds_refl | done].
Qed.

Lemma rounds_stopped l l' :
  rounds pBuffer size propertiesLength l l' →
  loop_condition size propertiesLength l = false → l' = l.
Proof. destruct 1 as [| l l1 l2 Hc]; [done | congruence]. Qed.

(** The properties a run of the loop appends are the ones on the wire, and
    the entries there were stay. *)
Lemma rounds_append l l' :
  rounds pBuffer size propertiesLength l l' →
  capacity (l_properties l) < 2 ^ 64 →
  ∃ parsed,
    wire_sequence pBuffer size (l_index l) (l_vbiLength l) parsed
    ∧ entries (l_properties l') = entries (l_properties l) ++ parsed
    ∧ count (l_properties l') = count (l_properties l) + Z.of_nat (length parsed)
    ∧ capacity (l_properties l') = capacity (l_properties l).
Proof.
  assert (∀ l0 : locals, ∃ parsed,
            wire_sequence pBuffer size (l_index l0) (l_vbiLength l0) parsed
            ∧ entries (l_properties l0) = entries (l_properties l0) ++ parsed
            ∧ count (l_properties l0)
              = count (l_properties l0) + Z.of_nat (length parsed)
            ∧ capacity (l_properties l0) = capacity (l_properties l0)) as Hnone.
  { intros l0. exists []. rewrite app_nil_r.
    repeat split; [constructor | simpl; lia]. }
  induction 1 as [l | l l1 l2 Hc Hb Hr IH]; intros Hcap; [apply Hnone |].
  apply loop_body_inv in Hb as (type_ & written & Hload & Hread & Hw).
  destruct written as [value_ |].
  - destruct Hw as (op & Hadd & Hprops).
    apply AddProperty_inv in Hadd as [(Hst & -> & _) | (_ & Hc1 & Hlen & ->)].
    + (* the collection is full: the loop ends here *)
      assert (l2 = l1) as ->
        by (apply (rounds_stopped _ _ Hr), loop_condition_status; congruence).
      simpl in Hprops. rewrite Hprops. apply Hnone.
    + simpl in Hprops.
      destruct IH as (parsed & Hwire & Hentries & Hcount & Hcapacity);
        [by rewrite Hprops |].
      exists ({| type := type_; value := value_ |} :: parsed).
      rewrite Hprops in Hentries, Hcount, Hcapacity.
      rewrite entries_after_add in Hentries by done.
      cbn [count capacity] in Hcount, Hcapacity.
      rewrite to_size_t_small in Hcount by lia.
      repeat split.
      * by eapply wire_cons.
      * by rewrite Hentries, <- app_assoc.
      * rewrite Hcount, length_cons. lia.
      * done.
  - (* the switch has set MQTTBadParameter: the loop ends here *)
    destruct Hw as [Hst Hprops].
    assert (l2 = l1) as ->
      by (apply (rounds_stopped _ _ Hr), loop_condition_status; congruence).
    rewrite Hprops. apply Hnone.
Qed.

(** Every round moves [index] forward. *)
Lemma loop_body_advances l l' :
  loop_body pBuffer size l = Ret l' →
  l_index l < PTRDIFF_MAX →
  l_index l < l_index l'.
Proof.
  unfold PTRDIFF_MAX. intros Hb Hi.
  apply loop_body_inv in Hb as (type_ & written & Hload & Hread & _).
  apply load_is_Ret in Hload as [Hi0 _].
  rewrite to_size_t_small in Hread by lia.
  apply read_value_advances in Hread; lia.
Qed.

(** [size - index] rounds and the test that ends the loop are fuel enough. *)
Lemma rounds_fuel l l' :
  size ≤ PTRDIFF_MAX →
  rounds pBuffer size propertiesLength l l' →
  loop_condition size propertiesLength l' = false →
  ∀ fuel, (Z.to_nat (size - l_index l) < fuel)%nat →
    deserialize_loop fuel pBuffer size propertiesLength l = Ret l'.
Proof.
  intros Hsize. induction 1 as [l | l l1 l2 Hc Hb Hr IH]; intros Hend fuel Hfuel;
    (destruct fuel as [| fuel]; [lia |]); rewrite deserialize_loop_S.
  - by rewrite Hend.
  - rewrite Hc, Hb, bind_Ret.
    apply loop_condition_true in Hc as (Hi & _).
    apply loop_body_advances in Hb; [| lia].
    apply IH; [done | lia].
Qed.

End DeserializationLoop.

(** C8.  When the loop of MQTT5_DeserializeProperties comes to an
    identifier byte that is no known property type, the call returns
    MQTTBadParameter: the byte is not skipped, no later byte is parsed, and
    the collection holds what had been appended before that byte. *)
Theorem unknown_identifier_aborts (p : MQTT5Properties_t) (pBuffer : list Z)
    (size vbiLength propertiesLength : Z) (l : locals) (type_ : Z) :
  size ≤ PTRDIFF_MAX →
  MQTT5_DecodeVariableByteInteger pBuffer size = Ret (vbiLength, propertiesLength) →
  vbiLength ≠ 0 →
  rounds pBuffer size propertiesLength (first_round vbiLength p) l →
  loop_condition size propertiesLength l = true →
  load pBuffer (l_index l) = Ret type_ →
  switch type_ = None →
  MQTT5_DeserializeProperties (Some p) (Some pBuffer) size
  = Ret (MQTTBadParameter, Some (l_properties l)).
Proof.
  intros Hsize Hdec Hvbi Hr Hc Hload Hdefault.
  unfold MQTT5_DeserializeProperties. rewrite Hdec, bind_Ret.
  destruct (Z.eqb_spec vbiLength 0) as [| _]; [done |].
  set (l' := {| l_index := to_size_t (l_index l + 1); l_vbiLength := l_vbiLength l;
                l_status := MQTTBadParameter; l_properties := l_properties l |}).
  assert (loop_body pBuffer size l = Ret l') as Hb.
  { unfold loop_body, read_value. by rewrite Hload, bind_Ret, Hdefault. }
  rewrite (rounds_fuel pBuffer size propertiesLength (first_round vbiLength p) l').
  - done.
  - done.
  - by eapply rounds_snoc.
  - by apply loop_condition_status.
  - apply decode_count_range in Hdec. simpl. lia.
Qed.

(** ** Big-endian integers *)

Lemma lor_disjoint (hi lo k : Z) :
  0 ≤ k → 0 ≤ lo < 2 ^ k → Z.lor (hi * 2 ^ k) lo = hi * 2 ^ k + lo.
Proof.
  intros Hk Hlo. symmetry. apply Z.add_nocarry_lor.
  apply Z.bits_inj'. intros n Hn. rewrite Z.land_spec, Z.bits_0.
  destruct (Z.lt_ge_cases n k) as [Hlt | Hge].
  - rewrite Z.mul_pow2_bits_low by lia. done.
  - destruct (decide (lo = 0)) as [-> | Hne].
    + rewrite Z.bits_0. apply andb_false_r.
    + rewrite (Z.bits_above_log2 lo n); [apply andb_false_r | lia |].
      apply Z.log2_lt_pow2; [lia |].
      eapply Z.lt_le_trans; [apply Hlo |]. apply Z.pow_le_mono_r; lia.
Qed.

Lemma shiftr_8 v : Z.shiftr v 8 = v / 256.
Proof. by rewrite Z.shiftr_div_pow2. Qed.

Lemma land_255 v : Z.land v 0xFF = v mod 256.
Proof. change 0xFF with (Z.ones 8). by rewrite Z.land_ones. Qed.

(** The two bytes the serializer writes for a 16-bit value. *)
Lemma store_length_bytes v :
  is_uint16 v →
  to_uint8 (Z.shiftr v 8) = v / 256 ∧ to_uint8 (Z.land v 0xFF) = v mod 256.
Proof.
  unfold is_uint16. intros Hv. rewrite shiftr_8, land_255.
  pose proof (Z.mod_pos_bound v 256 ltac:(lia)).
  assert (0 ≤ v / 256 < 256)
    by (split; [apply Z.div_pos; lia | apply Z.div_lt_upper_bound; lia]).
  split; apply to_uint8_small; lia.
Qed.

Lemma load_app_r {A} (pre l : list A) (i : Z) :
  0 ≤ i → load (pre ++ l) (Z.of_nat (length pre) + i) = load l i.
Proof.
  intros Hi. rewrite <- (load_drop (pre ++ l)) by done.
  by rewrite drop_app_length.
Qed.

Lemma load_0 {A} (a : A) l : load (a :: l) 0 = Ret a.
Proof. reflexivity. Qed.

Lemma load_1 {A} (a b : A) l : load (a :: b :: l) 1 = Ret b.
Proof. reflexivity. Qed.

Lemma load_2 {A} (a b c : A) l : load (a :: b :: c :: l) 2 = Ret c.
Proof. reflexivity. Qed.

Lemma load_3 {A} (a b c d : A) l : load (a :: b :: c :: d :: l) 3 = Ret d.
Proof. reflexivity. Qed.

(** The deserializer reads them back. *)
Lemma load_uint16_wire (pre rest : list Z) (v index : Z) :
  is_uint16 v →
  index = Z.of_nat (length pre) →
  index + 1 < 2 ^ 64 →
  load_uint16 (pre ++ wire_length v ++ rest) index = Ret v.
Proof.
  unfold is_uint16, wire_length. intros Hv -> Hi.
  pose proof (Z.mod_pos_bound v 256 ltac:(lia)).
  pose proof (Z.div_mod v 256 ltac:(lia)).
  unfold load_uint16. cbn [app].
  rewrite to_size_t_small by lia.
  rewrite <- (Z.add_0_r (Z.of_nat (length pre))) at 1.
  rewrite !load_app_r by lia. rewrite load_0, load_1, !bind_Ret.
  rewrite Z.shiftl_mul_pow2 by lia.
  rewrite lor_disjoint by lia. rewrite to_uint16_small by lia. f_equal. lia.
Qed.

(** The four bytes the serializer writes for a 32-bit value. *)
Lemma store_uint32_bytes v :
  is_uint32 v →
  to_uint8 (Z.shiftr v 24) = v / 2 ^ 24
  ∧ to_uint8 (Z.land (Z.shiftr v 16) 0xFF) = (v / 2 ^ 16) mod 256
  ∧ to_uint8 (Z.land (Z.shiftr v 8) 0xFF) = (v / 2 ^ 8) mod 256
  ∧ to_uint8 (Z.land v 0xFF) = v mod 256.
Proof.
  unfold is_uint32. intros Hv. rewrite !land_255, !Z.shiftr_div_pow2 by lia.
  assert (0 ≤ v / 2 ^ 24 < 256)
    by (split; [apply Z.div_pos; lia | apply Z.div_lt_upper_bound; lia]).
  pose proof (Z.mod_pos_bound (v / 2 ^ 16) 256 ltac:(lia)).
  pose proof (Z.mod_pos_bound (v / 2 ^ 8) 256 ltac:(lia)).
  pose proof (Z.mod_pos_bound v 256 ltac:(lia)).
  repeat split; apply to_uint8_small; lia.
Qed.

Lemma load_uint32_wire (pre rest : list Z) (v index : Z) :
  is_uint32 v →
  index = Z.of_nat (length pre) →
  index + 3 < 2 ^ 64 →
  load_uint32
    (pre ++ [v / 2 ^ 24; (v / 2 ^ 16) mod 256; (v / 2 ^ 8) mod 256; v mod 256]
         ++ rest) index
  = Ret v.
Proof.
  unfold is_uint32. intros Hv -> Hi.
  assert (0 ≤ v / 2 ^ 24 < 256)
    by (split; [apply Z.div_pos; lia | apply Z.div_lt_upper_bound; lia]).
  pose proof (Z.mod_pos_bound (v / 2 ^ 16) 256 ltac:(lia)).
  pose proof (Z.mod_pos_bound (v / 2 ^ 8) 256 ltac:(lia)).
  pose proof (Z.mod_pos_bound v 256 ltac:(lia)).
  unfold load_uint32. cbn [app].
  rewrite !to_size_t_small by lia.
  rewrite <- (Z.add_0_r (Z.of_nat (length pre))) at 1.
  rewrite !load_app_r by lia.
  rewrite load_0, load_1, load_2, load_3, !bind_Ret.
  rewrite !Z.shiftl_mul_pow2 by lia.
  rewrite !to_uint32_small by lia.
  rewrite (lor_disjoint (v / 2 ^ 24) _ 24) by lia.
  replace (v / 2 ^ 24 * 2 ^ 24 + (v / 2 ^ 16) mod 256 * 2 ^ 16)
    with ((v / 2 ^ 24 * 2 ^ 8 + (v / 2 ^ 16) mod 256) * 2 ^ 16) by lia.
  rewrite (lor_disjoint _ _ 16) by lia.
  replace ((v / 2 ^ 24 * 2 ^ 8 + (v / 2 ^ 16) mod 256) * 2 ^ 16
           + (v / 2 ^ 8) mod 256 * 2 ^ 8)
    with (((v / 2 ^ 24 * 2 ^ 8 + (v / 2 ^ 16) mod 256) * 2 ^ 8
           + (v / 2 ^ 8) mod 256) * 2 ^ 8) by lia.
  rewrite (lor_disjoint _ _ 8) by lia.
  f_equal.
  pose proof (Z.div_mod v 256 ltac:(lia)).
  pose proof (Z.div_mod (v / 2 ^ 8) 256 ltac:(lia)).
  pose proof (Z.div_mod (v / 2 ^ 16) 256 ltac:(lia)).
  assert (v / 2 ^ 8 / 256 = v / 2 ^ 16) by (rewrite Z.div_div by lia; done).
  assert (v / 2 ^ 16 / 256 = v / 2 ^ 24) by (rewrite Z.div_div by lia; done).
  change (2 ^ 8) with 256 in *. lia.
Qed.

(** ** Size computation *)

Create HintDb labels.
#[local] Hint Unfold
  MQTT5_PROPERTY_PAYLOAD_FORMAT_INDICATOR MQTT5_PROPERTY_MESSAGE_EXPIRY_INTERVAL
  MQTT5_PROPERTY_CONTENT_TYPE MQTT5_PROPERTY_RESPONSE_TOPIC
  MQTT5_PROPERTY_CORRELATION_DATA MQTT5_PROPERTY_SUBSCRIPTION_IDENTIFIER
  MQTT5_PROPERTY_SESSION_EXPIRY_INTERVAL MQTT5_PROPERTY_ASSIGNED_CLIENT_IDENTIFIER
  MQTT5_PROPERTY_SERVER_KEEP_ALIVE MQTT5_PROPERTY_AUTHENTICATION_METHOD
  MQTT5_PROPERTY_AUTHENTICATION_DATA MQTT5_PROPERTY_REQUEST_PROBLEM_INFORMATION
  MQTT5_PROPERTY_WILL_DELAY_INTERVAL MQTT5_PROPERTY_REQUEST_RESPONSE_INFORMATION
  MQTT5_PROPERTY_RESPONSE_INFORMATION MQTT5_PROPERTY_SERVER_REFERENCE
  MQTT5_PROPERTY_REASON_STRING MQTT5_PROPERTY_RECEIVE_MAXIMUM
  MQTT5_PROPERTY_TOPIC_ALIAS_MAXIMUM MQTT5_PROPERTY_TOPIC_ALIAS
  MQTT5_PROPERTY_MAXIMUM_QOS MQTT5_PROPERTY_RETAIN_AVAILABLE
  MQTT5_PROPERTY_USER_PROPERTY MQTT5_PROPERTY_MAXIMUM_PACKET_SIZE
  MQTT5_PROPERTY_WILDCARD_SUBSCRIPTION_AVAILABLE
  MQTT5_PROPERTY_SUBSCRIPTION_IDENTIFIER_AVAILABLE
  MQTT5_PROPERTY_SHARED_SUBSCRIPTION_AVAILABLE
  byte_labels two_byte_labels four_byte_labels utf8_string_labels
  binary_data_labels has_label : labels.

(** Every [case] label is the value of a byte. *)
Lemma switch_label type_ group : switch type_ = Some group → is_uint8 type_.
Proof.
  unfold switch, is_uint8. autounfold with labels. cbn [existsb].
  intros H.
  repeat match type of H with
         | context [?a =? ?b] => destruct (Z.eqb_spec a b) as [-> | ?]; [lia |]
         end.
  discriminate.
Qed.

Lemma charged_size_pos x : well_shaped x → 2 ≤ charged_size x.
Proof.
  unfold well_shaped, charged_size, is_uint16.
  destruct (switch (type x)) as [[] |], (value x); try done; lia.
Qed.

Lemma properties_size_cons x ps :
  properties_size (x :: ps) = charged_size x + properties_size ps.
Proof. reflexivity. Qed.

Lemma properties_size_nonneg ps : Forall well_shaped ps → 0 ≤ properties_size ps.
Proof.
  induction 1 as [| x ps Hx _ IH]; [done |].
  rewrite properties_size_cons. apply charged_size_pos in Hx. lia.
Qed.

Lemma add_value_size_charged totalSize x :
  well_shaped x →
  0 ≤ totalSize → totalSize + charged_size x < 2 ^ 64 →
  add_value_size (to_size_t (totalSize + 1)) x = Ret (totalSize + charged_size x).
Proof.
  unfold well_shaped, charged_size, add_value_size, is_uint16.
  destruct (switch (type x)) as [[] |], (value x); try done; intros Hx H0 Hlt;
    cbn [value_utf8String value_binaryData value_userProperty];
    rewrite ?bind_Ret, ?to_uint32_small, (to_size_t_small (totalSize + 1)),
      ?to_size_t_small by lia;
    f_equal; lia.
Qed.

Lemma take_drop_S {A} (slots : list A) (k n : nat) (x : A) :
  slots !! k = Some x →
  take (S n) (drop k slots) = x :: take n (drop (S k) slots).
Proof. intros Hx. by rewrite (drop_S _ _ _ Hx). Qed.

Lemma GetPropertiesSize_loop_charged (slots : list MQTT5Property_t) :
  ∀ n k totalSize,
    (k + n ≤ length slots)%nat →
    Forall well_shaped (take n (drop k slots)) →
    0 ≤ totalSize →
    totalSize + properties_size (take n (drop k slots)) < 2 ^ 64 →
    GetPropertiesSize_loop n slots (Z.of_nat k) totalSize
    = Ret (totalSize + properties_size (take n (drop k slots))).
Proof.
  induction n as [| n IH]; intros k totalSize Hlen Hshape H0 Hlt.
  - simpl. f_equal. unfold properties_size. simpl. lia.
  - destruct (lookup_lt_is_Some_2 slots k) as [x Hx]; [lia |].
    rewrite (take_drop_S _ _ _ _ Hx) in *.
    apply Forall_cons in Hshape as [Hshape_x Hshape].
    rewrite properties_size_cons in *.
    pose proof (charged_size_pos x Hshape_x).
    pose proof (properties_size_nonneg _ Hshape).
    cbn [GetPropertiesSize_loop].
    rewrite (load_lookup _ _ _ Hx), bind_Ret.
    rewrite add_value_size_charged by (done || lia). rewrite bind_Ret.
    replace (Z.of_nat k + 1) with (Z.of_nat (S k)) by lia.
    rewrite IH by (done || lia). f_equal. lia.
Qed.

(** MQTT5_GetPropertiesSize returns the properties length of the entries. *)
Lemma GetPropertiesSize_charged (c : MQTT5Properties_t) :
  count c ≤ Z.of_nat (length (pProperties c)) →
  Forall well_shaped (entries c) →
  properties_size (entries c) < 2 ^ 64 →
  MQTT5_GetPropertiesSize (Some c) = Ret (properties_size (entries c)).
Proof.
  intros Hcount Hshape Hlt. unfold MQTT5_GetPropertiesSize, entries in *.
  rewrite <- (drop_0 (pProperties c)) in Hshape, Hlt |- * at 2.
  rewrite (GetPropertiesSize_loop_charged _ _ 0%nat 0); (done || lia).
Qed.

(** ** Serialization *)

Lemma memcpy_is_Ret mem dst src n mem' :
  memcpy mem dst src n = Ret mem' →
  0 ≤ dst ∧ 0 ≤ n ≤ Z.of_nat (length src) ∧ dst + n ≤ Z.of_nat (length mem).
Proof.
  unfold memcpy.
  destruct (Z.leb_spec n (Z.of_nat (length src))); [| done].
  destruct (Z.leb_spec 0 dst), (Z.leb_spec 0 n),
    (Z.leb_spec (dst + n) (Z.of_nat (length mem))); done.
Qed.

(** Copying to the end of the part of the buffer that has been filled. *)
Lemma memcpy_next (filled free src : list Z) (dst n : Z) :
  dst = Z.of_nat (length filled) →
  0 ≤ n ≤ Z.of_nat (length src) →
  n ≤ Z.of_nat (length free) →
  memcpy (filled ++ free) dst src n
  = Ret ((filled ++ take (Z.to_nat n) src) ++ drop (Z.to_nat n) free).
Proof.
  intros -> Hn Hroom. unfold memcpy.
  destruct (Z.leb_spec n (Z.of_nat (length src))); [| lia].
  destruct (Z.leb_spec 0 (Z.of_nat (length filled))); [| lia].
  destruct (Z.leb_spec 0 n); [| lia].
  destruct (Z.leb_spec (Z.of_nat (length filled) + n)
              (Z.of_nat (length (filled ++ free)))) as [_ | Hlt];
    [| rewrite length_app in Hlt; lia].
  cbn [andb]. rewrite Nat2Z.id, take_app_length.
  replace (Z.to_nat (Z.of_nat (length filled) + n))
    with (length filled + Z.to_nat n)%nat by lia.
  rewrite drop_app_add. by rewrite <- app_assoc.
Qed.

Lemma store_length_is_Ret mem index n mem' :
  store_length mem index n = Ret mem' →
  index + 1 < 2 ^ 64 →
  0 ≤ index ∧ index + 2 ≤ Z.of_nat (length mem) ∧ length mem' = length mem.
Proof.
  unfold store_length. intros H Hi.
  apply bind_is_Ret in H as (mem1 & H1 & H2).
  apply store_is_Ret in H1 as [Hb1 ->]. apply store_is_Ret in H2 as [Hb2 ->].
  rewrite !length_insert in *. rewrite to_size_t_small in Hb2 by lia. lia.
Qed.

Lemma store_length_next (filled free : list Z) (o1 o2 : Z) (index n : Z) :
  index = Z.of_nat (length filled) →
  index + 1 < 2 ^ 64 →
  is_uint16 n →
  store_length (filled ++ o1 :: o2 :: free) index n
  = Ret ((filled ++ wire_length n) ++ free).
Proof.
  intros -> Hi Hn. unfold store_length, wire_length.
  destruct (store_length_bytes n Hn) as [-> ->].
  rewrite (store_next filled o1); [| done]. rewrite bind_Ret.
  rewrite to_size_t_small by lia.
  rewrite (store_next (filled ++ [n / 256]) o2);
    [| rewrite length_app; simpl; lia].
  by rewrite <- (app_assoc filled).
Qed.

(** What a successful call of the encoder says about the room there was. *)
Lemma encode_loop_room m : ∀ v mem offset k mem' n,
  encode_loop (S m) mem (Some offset) v k = Ret (mem', n) →
  0 ≤ v < 128 ^ (Z.of_nat m + 1) →
  0 ≤ k → k + Z.of_nat m + 1 < 2 ^ 64 →
  n = k + Z.of_nat (length (vbi_bytes m v))
  ∧ 0 ≤ offset + k
  ∧ offset + n ≤ Z.of_nat (length mem)
  ∧ length mem' = length mem.
Proof.
  induction m as [| m IH]; intros v mem offset k mem' n Hrun Hv Hk Hk';
    rewrite encode_loop_S in Hrun; cbv zeta in Hrun;
    apply bind_is_Ret in Hrun as (mem1 & Hstore & Hrun);
    apply store_is_Ret in Hstore as [Hb ->];
    rewrite to_size_t_small in Hrun by lia.
  - simpl in Hv. rewrite (Z.div_small v 128) in Hrun by lia.
    cbn [Z.ltb Z.compare] in Hrun. injection Hrun as <- <-.
    rewrite length_insert. simpl. lia.
  - rewrite vbi_bytes_S. destruct (Z.ltb_spec 0 (v / 128)) as [Hq | Hq].
    + apply IH in Hrun as (-> & _ & Hroom & ->); [| | lia..].
      * rewrite !length_insert in *. rewrite length_cons. lia.
      * replace (Z.of_nat (S m) + 1) with (Z.succ (Z.of_nat m + 1)) in Hv by lia.
        rewrite Z.pow_succ_r in Hv by lia. split; [lia |].
        apply Z.div_lt_upper_bound; lia.
    + injection Hrun as <- <-. rewrite length_insert. simpl. lia.
Qed.

Lemma wire_length_length n : length (wire_length n) = 2%nat.
Proof. reflexivity. Qed.

Ltac need_byte free Hroom :=
  destruct free as [| ? free];
  [ exfalso; revert Hroom;
    rewrite ?length_cons, ?length_app, ?wire_length_length;
    cbn [Datatypes.length]; lia
  | ].

(** The length of the bytes of a property. *)
Lemma wire_property_length x :
  well_shaped x →
  Z.of_nat (length (wire_property x))
  = match switch (type x), value x with
    | Some CaseSubscriptionIdentifier, fourByteInteger v =>
        1 + Z.of_nat (length (vbi_bytes 3 v))
    | _, _ => charged_size x
    end.
Proof.
  unfold well_shaped, charged_size, wire_property, is_uint16.
  destruct (switch (type x)) as [[] |], (value x); try done; intros Hx;
    rewrite length_cons, ?length_app, ?wire_length_length, ?length_take;
    cbn [Datatypes.length]; lia.
Qed.

Lemma wire_property_bounds x :
  well_shaped x →
  2 ≤ Z.of_nat (length (wire_property x)) ≤ charged_size x.
Proof.
  intros Hx. rewrite (wire_property_length x Hx).
  pose proof (charged_size_pos x Hx).
  unfold well_shaped, charged_size in *.
  destruct (switch (type x)) as [[] |], (value x); try done; try lia.
  pose proof (vbi_bytes_length 3 v). lia.
Qed.

Lemma memcpy_length mem dst src n mem' :
  memcpy mem dst src n = Ret mem' → length mem' = length mem.
Proof.
  intros H. pose proof (memcpy_is_Ret _ _ _ _ _ H) as (? & ? & ?).
  unfold memcpy in H.
  destruct (n <=? Z.of_nat (length src)); [| done].
  destruct ((0 <=? dst) && (0 <=? n) && (dst + n <=? Z.of_nat (length mem)));
    [| done].
  injection H as <-. rewrite !length_app, !length_take, length_drop. lia.
Qed.

(** A call of serialize_property that returns has found room for the bytes
    of the property. *)
Lemma serialize_property_room buf index x st buf' index' :
  serialize_property buf index x = Ret (st, buf', index') →
  well_shaped x →
  index + charged_size x < 2 ^ 63 →
  st = MQTTSuccess ∧ 0 ≤ index
  ∧ index + Z.of_nat (length (wire_property x)) ≤ Z.of_nat (length buf).
Proof.
  intros H Hx Hi. rewrite (wire_property_length x Hx).
  pose proof (charged_size_pos x Hx) as Hpos.
  unfold serialize_property in H.
  apply bind_is_Ret in H as (buf1 & Hid & H).
  apply store_is_Ret in Hid as [Hb ->].
  rewrite (to_size_t_small (index + 1)) in H by lia.
  unfold well_shaped, charged_size, is_uint16 in *.
  destruct (switch (type x)) as [[] |], (value x); try done;
    cbn [value_byte value_twoByteInteger value_fourByteInteger value_binaryData
         value_utf8String value_userProperty] in H;
    rewrite bind_Ret in H.
  - apply bind_is_Ret in H as (buf2 & H2 & [= <- _ _]).
    apply store_is_Ret in H2 as [? _]. rewrite length_insert in *. split; [done | lia].
  - apply bind_is_Ret in H as (buf2 & H2 & H).
    apply bind_is_Ret in H as (buf3 & H3 & [= <- _ _]).
    apply store_is_Ret in H2 as [? ->]. apply store_is_Ret in H3 as [? _].
    rewrite !length_insert in *. rewrite to_size_t_small in * by lia. split; [done | lia].
  - apply bind_is_Ret in H as (buf2 & H2 & H).
    apply bind_is_Ret in H as (buf3 & H3 & H).
    apply bind_is_Ret in H as (buf4 & H4 & H).
    apply bind_is_Ret in H as (buf5 & H5 & [= <- _ _]).
    apply store_is_Ret in H2 as [? ->]. apply store_is_Ret in H3 as [? ->].
    apply store_is_Ret in H4 as [? ->]. apply store_is_Ret in H5 as [? _].
    rewrite !length_insert in *.
    rewrite (to_size_t_small (index + 1 + 3)) in * by lia. split; [done | lia].
  - apply bind_is_Ret in H as (buf2 & H2 & H).
    apply bind_is_Ret in H as (buf3 & H3 & [= <- _ _]).
    apply store_length_is_Ret in H2 as (? & ? & Hl2); [| lia].
    rewrite to_size_t_small in H3 by lia.
    apply memcpy_is_Ret in H3 as (? & ? & ?).
    rewrite Hl2, length_insert in *. split; [done | lia].
  - apply bind_is_Ret in H as (buf2 & H2 & H).
    apply bind_is_Ret in H as (buf3 & H3 & [= <- _ _]).
    apply store_length_is_Ret in H2 as (? & ? & Hl2); [| lia].
    rewrite to_size_t_small in H3 by lia.
    apply memcpy_is_Ret in H3 as (? & ? & ?).
    rewrite Hl2, length_insert in *. split; [done | lia].
  - apply bind_is_Ret in H as (buf2 & H2 & H).
    apply bind_is_Ret in H as (buf3 & H3 & H).
    apply bind_is_Ret in H as (buf4 & H4 & H).
    apply bind_is_Ret in H as (buf5 & H5 & [= <- _ _]).
    apply store_length_is_Ret in H2 as (? & ? & Hl2); [| lia].
    rewrite (to_size_t_small (index + 1 + 2)) in * by lia.
    rewrite (to_size_t_small (index + 1 + 2 + keyLength)) in * by lia.
    rewrite (to_size_t_small (index + 1 + 2 + keyLength + 2)) in * by lia.
    pose proof (memcpy_length _ _ _ _ _ H3) as Hl3.
    apply store_length_is_Ret in H4 as (? & ? & Hl4); [| lia].
    apply memcpy_is_Ret in H5 as (? & ? & ?).
    rewrite Hl4, Hl3, Hl2, length_insert in *. split; [done | lia].
  - apply bind_is_Ret in H as ([buf2 n] & H2 & [= <- _ _]).
    unfold encodeVariableByteInteger, VBI_MAX in *.
    rewrite to_uint32_small in H2 by lia.
    apply encode_loop_room in H2 as (-> & _ & ? & _); [| simpl; lia | lia..].
    rewrite vbi_bytes_short in * by (unfold VBI_MAX; lia).
    rewrite length_insert in *. split; [done | lia].
Qed.

Ltac written_bytes :=
  cbn [Datatypes.length skipn]; rewrite <- ?app_assoc; cbn [app];
  rewrite <- ?app_assoc; cbn [app];
  f_equal; apply f_equal2; [done | lia].

(** With room in the buffer serialize_property appends the bytes of the
    property to the filled part. *)
Lemma serialize_property_writes (filled free : list Z) (index : Z) x :
  index = Z.of_nat (length filled) →
  well_shaped x →
  index + charged_size x < 2 ^ 63 →
  (length (wire_property x) ≤ length free)%nat →
  serialize_property (filled ++ free) index x
  = Ret (MQTTSuccess,
         (filled ++ wire_property x) ++ drop (length (wire_property x)) free,
         index + Z.of_nat (length (wire_property x))).
Proof.
  intros -> Hx Hi Hroom.
  pose proof (wire_property_bounds x Hx) as Hwire.
  pose proof (charged_size_pos x Hx) as Hpos.
  unfold serialize_property.
  assert (is_uint8 (type x)) as Hty.
  { unfold well_shaped in Hx. destruct (switch (type x)) eqn:Hsw; [| done].
    by eapply switch_label. }
  rewrite (to_uint8_small (type x)) by done.
  need_byte free Hroom.
  rewrite (store_next filled); [| done]. rewrite bind_Ret.
  rewrite (to_size_t_small (Z.of_nat (length filled) + 1)) by lia.
  assert (Z.of_nat (length filled) + 1 = Z.of_nat (length (filled ++ [type x])))
    as Hfilled by (rewrite length_app; simpl; lia).
  unfold well_shaped, charged_size, wire_property, is_uint8, is_uint16, is_uint32 in *.
  destruct (switch (type x)) as [[] |], (value x); try done;
    cbn [value_byte value_twoByteInteger value_fourByteInteger value_binaryData
         value_utf8String value_userProperty];
    rewrite bind_Ret.
  - need_byte free Hroom.
    rewrite (store_next (filled ++ [type x])); [| done]. rewrite bind_Ret.
    rewrite to_size_t_small by lia. written_bytes.
  - do 2 need_byte free Hroom.
    destruct (store_length_bytes v Hx) as [-> ->].
    rewrite (store_next (filled ++ [type x])); [| done]. rewrite bind_Ret.
    rewrite !to_size_t_small by lia.
    rewrite (store_next ((filled ++ [type x]) ++ [v / 256]));
      [| rewrite !length_app; simpl; lia].
    rewrite bind_Ret. unfold wire_length. written_bytes.
  - do 4 need_byte free Hroom.
    destruct (store_uint32_bytes v Hx) as (-> & -> & -> & ->).
    rewrite (store_next (filled ++ [type x])); [| done]. rewrite bind_Ret.
    rewrite !to_size_t_small by lia.
    rewrite (store_next ((filled ++ [type x]) ++ [_]));
      [| rewrite !length_app; simpl; lia].
    rewrite bind_Ret.
    rewrite (store_next (((filled ++ [type x]) ++ [_]) ++ [_]));
      [| rewrite !length_app; simpl; lia].
    rewrite bind_Ret.
    rewrite (store_next ((((filled ++ [type x]) ++ [_]) ++ [_]) ++ [_]));
      [| rewrite !length_app; simpl; lia].
    rewrite bind_Ret. written_bytes.
  - destruct Hx as [Hn Hsrc].
    do 2 need_byte free Hroom.
    rewrite (store_length_next (filled ++ [type x]) free); [| done | lia | done].
    rewrite bind_Ret. rewrite (to_size_t_small (Z.of_nat (length filled) + 1 + 2)) by lia.
    rewrite (memcpy_next ((filled ++ [type x]) ++ wire_length length_) free);
      [| rewrite !length_app, wire_length_length; cbn [Datatypes.length]; lia | lia | ].
    2: { revert Hroom. rewrite !length_cons, length_app, wire_length_length,
           length_take_le by lia. lia. }
    rewrite bind_Ret, to_size_t_small by lia.
    rewrite length_cons, length_app, wire_length_length, length_take_le by lia.
    cbn [Nat.add skipn]. written_bytes.
  - destruct Hx as [Hn Hsrc].
    do 2 need_byte free Hroom.
    rewrite (store_length_next (filled ++ [type x]) free); [| done | lia | done].
    rewrite bind_Ret. rewrite (to_size_t_small (Z.of_nat (length filled) + 1 + 2)) by lia.
    rewrite (memcpy_next ((filled ++ [type x]) ++ wire_length length_) free);
      [| rewrite !length_app, wire_length_length; cbn [Datatypes.length]; lia | lia | ].
    2: { revert Hroom. rewrite !length_cons, length_app, wire_length_length,
           length_take_le by lia. lia. }
    rewrite bind_Ret, to_size_t_small by lia.
    rewrite length_cons, length_app, wire_length_length, length_take_le by lia.
    cbn [Nat.add skipn]. written_bytes.
  - destruct Hx as (Hkn & Hksrc & Hwn & Hwsrc).
    do 2 need_byte free Hroom.
    assert (keyLength + 2 + valueLength ≤ Z.of_nat (length free)) as Hfree.
    { revert Hroom. rewrite !length_cons, !length_app, !wire_length_length,
        !length_take_le by lia. lia. }
    rewrite (store_length_next (filled ++ [type x]) free); [| done | lia | done].
    rewrite bind_Ret. rewrite (to_size_t_small (Z.of_nat (length filled) + 1 + 2)) by lia.
    rewrite (memcpy_next ((filled ++ [type x]) ++ wire_length keyLength) free);
      [| rewrite !length_app, wire_length_length; cbn [Datatypes.length]; lia | lia | lia].
    rewrite bind_Ret. rewrite (to_size_t_small (Z.of_nat (length filled) + 1 + 2 + keyLength)) by lia.
    destruct (drop (Z.to_nat keyLength) free) as [| o3 [| o4 rest]] eqn:Hdrop;
      [apply (f_equal length) in Hdrop; rewrite length_drop in Hdrop;
       cbn [Datatypes.length] in Hdrop; lia.. |].
    assert (rest = drop (Z.to_nat keyLength + 2) free) as ->.
    { rewrite <- drop_drop, Hdrop. done. }
    rewrite (store_length_next
               (((filled ++ [type x]) ++ wire_length keyLength)
                  ++ take (Z.to_nat keyLength) pKey));
      [| rewrite !length_app, !wire_length_length, length_take_le by lia;
         cbn [Datatypes.length]; lia
       | lia | done].
    rewrite bind_Ret.
    rewrite (to_size_t_small (Z.of_nat (length filled) + 1 + 2 + keyLength + 2)) by lia.
    apply (f_equal length) in Hdrop. rewrite length_drop in Hdrop.
    cbn [Datatypes.length] in Hdrop. rewrite length_drop in Hdrop.
    rewrite (memcpy_next
               ((((filled ++ [type x]) ++ wire_length keyLength)
                   ++ take (Z.to_nat keyLength) pKey) ++ wire_length valueLength));
      [| rewrite !length_app, !wire_length_length, length_take_le by lia;
         cbn [Datatypes.length]; lia
       | lia | rewrite length_drop; lia].
    rewrite bind_Ret, to_size_t_small by lia.
    rewrite drop_drop.
    rewrite length_cons, !length_app, !wire_length_length, !length_take_le by lia.
    replace (S (2 + (Z.to_nat keyLength + (2 + Z.to_nat valueLength))))
      with (S (S (S (Z.to_nat keyLength + 2 + Z.to_nat valueLength)))) by lia.
    cbn [skipn]. written_bytes.
  - unfold VBI_MAX in Hx. rewrite Hfilled.
    assert (vbi_bytes 4 (to_uint32 v) = vbi_bytes 3 v) as Hvbi
      by (rewrite to_uint32_small by lia; apply vbi_bytes_short; unfold VBI_MAX; lia).
    rewrite (encode_appends (filled ++ [type x]) free v);
      [| rewrite Hvbi; revert Hroom; rewrite !length_cons; lia].
    rewrite bind_Ret, Hvbi, <- Hfilled, to_size_t_small
      by (pose proof (vbi_bytes_length 3 v); lia).
    rewrite length_cons. cbn [skipn]. written_bytes.
Qed.

Lemma Ret_inj2 {A B} (a a' : A) (b b' : B) :
  Ret (a, b) = Ret (a', b') → a = a' ∧ b = b'.
Proof. by intros [= -> ->]. Qed.

Lemma Ret_inj3 {A B C} (a a' : A) (b b' : B) (c c' : C) :
  Ret (a, b, c) = Ret (a', b', c') → a = a' ∧ b = b' ∧ c = c'.
Proof. by intros [= -> -> ->]. Qed.

Lemma wire_properties_cons x ps :
  wire_properties (x :: ps) = wire_property x ++ wire_properties ps.
Proof. reflexivity. Qed.

Lemma wire_properties_bounds ps :
  Forall well_shaped ps →
  0 ≤ Z.of_nat (length (wire_properties ps)) ≤ properties_size ps.
Proof.
  induction 1 as [| x ps Hx _ IH]; [done |].
  rewrite wire_properties_cons, properties_size_cons, length_app.
  pose proof (wire_property_bounds x Hx). lia.
Qed.

Lemma serialize_loop_S n slots i pBuffer index status :
  serialize_loop (S n) slots i pBuffer index status =
  if decide (status = MQTTSuccess) then
    pProp ← load slots i;
    '(status, pBuffer, index) ← serialize_property pBuffer index pProp;
    serialize_loop n slots (i + 1) pBuffer index status
  else Ret (status, pBuffer, index).
Proof. reflexivity. Qed.

(** With room in the buffer the loop of MQTT5_SerializeProperties appends
    the bytes of the properties it runs through. *)
Lemma serialize_loop_writes (slots : list MQTT5Property_t) :
  ∀ n k filled free index,
    index = Z.of_nat (length filled) →
    (k + n ≤ length slots)%nat →
    Forall well_shaped (take n (drop k slots)) →
    index + properties_size (take n (drop k slots)) < 2 ^ 63 →
    (length (wire_properties (take n (drop k slots))) ≤ length free)%nat →
    serialize_loop n slots (Z.of_nat k) (filled ++ free) index MQTTSuccess
    = Ret (MQTTSuccess,
           (filled ++ wire_properties (take n (drop k slots)))
             ++ drop (length (wire_properties (take n (drop k slots)))) free,
           index + Z.of_nat (length (wire_properties (take n (drop k slots))))).
Proof.
  induction n as [| n IH]; intros k filled free index -> Hlen Hshape Hi Hroom.
  - cbn. rewrite app_nil_r, Z.add_0_r. done.
  - destruct (lookup_lt_is_Some_2 slots k) as [x Hx]; [lia |].
    rewrite (take_drop_S _ _ _ _ Hx) in *.
    apply Forall_cons in Hshape as [Hshape_x Hshape].
    rewrite wire_properties_cons, properties_size_cons in *.
    rewrite length_app in *.
    pose proof (wire_property_bounds x Hshape_x).
    pose proof (wire_properties_bounds _ Hshape).
    pose proof (properties_size_nonneg _ Hshape).
    rewrite serialize_loop_S. destruct (decide (MQTTSuccess = MQTTSuccess)); [| done].
    rewrite (load_lookup _ _ _ Hx), bind_Ret.
    rewrite serialize_property_writes by (done || lia). rewrite bind_Ret.
    replace (Z.of_nat k + 1) with (Z.of_nat (S k)) by lia.
    rewrite IH; [| rewrite length_app; lia | lia | done | lia
                 | rewrite length_drop; lia].
    rewrite drop_drop, <- (app_assoc filled). f_equal. apply f_equal2; [done | lia].
Qed.

(** A run of the loop that returns has found room for all the bytes. *)
Lemma serialize_loop_room (slots : list MQTT5Property_t) :
  ∀ n k buf index st buf' index',
    serialize_loop n slots (Z.of_nat k) buf index MQTTSuccess = Ret (st, buf', index') →
    (k + n ≤ length slots)%nat →
    Forall well_shaped (take n (drop k slots)) →
    0 ≤ index ≤ Z.of_nat (length buf) →
    index + properties_size (take n (drop k slots)) < 2 ^ 63 →
    index + Z.of_nat (length (wire_properties (take n (drop k slots))))
    ≤ Z.of_nat (length buf).
Proof.
  induction n as [| n IH]; intros k buf index st buf' index' Hrun Hlen Hshape Hi Hlt.
  - simpl. lia.
  - destruct (lookup_lt_is_Some_2 slots k) as [x Hx]; [lia |].
    rewrite (take_drop_S _ _ _ _ Hx) in *.
    apply Forall_cons in Hshape as [Hshape_x Hshape].
    rewrite wire_properties_cons, properties_size_cons in *.
    rewrite length_app.
    pose proof (wire_property_bounds x Hshape_x).
    pose proof (properties_size_nonneg _ Hshape).
    rewrite serialize_loop_S in Hrun.
    destruct (decide (MQTTSuccess = MQTTSuccess)); [| done].
    rewrite (load_lookup _ _ _ Hx), bind_Ret in Hrun.
    apply bind_is_Ret in Hrun as ([[st1 buf1] index1] & Hprop & Hrun).
    assert (index + charged_size x < 2 ^ 63) as Hlt_x by lia.
    pose proof (serialize_property_room _ _ _ _ _ _ Hprop Hshape_x Hlt_x)
      as (-> & _ & Hroom).
    rewrite <- (take_drop (Z.to_nat index) buf) in Hprop.
    rewrite (serialize_property_writes (take (Z.to_nat index) buf)) in Hprop;
      [| first [done | rewrite ?length_take, ?length_drop; lia]..].
    apply Ret_inj3 in Hprop as (_ & <- & <-).
    replace (Z.of_nat k + 1) with (Z.of_nat (S k)) in Hrun by lia.
    apply IH in Hrun;
      [| first [done | lia
               | rewrite !length_app, length_take, length_drop, length_drop; lia]..].
    revert Hrun. rewrite !length_app, length_take, length_drop, length_drop. lia.
Qed.

(** What a successful call of MQTT5_SerializeProperties has written. *)
Lemma SerializeProperties_writes (c : MQTT5Properties_t) (buffer : list Z)
    (pSize : Z) (st : MQTTStatus_t) (buffer' : list Z) (written : Z) :
  MQTT5_SerializeProperties (Some c) (Some buffer) (Some pSize)
  = Ret (st, Some buffer', Some written) →
  0 ≤ count c ≤ Z.of_nat (length (pProperties c)) →
  Forall well_shaped (entries c) →
  properties_size (entries c) < 2 ^ 32 →
  st = MQTTSuccess
  ∧ written = Z.of_nat (length (wire_block (entries c)))
  ∧ buffer' = wire_block (entries c) ++ drop (Z.to_nat written) buffer
  ∧ written ≤ Z.of_nat (length buffer).
Proof.
  intros Hrun Hcount Hshape Hsize. unfold MQTT5_SerializeProperties in Hrun.
  pose proof (properties_size_nonneg _ Hshape) as Hsize0.
  rewrite GetPropertiesSize_charged in Hrun by (done || lia).
  rewrite bind_Ret in Hrun.
  apply bind_is_Ret in Hrun as ([buf1 vbiLength] & Henc & Hrun).
  rewrite (to_uint32_small (properties_size _)) in Henc by lia.
  pose proof Henc as Hroom. unfold encodeVariableByteInteger in Hroom.
  apply encode_loop_room in Hroom as (Hvbi & _ & Hroom & _);
    [| apply to_uint32_lt_pow | lia..].
  rewrite to_uint32_small in Hvbi by lia.
  rewrite (encode_appends [] buffer) in Henc
    by (rewrite to_uint32_small by lia; lia).
  rewrite to_uint32_small in Henc by lia. apply Ret_inj2 in Henc as [<- <-].
  pose proof (vbi_bytes_length 4 (properties_size (entries c))) as Hvl.
  rewrite to_size_t_small in Hrun by lia.
  apply bind_is_Ret in Hrun as ([[st1 buf2] index2] & Hloop & [= <- <- <-]).
  unfold entries in *.
  remember (pProperties c) as slots eqn:Hslots.
  remember (Z.to_nat (count c)) as n eqn:Hn.
  remember (vbi_bytes 4 (properties_size (take n slots))) as prefix eqn:Hprefix.
  change 0 with (Z.of_nat 0) in Hloop at 1.
  pose proof (wire_properties_bounds _ Hshape).
  pose proof (serialize_loop_room slots n 0%nat _ _ _ _ _ Hloop) as Hroom2.
  rewrite drop_0 in Hroom2. cbn [app] in Hroom2.
  rewrite length_app, length_drop in Hroom2.
  specialize (Hroom2 ltac:(lia) Hshape ltac:(lia) ltac:(lia)).
  pose proof (serialize_loop_writes slots n 0%nat prefix
                (drop (length prefix) buffer) (Z.of_nat (length prefix))) as Hw.
  rewrite drop_0 in Hw. cbn [app] in Hw, Hloop. rewrite length_drop in Hw.
  rewrite Z.add_0_l in Hloop, Hroom, Hroom2.
  rewrite Hw in Hloop by (done || lia).
  apply Ret_inj3 in Hloop as (<- & <- & <-). unfold wire_block.
  rewrite <- Hprefix.
  rewrite length_app, drop_drop. repeat split.
  - lia.
  - f_equal. f_equal. lia.
  - lia.
Qed.

(** ** Reading back what was written *)

Lemma app_cons_middle {A} (pre : list A) (a : A) (bytes rest : list A) :
  pre ++ (a :: bytes) ++ rest = (pre ++ [a]) ++ bytes ++ rest.
Proof. by rewrite <- app_assoc. Qed.

Lemma read_result (v : MQTT5PropertyValue) (index index' vbiLength vbiLength' : Z) :
  index = index' → vbiLength = vbiLength' →
  Ret (Some v, index, vbiLength) = Ret (Some v, index', vbiLength').
Proof. by intros -> ->. Qed.

(** A pointer into the input buffer at the start of [bytes] points to
    [bytes]. *)
Lemma borrowed_bytes (pre bytes rest : list Z) (index : Z) (n : Z) :
  index = Z.of_nat (length pre) →
  n = Z.of_nat (length bytes) →
  take (Z.to_nat n) (drop (Z.to_nat index) (pre ++ bytes ++ rest)) = bytes.
Proof.
  intros -> ->. by rewrite !Nat2Z.id, drop_app_length, take_app_length.
Qed.

(** The [switch] of the deserialization loop reads the value of a property
    from the bytes the serializer writes for it. *)
Lemma read_value_wire (pre rest : list Z) (x : MQTT5Property_t)
    (size index vbiLength : Z) :
  well_shaped x →
  index = Z.of_nat (length pre) + 1 →
  index + charged_size x < 2 ^ 63 →
  Z.of_nat (length pre) + Z.of_nat (length (wire_property x)) ≤ size < 2 ^ 63 →
  ∃ value',
    read_value (pre ++ wire_property x ++ rest) size (type x) index vbiLength
    = Ret (Some value',
           Z.of_nat (length pre) + Z.of_nat (length (wire_property x)),
           next_vbiLength x vbiLength)
    ∧ same_value (value x) value'.
Proof.
  intros Hx -> Hi Hsize.
  pose proof (charged_size_pos x Hx) as Hpos.
  assert (Z.of_nat (length pre) + 1 = Z.of_nat (length (pre ++ [type x])))
    as Hpre by (rewrite length_app; simpl; lia).
  unfold read_value, next_vbiLength.
  unfold well_shaped, charged_size, wire_property, is_uint8, is_uint16 in *.
  rewrite app_cons_middle.
  destruct (switch (type x)) as [[] |], (value x); try done.
  - exists (byte b). split; [| done].
    cbn [app]. rewrite load_app_middle; [| done]. rewrite bind_Ret.
    rewrite to_size_t_small by lia.
    apply read_result; [| done].
    rewrite ?length_cons, ?wire_length_length; cbn [Datatypes.length]; lia.
  - exists (twoByteInteger v). split; [| done].
    rewrite load_uint16_wire; [| done | done | lia]. rewrite bind_Ret.
    rewrite to_size_t_small by lia.
    apply read_result; [| done].
    rewrite ?length_cons, ?wire_length_length; cbn [Datatypes.length]; lia.
  - exists (fourByteInteger v). split; [| done].
    rewrite load_uint32_wire; [| done | done | lia]. rewrite bind_Ret.
    rewrite to_size_t_small by lia.
    apply read_result; [| done].
    rewrite ?length_cons, ?wire_length_length; cbn [Datatypes.length]; lia.
  - destruct Hx as [Hn Hsrc]. eexists. split.
    + rewrite <- (app_assoc (wire_length length_)).
      rewrite load_uint16_wire; [| done | done | lia]. rewrite bind_Ret.
      rewrite !to_size_t_small by lia.
      apply read_result; [| done].
      rewrite length_cons, length_app, wire_length_length, length_take_le by lia.
      lia.
    + cbn [same_value]. split; [done |].
      rewrite <- ?app_assoc. rewrite !app_assoc.
      rewrite <- (app_assoc _ (take _ _) rest).
      rewrite borrowed_bytes; [done | | rewrite length_take_le; lia].
      rewrite !length_app, wire_length_length. cbn [Datatypes.length]. lia.
  - destruct Hx as [Hn Hsrc]. eexists. split.
    + rewrite <- (app_assoc (wire_length length_)).
      rewrite load_uint16_wire; [| done | done | lia]. rewrite bind_Ret.
      rewrite !to_size_t_small by lia.
      apply read_result; [| done].
      rewrite length_cons, length_app, wire_length_length, length_take_le by lia.
      lia.
    + cbn [same_value]. split; [done |].
      rewrite <- ?app_assoc. rewrite !app_assoc.
      rewrite <- (app_assoc _ (take _ _) rest).
      rewrite borrowed_bytes; [done | | rewrite length_take_le; lia].
      rewrite !length_app, wire_length_length. cbn [Datatypes.length]. lia.
  - destruct Hx as (Hkn & Hksrc & Hwn & Hwsrc).
    set (key := take (Z.to_nat keyLength) pKey).
    set (val := take (Z.to_nat valueLength) pValue).
    assert (Z.of_nat (length key) = keyLength)
      by (unfold key; rewrite length_take_le; lia).
    assert (Z.of_nat (length val) = valueLength)
      by (unfold val; rewrite length_take_le; lia).
    assert (∀ tail, load_uint16
              ((pre ++ [type x])
                 ++ (wire_length keyLength ++ key ++ wire_length valueLength ++ val)
                 ++ tail)
              (Z.of_nat (length pre) + 1 + 2 + keyLength)
            = Ret valueLength) as Hload.
    { intros tail.
      replace (((pre ++ [type x])
                  ++ (wire_length keyLength ++ key ++ wire_length valueLength ++ val)
                  ++ tail))
        with ((((pre ++ [type x]) ++ wire_length keyLength) ++ key)
                ++ wire_length valueLength ++ (val ++ tail))
        by (by rewrite <- !app_assoc).
      apply load_uint16_wire; [done | | lia].
      rewrite !length_app, wire_length_length. cbn [Datatypes.length]. lia. }
    eexists. split.
    + rewrite <- (app_assoc (wire_length keyLength)).
      rewrite load_uint16_wire; [| done | done | lia]. rewrite bind_Ret.
      rewrite (to_size_t_small (Z.of_nat (length pre) + 1 + 2)) by lia.
      rewrite (to_size_t_small (Z.of_nat (length pre) + 1 + 2 + keyLength)) by lia.
      rewrite (app_assoc (wire_length keyLength)).
      rewrite Hload, bind_Ret. rewrite !to_size_t_small by lia.
      apply read_result; [| done].
      rewrite length_cons, !length_app, !wire_length_length. lia.
    + cbn [same_value].
      split; [done |]. split; [| split; [done |]].
      * rewrite <- ?app_assoc. rewrite !app_assoc.
        rewrite <- (app_assoc _ val rest), <- (app_assoc _ (wire_length valueLength)),
          <- (app_assoc _ key).
        rewrite borrowed_bytes; [done | | lia].
        rewrite !length_app, wire_length_length. cbn [Datatypes.length]. lia.
      * rewrite <- ?app_assoc. rewrite !app_assoc.
        rewrite <- (app_assoc _ val rest).
        rewrite borrowed_bytes; [done | | lia].
        rewrite !length_app, !wire_length_length. cbn [Datatypes.length]. lia.
  - exists (fourByteInteger v). split; [| done].
    pose proof (vbi_bytes_length 3 v) as Hvl.
    rewrite length_cons in Hsize.
    rewrite Hpre, Nat2Z.id, drop_app_length, <- Hpre.
    rewrite decode_vbi; [| done | rewrite to_size_t_small; lia].
    rewrite bind_Ret.
    destruct (Z.eqb_spec (Z.of_nat (length (vbi_bytes 3 v))) 0) as [| _]; [lia |].
    rewrite to_size_t_small by lia.
    apply read_result; rewrite length_cons; lia.
Qed.

Lemma wire_property_head x : ∃ bytes, wire_property x = type x :: bytes.
Proof. unfold wire_property. eauto. Qed.

(** One round of the deserialization loop on the bytes of a property. *)
Lemma loop_body_wire (pre rest : list Z) (x : MQTT5Property_t) (size : Z)
    (l : locals) :
  well_shaped x →
  l_index l = Z.of_nat (length pre) →
  Z.of_nat (length pre) + Z.of_nat (length (wire_property x)) ≤ size →
  size < 2 ^ 62 → charged_size x < 2 ^ 62 →
  0 ≤ count (l_properties l) < capacity (l_properties l) →
  count (l_properties l) < Z.of_nat (length (pProperties (l_properties l))) →
  ∃ x',
    same_property x x'
    ∧ loop_body (pre ++ wire_property x ++ rest) size l
      = Ret {| l_index := Z.of_nat (length pre) + Z.of_nat (length (wire_property x));
               l_vbiLength := next_vbiLength x (l_vbiLength l);
               l_status := MQTTSuccess;
               l_properties :=
                 {| pProperties :=
                      <[Z.to_nat (count (l_properties l)) := x']>
                        (pProperties (l_properties l));
                    count := to_size_t (count (l_properties l) + 1);
                    capacity := capacity (l_properties l) |} |}.
Proof.
  intros Hx Hindex Hsize Hmax Hcharged Hcount Hslots.
  pose proof (wire_property_bounds x Hx) as Hwire.
  destruct (read_value_wire pre rest x size (Z.of_nat (length pre) + 1)
              (l_vbiLength l) Hx eq_refl ltac:(lia) ltac:(lia))
    as (value' & Hread & Hsame).
  exists {| type := type x; value := value' |}. split; [done |].
  unfold loop_body. rewrite Hindex.
  assert (load (pre ++ wire_property x ++ rest) (Z.of_nat (length pre))
          = Ret (type x)) as ->.
  { destruct (wire_property_head x) as [bytes ->]. by apply load_app_middle. }
  rewrite bind_Ret, to_size_t_small by lia.
  rewrite Hread, bind_Ret.
  unfold MQTT5_AddProperty.
  destruct (Z.geb_spec (count (l_properties l)) (capacity (l_properties l)));
    [lia |].
  unfold store.
  destruct (Z.leb_spec 0 (count (l_properties l))); [| lia].
  destruct (Z.ltb_spec (count (l_properties l))
              (Z.of_nat (length (pProperties (l_properties l))))); [| lia].
  done.
Qed.

Lemma next_vbiLength_fixed x vbiLength :
  fixed_width x → well_shaped x → next_vbiLength x vbiLength = vbiLength.
Proof.
  unfold fixed_width, well_shaped, next_vbiLength.
  by destruct (switch (type x)) as [[] |].
Qed.

(** The deserialization loop on the bytes of some properties of a block
    that ends at [bound]: it appends a property with the same type and
    value for each of them and comes to the end of their bytes. *)
Lemma rounds_wire_part (size propertiesLength bound : Z) :
  ∀ ps pre rest l,
    Forall well_shaped ps →
    Forall (λ x, ∀ vbiLength, 0 ≤ vbiLength ≤ 4 → bound ≤ vbiLength + propertiesLength →
                 0 ≤ next_vbiLength x vbiLength ≤ 4
                 ∧ bound ≤ next_vbiLength x vbiLength + propertiesLength) ps →
    l_index l = Z.of_nat (length pre) →
    l_status l = MQTTSuccess →
    Z.of_nat (length pre) + Z.of_nat (length (wire_properties ps)) ≤ bound →
    bound ≤ size →
    size < 2 ^ 62 → properties_size ps < 2 ^ 62 →
    0 ≤ propertiesLength < 2 ^ 32 →
    0 ≤ l_vbiLength l ≤ 4 →
    bound ≤ l_vbiLength l + propertiesLength →
    0 ≤ count (l_properties l) →
    count (l_properties l) + Z.of_nat (length ps) ≤ capacity (l_properties l) →
    capacity (l_properties l) ≤ Z.of_nat (length (pProperties (l_properties l))) →
    capacity (l_properties l) < 2 ^ 64 →
    ∃ l' ps',
      rounds (pre ++ wire_properties ps ++ rest) size propertiesLength l l'
      ∧ l_index l' = Z.of_nat (length pre) + Z.of_nat (length (wire_properties ps))
      ∧ l_status l' = MQTTSuccess
      ∧ (0 ≤ l_vbiLength l' ≤ 4 ∧ bound ≤ l_vbiLength l' + propertiesLength)
      ∧ (Forall fixed_width ps → l_vbiLength l' = l_vbiLength l)
      ∧ entries (l_properties l') = entries (l_properties l) ++ ps'
      ∧ Forall2 same_property ps ps'
      ∧ count (l_properties l') = count (l_properties l) + Z.of_nat (length ps)
      ∧ capacity (l_properties l') = capacity (l_properties l)
      ∧ length (pProperties (l_properties l')) = length (pProperties (l_properties l)).
Proof.
  induction ps as [| x ps IH];
    intros pre rest l Hshape Hnext Hindex Hstatus Hend Hbound Hmax Hps Hpl Hvbi Hlimit
      Hcount Hroom Hslots Hcap.
  - exists l, []. rewrite app_nil_r. cbn [wire_properties map concat Datatypes.length].
    repeat split; [apply rounds_refl | lia | done | lia.. | constructor | simpl; lia].
  - apply Forall_cons in Hshape as [Hx Hshape].
    apply Forall_cons in Hnext as [Hnext_x Hnext].
    rewrite wire_properties_cons, length_app in Hend.
    rewrite properties_size_cons in Hps. rewrite length_cons in Hroom.
    pose proof (wire_property_bounds x Hx) as Hwire.
    pose proof (wire_properties_bounds ps Hshape) as Hwires.
    pose proof (properties_size_nonneg ps Hshape) as Hps0.
    destruct (Hnext_x (l_vbiLength l) Hvbi Hlimit) as [Hvbi' Hlimit'].
    destruct (loop_body_wire pre (wire_properties ps ++ rest) x size l)
      as (x' & Hsame & Hbody); [done | done | lia | done | lia | lia | lia |].
    set (l1 := {| l_index := Z.of_nat (length pre) + Z.of_nat (length (wire_property x));
                  l_vbiLength := next_vbiLength x (l_vbiLength l);
                  l_status := MQTTSuccess;
                  l_properties :=
                    {| pProperties :=
                         <[Z.to_nat (count (l_properties l)) := x']>
                           (pProperties (l_properties l));
                       count := to_size_t (count (l_properties l) + 1);
                       capacity := capacity (l_properties l) |} |}) in *.
    destruct (IH (pre ++ wire_property x) rest l1) as
      (l' & ps' & Hrounds & Hindex' & Hstatus' & Hvbi1 & Hfixed & Hentries & Hall
          & Hcount' & Hcap' & Hlen');
      try done;
      try (unfold l1;
           cbn [l_index l_vbiLength l_status l_properties count capacity pProperties];
           rewrite ?length_app, ?length_insert, ?to_size_t_small by lia; lia).
    exists l', (x' :: ps').
    rewrite wire_properties_cons, <- (app_assoc (wire_property x)).
    rewrite (app_assoc pre) in Hbody |- *.
    split; [| split; [| split; [| split; [| split; [| split; [| split; [| split;
      [| split]]]]]]]].
    * eapply rounds_step; [| exact Hbody | exact Hrounds].
      unfold loop_condition. rewrite Hstatus, Hindex.
      rewrite to_size_t_small by lia.
      destruct (Z.ltb_spec (Z.of_nat (length pre)) size); [| lia].
      destruct (Z.ltb_spec (Z.of_nat (length pre))
                  (l_vbiLength l + propertiesLength)); [| lia].
      by rewrite bool_decide_eq_true_2.
    * rewrite Hindex', !length_app. lia.
    * done.
    * done.
    * intros Hfw. apply Forall_cons in Hfw as [Hfx Hfw].
      rewrite (Hfixed Hfw). unfold l1. cbn [l_vbiLength].
      by apply next_vbiLength_fixed.
    * rewrite Hentries. unfold l1. cbn [l_properties].
      rewrite entries_after_add by lia. by rewrite <- app_assoc.
    * by constructor.
    * rewrite Hcount'. unfold l1. cbn [l_properties count].
      rewrite to_size_t_small by lia. rewrite length_cons. lia.
    * done.
    * rewrite Hlen'. unfold l1. cbn [l_properties pProperties].
      by rewrite length_insert.
Qed.


(** ** The round trip *)

(** What MQTT5_GetPropertiesSize charges beyond the bytes of one property
    it charges beyond the bytes of the list. *)
Lemma size_gap (x : MQTT5Property_t) (ps : list MQTT5Property_t) :
  x ∈ ps → Forall well_shaped ps →
  charged_size x - Z.of_nat (length (wire_property x))
  ≤ properties_size ps - Z.of_nat (length (wire_properties ps)).
Proof.
  intros Hin Hshape. induction Hshape as [| y ps Hy Hshape IH]; [by inversion Hin |].
  rewrite properties_size_cons, wire_properties_cons, length_app.
  pose proof (wire_property_bounds y Hy).
  pose proof (wire_properties_bounds ps Hshape).
  apply elem_of_cons in Hin as [-> | Hin]; [lia |].
  specialize (IH Hin). lia.
Qed.

(** The limit of the deserialization loop stays at or beyond the end of
    the bytes when a Subscription Identifier assigns to [vbiLength]: the
    four bytes charged for it make up for the shorter [vbiLength]. *)
Lemma next_vbiLength_limit (x : MQTT5Property_t) (ps : list MQTT5Property_t)
    (prefix size vbiLength : Z) :
  x ∈ ps → Forall well_shaped ps →
  prefix ≤ 4 →
  size = prefix + Z.of_nat (length (wire_properties ps)) →
  0 ≤ vbiLength ≤ 4 →
  size ≤ vbiLength + properties_size ps →
  0 ≤ next_vbiLength x vbiLength ≤ 4
  ∧ size ≤ next_vbiLength x vbiLength + properties_size ps.
Proof.
  intros Hin Hshape Hprefix Hsize Hvbi Hlimit.
  pose proof (size_gap x ps Hin Hshape) as Hgap.
  assert (well_shaped x) as Hx by (by eapply Forall_forall in Hshape).
  pose proof (wire_property_length x Hx) as Hlen.
  unfold next_vbiLength, well_shaped, charged_size in *.
  destruct (switch (type x)) as [[] |], (value x); try done.
  pose proof (vbi_bytes_length 3 v). lia.
Qed.


Lemma three_properties_well_shaped : Forall well_shaped (entries three_properties).
Proof.
  repeat constructor; vm_compute; intuition discriminate.
Defined.


(** ** Properties blocks beyond the range of the length prefix *)


Lemma continues_lor (b : Z) : 0 ≤ b < 128 → continues (Z.lor b 0x80).
Proof.
  intros Hb. unfold continues.
  destruct (continuation_land b Hb) as (_ & -> & _). done.
Qed.

(** A value above 268435455 takes five bytes, the first four with the
    continuation bit. *)
Lemma vbi_bytes_long (v : Z) :
  VBI_MAX < v < 2 ^ 32 →
  ∃ b0 b1 b2 b3 b4,
    vbi_bytes 4 v = [b0; b1; b2; b3; b4]
    ∧ continues b0 ∧ continues b1 ∧ continues b2 ∧ continues b3.
Proof.
  unfold VBI_MAX. intros Hv.
  assert (∀ w, 128 ≤ w → 0 < w / 128) as Hdiv
    by (intros w Hw; apply Z.div_str_pos; lia).
  assert (∀ w d, 0 < d → d * 128 ≤ w → d ≤ w / 128) as Hle
    by (intros w d Hd Hw; apply Z.div_le_lower_bound; lia).
  pose proof (Hle v 2097152 ltac:(lia) ltac:(lia)) as H1.
  pose proof (Hle (v / 128) 16384 ltac:(lia) ltac:(lia)) as H2.
  pose proof (Hle (v / 128 / 128) 128 ltac:(lia) ltac:(lia)) as H3.
  pose proof (Hle (v / 128 / 128 / 128) 1 ltac:(lia) ltac:(lia)) as H4.
  rewrite (vbi_bytes_S 3 v).
  destruct (Z.ltb_spec 0 (v / 128)); [| lia].
  rewrite (vbi_bytes_S 2 (v / 128)).
  destruct (Z.ltb_spec 0 (v / 128 / 128)); [| lia].
  rewrite (vbi_bytes_S 1 (v / 128 / 128)).
  destruct (Z.ltb_spec 0 (v / 128 / 128 / 128)); [| lia].
  rewrite (vbi_bytes_S 0 (v / 128 / 128 / 128)).
  destruct (Z.ltb_spec 0 (v / 128 / 128 / 128 / 128)); [| lia].
  eexists _, _, _, _, _. split; [reflexivity |].
  repeat split; apply continues_lor; apply Z.mod_pos_bound; lia.
Qed.








(** ** The fuel of the loops is never used up *)

Lemma bind_OutOfFuel {A B} (m : outcome A) (k : A → outcome B) :
  m ≠ OutOfFuel → (∀ a, m = Ret a → k a ≠ OutOfFuel) → m ≫= k ≠ OutOfFuel.
Proof. destruct m as [a | f |]; simpl; intros Hm Hk; [by apply Hk | done | done]. Qed.

Lemma load_total {A} (mem : list A) (i : Z) : load mem i ≠ OutOfFuel.
Proof. unfold load. destruct (0 <=? i); [| done]. by destruct (mem !! Z.to_nat i). Qed.

Lemma store_total {A} (mem : list A) (i : Z) (x : A) : store mem i x ≠ OutOfFuel.
Proof. unfold store. by destruct ((0 <=? i) && (i <? Z.of_nat (length mem))). Qed.

Lemma decode_loop_total (pBuffer : list Z) (bufferSize : Z) :
  ∀ fuel k mult acc,
    0 ≤ k ≤ 4 → 5 - k ≤ Z.of_nat fuel →
    decode_loop fuel pBuffer bufferSize k mult acc ≠ OutOfFuel.
Proof.
  induction fuel as [| fuel IH]; intros k mult acc Hk Hfuel; [lia |].
  rewrite decode_loop_S. destruct (k >=? bufferSize); [done |].
  apply bind_OutOfFuel; [apply load_total |]. intros b _.
  rewrite to_size_t_small by lia.
  destruct (Z.ltb_spec 4 (k + 1)); [done |].
  destruct (negb (Z.land b 128 =? 0)); [| done]. apply IH; lia.
Qed.

Lemma DecodeVariableByteInteger_total (pBuffer : list Z) (bufferSize : Z) :
  MQTT5_DecodeVariableByteInteger pBuffer bufferSize ≠ OutOfFuel.
Proof. apply decode_loop_total; lia. Qed.

Lemma encode_loop_total m : ∀ v mem pBuffer k,
  0 ≤ v < 128 ^ (Z.of_nat m + 1) →
  encode_loop (S m) mem pBuffer v k ≠ OutOfFuel.
Proof.
  induction m as [| m IH]; intros v mem pBuffer k Hv; rewrite encode_loop_S; cbv zeta;
    (apply bind_OutOfFuel; [destruct pBuffer; [apply store_total | done] |]);
    intros mem' _.
  - simpl in Hv. rewrite (Z.div_small v 128) by lia. done.
  - destruct (Z.ltb_spec 0 (v / 128)); [| done]. apply IH.
    replace (Z.of_nat (S m) + 1) with (Z.succ (Z.of_nat m + 1)) in Hv by lia.
    rewrite Z.pow_succ_r in Hv by lia. split; [lia |].
    apply Z.div_lt_upper_bound; lia.
Qed.

Lemma encodeVariableByteInteger_total (mem : list Z) (pBuffer : option Z) (v : Z) :
  encodeVariableByteInteger mem pBuffer v ≠ OutOfFuel.
Proof. apply encode_loop_total, to_uint32_lt_pow. Qed.

Lemma load_uint16_total pBuffer index : load_uint16 pBuffer index ≠ OutOfFuel.
Proof.
  unfold load_uint16. apply bind_OutOfFuel; [apply load_total |]. intros hi _.
  apply bind_OutOfFuel; [apply load_total | done].
Qed.

Lemma load_uint32_total pBuffer index : load_uint32 pBuffer index ≠ OutOfFuel.
Proof.
  unfold load_uint32.
  repeat (apply bind_OutOfFuel; [apply load_total |]; intros ? _). done.
Qed.

Lemma read_value_total pBuffer size type_ index vbiLength :
  read_value pBuffer size type_ index vbiLength ≠ OutOfFuel.
Proof.
  unfold read_value. destruct (switch type_) as [[] |]; try done.
  - apply bind_OutOfFuel; [apply load_total | done].
  - apply bind_OutOfFuel; [apply load_uint16_total | done].
  - apply bind_OutOfFuel; [apply load_uint32_total | done].
  - apply bind_OutOfFuel; [apply load_uint16_total | done].
  - apply bind_OutOfFuel; [apply load_uint16_total | done].
  - apply bind_OutOfFuel; [apply load_uint16_total |]. intros kn _.
    apply bind_OutOfFuel; [apply load_uint16_total | done].
  - apply bind_OutOfFuel; [apply DecodeVariableByteInteger_total |].
    intros [n v] _. by destruct (n =? 0).
Qed.

Lemma AddProperty_total pProperties_ pProperty :
  MQTT5_AddProperty pProperties_ pProperty ≠ OutOfFuel.
Proof.
  unfold MQTT5_AddProperty. destruct pProperties_ as [p |], pProperty as [x |];
    try done.
  destruct (count p >=? capacity p); [done |].
  apply bind_OutOfFuel; [apply store_total | done].
Qed.

Lemma loop_body_total pBuffer size l : loop_body pBuffer size l ≠ OutOfFuel.
Proof.
  unfold loop_body. apply bind_OutOfFuel; [apply load_total |]. intros type_ _.
  apply bind_OutOfFuel; [apply read_value_total |]. intros [[written index] vbiLength] _.
  destruct written as [value_ |]; [| done].
  apply bind_OutOfFuel; [apply AddProperty_total |]. by intros [st op] _.
Qed.

Lemma deserialize_loop_total pBuffer size propertiesLength :
  size ≤ PTRDIFF_MAX →
  ∀ fuel l, (Z.to_nat (size - l_index l) < fuel)%nat →
    deserialize_loop fuel pBuffer size propertiesLength l ≠ OutOfFuel.
Proof.
  intros Hsize. induction fuel as [| fuel IH]; intros l Hfuel; [lia |].
  rewrite deserialize_loop_S.
  destruct (loop_condition size propertiesLength l) eqn:Hc; [| done].
  apply loop_condition_true in Hc as (Hi & _).
  apply bind_OutOfFuel; [apply loop_body_total |]. intros l' Hb.
  apply loop_body_advances in Hb; [| lia]. apply IH. lia.
Qed.

(** MQTT5_DeserializeProperties returns or faults on every buffer whose
    size an object can have. *)
Lemma DeserializeProperties_total pProperties_ pBuffer size :
  size ≤ PTRDIFF_MAX →
  MQTT5_DeserializeProperties pProperties_ pBuffer size ≠ OutOfFuel.
Proof.
  intros Hsize. unfold MQTT5_DeserializeProperties.
  destruct pProperties_ as [p |], pBuffer as [buffer |]; try done.
  apply bind_OutOfFuel; [apply DecodeVariableByteInteger_total |].
  intros [vbiLength propertiesLength] Hdec.
  destruct (Z.eqb_spec vbiLength 0) as [| Hne]; [done |].
  apply bind_OutOfFuel; [| done].
  apply deserialize_loop_total; [done |].
  apply decode_count_range in Hdec. cbn [l_index]. lia.
Qed.

Lemma memcpy_total mem dst src n : memcpy mem dst src n ≠ OutOfFuel.
Proof.
  unfold memcpy. destruct (n <=? Z.of_nat (length src)); [| done].
  by destruct ((0 <=? dst) && (0 <=? n) && (dst + n <=? Z.of_nat (length mem))).
Qed.

Lemma store_length_total pBuffer index n : store_length pBuffer index n ≠ OutOfFuel.
Proof.
  unfold store_length. apply bind_OutOfFuel; [apply store_total |].
  intros ? _. apply store_total.
Qed.

Lemma serialize_property_total pBuffer index pProp :
  serialize_property pBuffer index pProp ≠ OutOfFuel.
Proof.
  unfold serialize_property. apply bind_OutOfFuel; [apply store_total |].
  intros buf1 _.
  destruct (switch (type pProp)) as [[] |], (value pProp); try done;
    cbn [value_byte value_twoByteInteger value_fourByteInteger value_binaryData
         value_utf8String value_userProperty];
    rewrite bind_Ret;
    try (apply bind_OutOfFuel;
         [apply encodeVariableByteInteger_total | by intros [? ?] _]);
    repeat (apply bind_OutOfFuel;
            [first [apply store_total | apply store_length_total | apply memcpy_total] |];
            intros ? _);
    done.
Qed.

Lemma serialize_loop_total slots :
  ∀ n i pBuffer index status,
    serialize_loop n slots i pBuffer index status ≠ OutOfFuel.
Proof.
  induction n as [| n IH]; intros i pBuffer index status; [done |].
  rewrite serialize_loop_S. destruct (decide (status = MQTTSuccess)); [| done].
  apply bind_OutOfFuel; [apply load_total |]. intros pProp _.
  apply bind_OutOfFuel; [apply serialize_property_total |].
  intros [[st buf] idx] _. apply IH.
Qed.

Lemma add_value_size_total totalSize pProp :
  add_value_size totalSize pProp ≠ OutOfFuel.
Proof.
  unfold add_value_size.
  by destruct (switch (type pProp)) as [[] |], (value pProp).
Qed.

Lemma GetPropertiesSize_total pProperties_ :
  MQTT5_GetPropertiesSize pProperties_ ≠ OutOfFuel.
Proof.
  unfold MQTT5_GetPropertiesSize. destruct pProperties_ as [p |]; [| done].
  generalize 0 at 2. generalize 0.
  induction (Z.to_nat (count p)) as [| n IH]; intros i totalSize; [done |].
  cbn [GetPropertiesSize_loop].
  apply bind_OutOfFuel; [apply load_total |]. intros pProp _.
  apply bind_OutOfFuel; [apply add_value_size_total |]. intros ? _. apply IH.
Qed.

(** MQTT5_SerializeProperties returns or faults. *)
Lemma SerializeProperties_total pProperties_ pBuffer pSize :
  MQTT5_SerializeProperties pProperties_ pBuffer pSize ≠ OutOfFuel.
Proof.
  unfold MQTT5_SerializeProperties.
  destruct pProperties_ as [p |], pBuffer as [buffer |], pSize as [n |]; try done.
  apply bind_OutOfFuel; [apply GetPropertiesSize_total |]. intros propertiesLength _.
  apply bind_OutOfFuel; [apply encodeVariableByteInteger_total |].
  intros [buf vbiLength] _.
  apply bind_OutOfFuel; [apply serialize_loop_total |]. by intros [[st b] idx] _.
Qed.

(** ** The codec on sample inputs *)

(** C1.  MQTT5_DeserializeProperties checks the identifier byte and the
    bytes of a Subscription Identifier against [size], and no other read.
    On the two bytes 0x01 0x01 it reads the value of the Payload Format
    Indicator at index 2, past the end of the buffer.  On the three bytes
    0x05 0x11 0x00, whose declared length of 5 exceeds the buffer, it reads
    the four bytes of the Session Expiry Interval from index 2 on, past the
    end; on 0x05 0x01 0x07, with the same declared length, it returns
    MQTTSuccess. *)
Theorem deserialize_reads_unchecked :
  MQTT5_DeserializeProperties (Some (empty_collection 1)) (Some [0x01; 0x01]) 2
  = Fault OutOfBoundsRead
  ∧ MQTT5_DeserializeProperties (Some (empty_collection 1))
      (Some [0x05; 0x11; 0x00]) 3
    = Fault OutOfBoundsRead
  ∧ MQTT5_DeserializeProperties (Some (empty_collection 1))
      (Some [0x05; 0x01; 0x07]) 3
    = Ret (MQTTSuccess,
           Some {| pProperties :=
                     [{| type := MQTT5_PROPERTY_PAYLOAD_FORMAT_INDICATOR;
                         value := byte 7 |}];
                   count := 1; capacity := 1 |}).
Proof. repeat split; vm_compute; reflexivity. Qed.

(** C3.  MQTT5_GetPropertiesSize charges a Subscription Identifier five
    bytes, one for the identifier and four for the value, whatever the
    value is; for the value 5 the encoder emits one byte. *)
Theorem subscription_identifier_charged_four (v : Z) :
  MQTT5_GetPropertiesSize
    (Some {| pProperties :=
               [{| type := MQTT5_PROPERTY_SUBSCRIPTION_IDENTIFIER;
                   value := fourByteInteger v |}];
             count := 1; capacity := 1 |})
  = Ret 5
  ∧ encodeVariableByteInteger [0; 0; 0; 0] (Some 0) 5 = Ret ([5; 0; 0; 0], 1).
Proof. split; reflexivity. Qed.

(** C4.  For the collection of the one property Subscription Identifier 5
    MQTT5_SerializeProperties returns MQTTSuccess and reports 3 bytes
    written: the prefix 0x05, the identifier 0x0B and the value 0x05.  The
    prefix is one byte wide and declares a properties length of 5, so that
    prefix and declared length make 6. *)
Theorem serialize_writes_less_than_declared :
  MQTT5_SerializeProperties
    (Some {| pProperties := [subscription_identifier_5]; count := 1; capacity := 1 |})
    (Some [0; 0; 0; 0; 0; 0; 0; 0]) (Some 8)
  = Ret (MQTTSuccess, Some [0x05; 0x0B; 0x05; 0; 0; 0; 0; 0], Some 3)
  ∧ MQTT5_DecodeVariableByteInteger [0x05; 0x0B; 0x05; 0; 0; 0; 0; 0] 3
    = Ret (1, 5).
Proof. split; vm_compute; reflexivity. Qed.

Lemma three_properties_no_topic_alias (e : MQTT5Property_t) :
  e ∈ entries three_properties → type e ≠ MQTT5_PROPERTY_TOPIC_ALIAS.
Proof.
  change (entries three_properties)
    with [session_expiry_3600; user_property_k_v; subscription_identifier_300].
  rewrite !elem_of_cons, elem_of_nil.
  intros [-> | [-> | [-> | []]]]; vm_compute; discriminate.
Defined.

Lemma get_property_frame_witness :
  (count three_properties ≤ Z.of_nat (length (pProperties three_properties))
   ∧ ∀ e, e ∈ entries three_properties → type e ≠ MQTT5_PROPERTY_TOPIC_ALIAS)
  ∧ MQTT5_GetProperty_at (Some three_properties) MQTT5_PROPERTY_TOPIC_ALIAS
      (Some (Slot 1))
    = Ret (MQTTBadParameter, Some three_properties, Some (Slot 1))
  ∧ (∀ (q : MQTT5Properties_t) (type' : Z) (record : MQTT5Property_t),
       count q ≤ Z.of_nat (length (pProperties q)) →
       ∃ status record',
         MQTT5_GetProperty_at (Some q) type' (Some (Apart record))
         = Ret (status, Some q, Some (Apart record')))
  ∧ (∀ (q : MQTT5Properties_t) (type' : Z),
       MQTT5_GetProperty_at (Some q) type' None = Ret (MQTTBadParameter, Some q, None)).
Proof.
  assert (count three_properties ≤ Z.of_nat (length (pProperties three_properties)))
    as H by (simpl; lia).
  split; [split; [exact H | exact three_properties_no_topic_alias] |].
  exact (get_property_frame three_properties MQTT5_PROPERTY_TOPIC_ALIAS (Slot 1)
           H three_properties_no_topic_alias).
Defined.

(** C9, counterexample.  [three_properties] holds a user property in its
    second slot.  MQTT5_GetProperty for a user property, called with the
    output pointer at the first slot of the storage, returns MQTTSuccess
    and has assigned the second entry to the first slot: the entries of
    the collection are no longer the ones before the call. *)
Lemma get_property_frame_counterexample :
  count three_properties ≤ Z.of_nat (length (pProperties three_properties))
  ∧ MQTT5_GetProperty_at (Some three_properties) MQTT5_PROPERTY_USER_PROPERTY
      (Some (Slot 0))
    = Ret (MQTTSuccess, Some first_slot_overwritten, Some (Slot 0))
  ∧ entries first_slot_overwritten
    = [user_property_k_v; user_property_k_v; subscription_identifier_300]
  ∧ entries first_slot_overwritten ≠ entries three_properties.
Proof.
  split; [simpl; lia |]. split; [reflexivity |]. split; [reflexivity | discriminate].
Qed.

Lemma unknown_identifier_aborts_witness :
  (4 ≤ PTRDIFF_MAX
   ∧ MQTT5_DecodeVariableByteInteger unknown_identifier_block 4 = Ret (1, 3)
   ∧ rounds unknown_identifier_block 4 3 (first_round 1 (empty_collection 1))
       after_payload_format
   ∧ loop_condition 4 3 after_payload_format = true
   ∧ load unknown_identifier_block (l_index after_payload_format) = Ret 0xFE
   ∧ switch 0xFE = None)
  ∧ MQTT5_DeserializeProperties (Some (empty_collection 1))
      (Some unknown_identifier_block) 4
    = Ret (MQTTBadParameter, Some (l_properties after_payload_format)).
Proof.
  assert (4 ≤ PTRDIFF_MAX) as H1 by (unfold PTRDIFF_MAX; lia).
  assert (1 ≠ 0) as H3 by lia.
  assert (rounds unknown_identifier_block 4 3 (first_round 1 (empty_collection 1))
            after_payload_format) as H4.
  { eapply rounds_step; [reflexivity | reflexivity | apply rounds_refl]. }
  split.
  - repeat split; (exact H1 || exact H4 || reflexivity).
  - exact (unknown_identifier_aborts (empty_collection 1) unknown_identifier_block
             4 1 3 after_payload_format 0xFE H1 eq_refl H3 H4 eq_refl eq_refl
             eq_refl).
Defined.

(** ** Lookups and insertions *)

(** The loop of MQTT5_GetProperty stops at the first slot of the type. *)
Lemma GetProperty_loop_found (slots : list MQTT5Property_t) (type_ : Z)
    (status : MQTTStatus_t) (out e : MQTT5Property_t) :
  ∀ j n k,
    (j < n)%nat →
    slots !! (k + j)%nat = Some e →
    type e = type_ →
    (∀ i b, (k ≤ i < k + j)%nat → slots !! i = Some b → type b ≠ type_) →
    GetProperty_loop n slots (Z.of_nat k) type_ status out = Ret (MQTTSuccess, e).
Proof.
  induction j as [| j IH]; intros n k Hn He Hty Hne;
    (destruct n as [| n]; [lia |]); cbn [GetProperty_loop].
  - rewrite Nat.add_0_r in He. rewrite (load_lookup _ _ _ He), bind_Ret.
    by rewrite (proj2 (Z.eqb_eq _ _) Hty).
  - destruct (lookup_lt_is_Some_2 slots k) as [b Hb].
    { apply lookup_lt_Some in He. lia. }
    rewrite (load_lookup _ _ _ Hb), bind_Ret.
    destruct (Z.eqb_spec (type b) type_) as [Heq | _].
    + exfalso. apply (Hne k b); (lia || done).
    + replace (Z.of_nat k + 1) with (Z.of_nat (S k)) by lia.
      apply IH; [lia | by replace (S k + j)%nat with (k + S j)%nat by lia | done |].
      intros i b' Hi. apply Hne. lia.
Qed.

(** What a run of the loop of MQTT5_GetProperty that returns has found. *)
Lemma GetProperty_loop_inv (slots : list MQTT5Property_t) (type_ : Z)
    (status : MQTTStatus_t) (out : MQTT5Property_t) :
  ∀ n k st e,
    GetProperty_loop n slots (Z.of_nat k) type_ status out = Ret (st, e) →
    (st = MQTTSuccess
     ∧ ∃ j, (j < n)%nat ∧ slots !! (k + j)%nat = Some e ∧ type e = type_
            ∧ ∀ i b, (k ≤ i < k + j)%nat → slots !! i = Some b → type b ≠ type_)
    ∨ (st = status ∧ e = out
       ∧ ∀ i b, (k ≤ i < k + n)%nat → slots !! i = Some b → type b ≠ type_).
Proof.
  induction n as [| n IH]; intros k st e; cbn [GetProperty_loop].
  - intros [= <- <-]. right. repeat split. intros i b Hi. lia.
  - intros H. apply bind_is_Ret in H as (b & Hb & H).
    apply load_is_Ret in Hb as [_ Hb]. rewrite Nat2Z.id in Hb.
    destruct (Z.eqb_spec (type b) type_) as [Heq | Hne].
    + injection H as <- <-. left. split; [done |]. exists 0%nat.
      rewrite Nat.add_0_r. repeat split; [lia | done | done |]. intros i b' Hi. lia.
    + replace (Z.of_nat k + 1) with (Z.of_nat (S k)) in H by lia.
      apply IH in H as [(-> & j & Hj & He & Hty & Hbefore) | (-> & -> & Hnone)].
      * left. split; [done |]. exists (S j).
        replace (k + S j)%nat with (S k + j)%nat by lia.
        repeat split; [lia | done | done |].
        intros i b' Hi Hb'. destruct (decide (i = k)) as [-> | Hik].
        -- congruence.
        -- apply (Hbefore i b'); [lia | done].
      * right. repeat split.
        intros i b' Hi Hb'. destruct (decide (i = k)) as [-> | Hik].
        -- congruence.
        -- apply (Hnone i b'); [lia | done].
Qed.

(** The entries before an entry, the entry and the entries behind it. *)
Lemma entries_split (p : MQTT5Properties_t) (j : nat) (e : MQTT5Property_t) :
  (j < Z.to_nat (count p))%nat →
  pProperties p !! j = Some e →
  entries p = take j (pProperties p) ++ e :: drop (S j) (entries p).
Proof.
  intros Hj He.
  assert (entries p !! j = Some e) as Hent.
  { unfold entries. by rewrite lookup_take_lt. }
  rewrite <- (take_drop_middle _ _ _ Hent) at 1. f_equal.
  unfold entries. rewrite take_take. f_equal. lia.
Qed.

(** MQTT5_GetProperty finds the first entry of the type. *)
Lemma GetProperty_found (p : MQTT5Properties_t) (type_ : Z)
    (out e : MQTT5Property_t) (before after : list MQTT5Property_t) :
  entries p = before ++ e :: after →
  type e = type_ →
  (∀ b, b ∈ before → type b ≠ type_) →
  MQTT5_GetProperty (Some p) type_ (Some out) = Ret (MQTTSuccess, Some e).
Proof.
  intros Hent Hty Hne. unfold MQTT5_GetProperty.
  assert (∀ i x, entries p !! i = Some x → pProperties p !! i = Some x
                 ∧ (i < Z.to_nat (count p))%nat) as Hslot.
  { intros i x. unfold entries. intros Hx.
    apply lookup_take_Some in Hx. tauto. }
  assert (entries p !! length before = Some e) as He
    by (rewrite Hent; by apply list_lookup_middle).
  apply Hslot in He as [He Hlt].
  rewrite (GetProperty_loop_found _ _ _ _ e (length before) _ 0%nat); [done.. |].
  intros i b Hi Hb. apply Hne. apply list_elem_of_lookup. exists i.
  assert (entries p !! i = Some b) as Hb'.
  { unfold entries. rewrite lookup_take_lt; [done | lia]. }
  rewrite Hent in Hb'. rewrite lookup_app_l in Hb'; [done | lia].
Qed.

(** What MQTT5_GetProperty returns with MQTTSuccess is the first entry of
    the type. *)
Lemma GetProperty_inv (p : MQTT5Properties_t) (type_ : Z)
    (out e : MQTT5Property_t) :
  MQTT5_GetProperty (Some p) type_ (Some out) = Ret (MQTTSuccess, Some e) →
  ∃ before after,
    entries p = before ++ e :: after
    ∧ type e = type_
    ∧ ∀ b, b ∈ before → type b ≠ type_.
Proof.
  unfold MQTT5_GetProperty. intros H.
  apply bind_is_Ret in H as ([st e'] & Hloop & [= -> ->]).
  apply (GetProperty_loop_inv _ _ _ _ _ 0%nat) in Hloop
    as [(_ & j & Hj & He & Hty & Hbefore) | (Hst & _)]; [| done].
  cbn [Nat.add] in He.
  exists (take j (pProperties p)), (drop (S j) (entries p)).
  split; [by apply entries_split |]. split; [done |].
  intros b Hb. apply list_elem_of_lookup in Hb as [i Hi].
  apply lookup_take_Some in Hi as [Hi Hlt]. apply (Hbefore i b); [lia | done].
Qed.

(** MQTT5_AddProperty on a collection with a free slot. *)
Lemma AddProperty_room (p : MQTT5Properties_t) (x : MQTT5Property_t) :
  0 ≤ count p < capacity p →
  capacity p ≤ Z.of_nat (length (pProperties p)) →
  MQTT5_AddProperty (Some p) (Some x)
  = Ret (MQTTSuccess,
         Some {| pProperties := <[Z.to_nat (count p) := x]> (pProperties p);
                 count := to_size_t (count p + 1);
                 capacity := capacity p |}).
Proof.
  intros Hc Hcap. unfold MQTT5_AddProperty.
  destruct (Z.geb_spec (count p) (capacity p)); [lia |].
  unfold store.
  destruct (Z.leb_spec 0 (count p)); [| lia].
  destruct (Z.ltb_spec (count p) (Z.of_nat (length (pProperties p)))); [| lia].
  done.
Qed.

(** X1.  MQTT5_GetProperty returns MQTTSuccess with a property exactly when
    that property is the first entry of the requested type: the entries
    before it have other types, and an entry of the same type behind it is
    never returned. *)
Theorem get_property_first_match (p : MQTT5Properties_t) (type_ : Z)
    (out e : MQTT5Property_t) :
  MQTT5_GetProperty (Some p) type_ (Some out) = Ret (MQTTSuccess, Some e)
  ↔ ∃ before after,
      entries p = before ++ e :: after
      ∧ type e = type_
      ∧ ∀ b, b ∈ before → type b ≠ type_.
Proof.
  split; [apply GetProperty_inv |].
  intros (before & after & Hent & Hty & Hne). by eapply GetProperty_found.
Qed.

(** X2.  MQTT5_AddProperty on a collection with a free slot returns
    MQTTSuccess and appends the property: the entries are the ones before
    the call followed by the new one, the count has grown by one, the
    capacity and the size of the storage are unchanged. *)
Theorem add_property_appends (p : MQTT5Properties_t) (x : MQTT5Property_t) :
  0 ≤ count p < capacity p →
  capacity p ≤ Z.of_nat (length (pProperties p)) →
  capacity p < 2 ^ 64 →
  ∃ p',
    MQTT5_AddProperty (Some p) (Some x) = Ret (MQTTSuccess, Some p')
    ∧ entries p' = entries p ++ [x]
    ∧ count p' = count p + 1
    ∧ capacity p' = capacity p
    ∧ length (pProperties p') = length (pProperties p).
Proof.
  intros Hc Hcap Hmax. eexists. split; [by apply AddProperty_room |].
  split; [apply entries_after_add; lia |]. cbn [count capacity pProperties].
  rewrite to_size_t_small by lia. by rewrite length_insert.
Qed.

Lemma add_property_appends_witness :
  (0 ≤ count one_of_three < capacity one_of_three
   ∧ capacity one_of_three ≤ Z.of_nat (length (pProperties one_of_three))
   ∧ capacity one_of_three < 2 ^ 64)
  ∧ ∃ p',
      MQTT5_AddProperty (Some one_of_three) (Some user_property_a_b)
      = Ret (MQTTSuccess, Some p')
      ∧ entries p' = entries one_of_three ++ [user_property_a_b]
      ∧ count p' = count one_of_three + 1
      ∧ capacity p' = capacity one_of_three
      ∧ length (pProperties p') = length (pProperties one_of_three).
Proof.
  assert (0 ≤ count one_of_three < capacity one_of_three) as H1 by (simpl; lia).
  assert (capacity one_of_three ≤ Z.of_nat (length (pProperties one_of_three)))
    as H2 by (simpl; lia).
  assert (capacity one_of_three < 2 ^ 64) as H3 by (simpl; lia).
  split; [done |].
  exact (add_property_appends one_of_three user_property_a_b H1 H2 H3).
Defined.

(** X3.  A property added to a collection that has no entry of its type is
    the one MQTT5_GetProperty then returns for that type. *)
Theorem add_then_get (p : MQTT5Properties_t) (x out : MQTT5Property_t) :
  0 ≤ count p < capacity p →
  capacity p ≤ Z.of_nat (length (pProperties p)) →
  capacity p < 2 ^ 64 →
  (∀ e, e ∈ entries p → type e ≠ type x) →
  ∃ p',
    MQTT5_AddProperty (Some p) (Some x) = Ret (MQTTSuccess, Some p')
    ∧ MQTT5_GetProperty (Some p') (type x) (Some out) = Ret (MQTTSuccess, Some x).
Proof.
  intros Hc Hcap Hmax Hne. eexists. split; [by apply AddProperty_room |].
  apply (GetProperty_found _ _ _ _ (entries p) []); [| done | done].
  apply entries_after_add; lia.
Qed.

Lemma one_of_three_no_session_expiry (e : MQTT5Property_t) :
  e ∈ entries one_of_three → type e ≠ type session_expiry_3600.
Proof.
  change (entries one_of_three) with [user_property_k_v].
  rewrite !elem_of_cons, elem_of_nil.
  intros [-> | []]; vm_compute; discriminate.
Defined.

Lemma add_then_get_witness :
  (0 ≤ count one_of_three < capacity one_of_three
   ∧ capacity one_of_three ≤ Z.of_nat (length (pProperties one_of_three))
   ∧ capacity one_of_three < 2 ^ 64)
  ∧ ∃ p',
      MQTT5_AddProperty (Some one_of_three) (Some session_expiry_3600)
      = Ret (MQTTSuccess, Some p')
      ∧ MQTT5_GetProperty (Some p') (type session_expiry_3600)
          (Some user_property_k_v)
        = Ret (MQTTSuccess, Some session_expiry_3600).
Proof.
  assert (0 ≤ count one_of_three < capacity one_of_three) as H1 by (simpl; lia).
  assert (capacity one_of_three ≤ Z.of_nat (length (pProperties one_of_three)))
    as H2 by (simpl; lia).
  assert (capacity one_of_three < 2 ^ 64) as H3 by (simpl; lia).
  split; [done |].
  exact (add_then_get one_of_three session_expiry_3600 user_property_k_v H1 H2 H3
           one_of_three_no_session_expiry).
Defined.

(** X4.  What MQTT5_GetProperty finds in a collection it finds again after
    any call of MQTT5_AddProperty on it, successful or not: a property that
    is added never replaces or hides an entry of its type. *)
Theorem add_keeps_lookups (p p' : MQTT5Properties_t) (x out e : MQTT5Property_t)
    (type_ : Z) (status : MQTTStatus_t) :
  0 ≤ count p →
  capacity p < 2 ^ 64 →
  MQTT5_GetProperty (Some p) type_ (Some out) = Ret (MQTTSuccess, Some e) →
  MQTT5_AddProperty (Some p) (Some x) = Ret (status, Some p') →
  MQTT5_GetProperty (Some p') type_ (Some out) = Ret (MQTTSuccess, Some e).
Proof.
  intros Hc Hmax Hget Hadd.
  apply AddProperty_inv in Hadd as [(_ & [= <-] & _) | (_ & Hroom & Hlen & [= ->])];
    [done |].
  apply GetProperty_inv in Hget as (before & after & Hent & Hty & Hne).
  apply (GetProperty_found _ _ _ _ before (after ++ [x])); [| done | done].
  rewrite entries_after_add by lia. rewrite Hent. by rewrite <- app_assoc.
Qed.

Lemma add_keeps_lookups_witness :
  (0 ≤ count one_of_three
   ∧ capacity one_of_three < 2 ^ 64
   ∧ MQTT5_GetProperty (Some one_of_three) MQTT5_PROPERTY_USER_PROPERTY
       (Some session_expiry_3600)
     = Ret (MQTTSuccess, Some user_property_k_v)
   ∧ MQTT5_AddProperty (Some one_of_three) (Some user_property_a_b)
     = Ret (MQTTSuccess, Some two_user_properties))
  ∧ MQTT5_GetProperty (Some two_user_properties) MQTT5_PROPERTY_USER_PROPERTY
      (Some session_expiry_3600)
    = Ret (MQTTSuccess, Some user_property_k_v).
Proof.
  assert (0 ≤ count one_of_three) as H1 by (simpl; lia).
  assert (capacity one_of_three < 2 ^ 64) as H2 by (simpl; lia).
  split; [repeat split; (done || lia) |].
  exact (add_keeps_lookups one_of_three two_user_properties user_property_a_b
           session_expiry_3600 user_property_k_v MQTT5_PROPERTY_USER_PROPERTY
           MQTTSuccess H1 H2 eq_refl eq_refl).
Defined.

(** X5.  MQTT5_InitProperties with a storage and a capacity other than 0
    makes the collection empty over that storage, whatever the record and
    the storage held before: it has no entries, its properties length is 0
    and MQTT5_GetProperty finds no type in it.  With a capacity of 0 it
    returns MQTTBadParameter and leaves the record as it was. *)
Theorem init_properties_empty (old : MQTT5Properties_t)
    (buffer : list MQTT5Property_t) (capacity_ : Z) :
  (capacity_ = 0 →
   MQTT5_InitProperties (Some old) (Some buffer) capacity_
   = (MQTTBadParameter, Some old))
  ∧ (capacity_ ≠ 0 →
     ∃ c,
       MQTT5_InitProperties (Some old) (Some buffer) capacity_ = (MQTTSuccess, Some c)
       ∧ pProperties c = buffer ∧ count c = 0 ∧ capacity c = capacity_
       ∧ entries c = []
       ∧ MQTT5_GetPropertiesSize (Some c) = Ret 0
       ∧ ∀ type_ out,
           MQTT5_GetProperty (Some c) type_ (Some out)
           = Ret (MQTTBadParameter, Some out)).
Proof.
  unfold MQTT5_InitProperties. split.
  - by intros ->.
  - intros Hcap. destruct (Z.eqb_spec capacity_ 0) as [| _]; [done |].
    eexists. split; [done |]. repeat split.
Qed.

(** ** The width and the value of a Variable Byte Integer *)

Lemma vbi_bytes_width (v : Z) :
  0 ≤ v < 2 ^ 32 → Z.of_nat (length (vbi_bytes 4 v)) = vbi_width v.
Proof.
  intros Hv. unfold vbi_width.
  pose proof (Z.div_mod v 128 ltac:(lia)) as E1.
  pose proof (Z.mod_pos_bound v 128 ltac:(lia)) as R1.
  pose proof (Z.div_mod (v / 128) 128 ltac:(lia)) as E2.
  pose proof (Z.mod_pos_bound (v / 128) 128 ltac:(lia)) as R2.
  pose proof (Z.div_mod (v / 128 / 128) 128 ltac:(lia)) as E3.
  pose proof (Z.mod_pos_bound (v / 128 / 128) 128 ltac:(lia)) as R3.
  pose proof (Z.div_mod (v / 128 / 128 / 128) 128 ltac:(lia)) as E4.
  pose proof (Z.mod_pos_bound (v / 128 / 128 / 128) 128 ltac:(lia)) as R4.
  rewrite (vbi_bytes_S 3 v).
  destruct (Z.ltb_spec 0 (v / 128)); [| destruct (Z.ltb_spec v 128); [done | lia]].
  destruct (Z.ltb_spec v 128); [lia |].
  rewrite (vbi_bytes_S 2 (v / 128)).
  destruct (Z.ltb_spec 0 (v / 128 / 128));
    [| destruct (Z.ltb_spec v 16384); [done | lia]].
  destruct (Z.ltb_spec v 16384); [lia |].
  rewrite (vbi_bytes_S 1 (v / 128 / 128)).
  destruct (Z.ltb_spec 0 (v / 128 / 128 / 128));
    [| destruct (Z.ltb_spec v 2097152); [done | lia]].
  destruct (Z.ltb_spec v 2097152); [lia |].
  rewrite (vbi_bytes_S 0 (v / 128 / 128 / 128)).
  destruct (Z.ltb_spec 0 (v / 128 / 128 / 128 / 128));
    [| destruct (Z.ltb_spec v 268435456); [done | lia]].
  destruct (Z.ltb_spec v 268435456); [lia | done].
Qed.

(** Without a buffer the loop of the encoder counts the bytes. *)
Lemma encode_loop_null m : ∀ v mem k,
  0 ≤ v < 128 ^ (Z.of_nat m + 1) →
  0 ≤ k → k + Z.of_nat m + 1 < 2 ^ 64 →
  encode_loop (S m) mem None v k
  = Ret (mem, k + Z.of_nat (length (vbi_bytes m v))).
Proof.
  induction m as [| m IH]; intros v mem k Hv Hk Hk';
    rewrite encode_loop_S; cbv zeta; rewrite bind_Ret, to_size_t_small by lia.
  - simpl in Hv. rewrite (Z.div_small v 128) by lia. done.
  - rewrite vbi_bytes_S. destruct (Z.ltb_spec 0 (v / 128)) as [Hq | Hq]; [| done].
    rewrite IH; [| | lia..].
    + rewrite length_cons. do 2 f_equal. lia.
    + replace (Z.of_nat (S m) + 1) with (Z.succ (Z.of_nat m + 1)) in Hv by lia.
      rewrite Z.pow_succ_r in Hv by lia. split; [lia |].
      apply Z.div_lt_upper_bound; lia.
Qed.

(** Without room for all the bytes the loop of the encoder writes past the
    end of the buffer. *)
Lemma encode_loop_overflow m : ∀ v mem offset k,
  0 ≤ v < 128 ^ (Z.of_nat m + 1) →
  0 ≤ k → k + Z.of_nat m + 1 < 2 ^ 64 →
  Z.of_nat (length mem) < offset + k + Z.of_nat (length (vbi_bytes m v)) →
  encode_loop (S m) mem (Some offset) v k = Fault OutOfBoundsWrite.
Proof.
  induction m as [| m IH]; intros v mem offset k Hv Hk Hk' Hroom;
    rewrite encode_loop_S; cbv zeta; unfold store at 1.
  - simpl in Hroom.
    destruct (Z.leb_spec 0 (offset + k)); [| done].
    destruct (Z.ltb_spec (offset + k) (Z.of_nat (length mem))); [lia | done].
  - rewrite vbi_bytes_S in Hroom.
    destruct (Z.leb_spec 0 (offset + k)); [| done].
    destruct (Z.ltb_spec (offset + k) (Z.of_nat (length mem))); [| done].
    cbn [andb]. rewrite bind_Ret, to_size_t_small by lia.
    destruct (Z.ltb_spec 0 (v / 128)) as [Hq | Hq]; [| simpl in Hroom; lia].
    apply IH; [| lia..|].
    + replace (Z.of_nat (S m) + 1) with (Z.succ (Z.of_nat m + 1)) in Hv by lia.
      rewrite Z.pow_succ_r in Hv by lia. split; [lia |].
      apply Z.div_lt_upper_bound; lia.
    + rewrite length_insert. rewrite length_cons in Hroom. lia.
Qed.

(** encodeVariableByteInteger writes the bytes of the Variable Byte Integer
    of its argument at the pointer. *)
Lemma encode_at (mem : list Z) (offset v : Z) :
  0 ≤ offset →
  offset + Z.of_nat (length (vbi_bytes 4 (to_uint32 v))) ≤ Z.of_nat (length mem) →
  encodeVariableByteInteger mem (Some offset) v
  = Ret (take (Z.to_nat offset) mem ++ vbi_bytes 4 (to_uint32 v)
           ++ drop (Z.to_nat offset + length (vbi_bytes 4 (to_uint32 v))) mem,
         Z.of_nat (length (vbi_bytes 4 (to_uint32 v)))).
Proof.
  intros Hoffset Hroom.
  pose proof (encode_appends (take (Z.to_nat offset) mem)
                (drop (Z.to_nat offset) mem) v) as Henc.
  rewrite take_drop, length_take, length_drop in Henc.
  rewrite Nat.min_l in Henc by lia. rewrite Z2Nat.id in Henc by lia.
  rewrite Henc by lia. by rewrite <- app_assoc, drop_drop.
Qed.

(** X6.  encodeVariableByteInteger returns 1, 2, 3, 4 or 5 for a value
    below 128, 16384, 2097152, 268435456 or from there on.  Called with a
    null buffer it writes nothing and returns that count; called with a
    buffer, the count it returns is the same and the buffer keeps its
    length. *)
Theorem encode_width (mem : list Z) (v : Z) :
  encodeVariableByteInteger mem None v = Ret (mem, vbi_width (to_uint32 v))
  ∧ ∀ offset mem' n,
      encodeVariableByteInteger mem (Some offset) v = Ret (mem', n) →
      n = vbi_width (to_uint32 v) ∧ length mem' = length mem.
Proof.
  pose proof (to_uint32_range v) as Hv.
  unfold encodeVariableByteInteger. split.
  - rewrite encode_loop_null; [| apply to_uint32_lt_pow | lia | simpl; lia].
    by rewrite Z.add_0_l, vbi_bytes_width.
  - intros offset mem' n Hrun.
    apply encode_loop_room in Hrun as (-> & _ & _ & ->);
      [| apply to_uint32_lt_pow | lia | simpl; lia].
    by rewrite Z.add_0_l, vbi_bytes_width.
Qed.

(** X7.  encodeVariableByteInteger writes the bytes of the Variable Byte
    Integer of its argument at the pointer and changes no other byte of the
    buffer when the buffer has room for them; when it has not, it writes
    past the end of the buffer. *)
Theorem encode_in_place (mem : list Z) (offset v : Z) :
  0 ≤ offset ≤ Z.of_nat (length mem) →
  encodeVariableByteInteger mem (Some offset) v
  = if offset + vbi_width (to_uint32 v) <=? Z.of_nat (length mem)
    then Ret (take (Z.to_nat offset) mem ++ vbi_bytes 4 (to_uint32 v)
                ++ drop (Z.to_nat (offset + vbi_width (to_uint32 v))) mem,
              vbi_width (to_uint32 v))
    else Fault OutOfBoundsWrite.
Proof.
  intros Hoffset. pose proof (to_uint32_range v) as Hv.
  pose proof (vbi_bytes_width _ Hv) as Hwidth.
  destruct (Z.leb_spec (offset + vbi_width (to_uint32 v)) (Z.of_nat (length mem)))
    as [Hroom | Hroom].
  - rewrite encode_at by lia. rewrite Hwidth. do 5 f_equal. lia.
  - unfold encodeVariableByteInteger.
    apply encode_loop_overflow; [apply to_uint32_lt_pow | lia | simpl; lia | lia].
Qed.

Lemma encode_in_place_witness :
  0 ≤ 1 ≤ Z.of_nat (length [9; 0; 0; 0; 0])
  ∧ encodeVariableByteInteger [9; 0; 0; 0; 0] (Some 1) 300
    = Ret ([9; 0xAC; 0x02; 0; 0], 2).
Proof.
  assert (0 ≤ 1 ≤ Z.of_nat (length [9; 0; 0; 0; 0])) as H by (simpl; lia).
  split; [exact H |].
  exact (encode_in_place [9; 0; 0; 0; 0] 1 300 H).
Defined.

Lemma land_7F_range (b : Z) : 0 ≤ Z.land b 0x7F < 128.
Proof.
  change 0x7F with (Z.ones 7). rewrite Z.land_ones by lia.
  apply Z.mod_pos_bound. lia.
Qed.

Lemma vbi_value_range (bytes : list Z) :
  0 ≤ vbi_value bytes < 128 ^ Z.of_nat (length bytes).
Proof.
  induction bytes as [| b bytes IH]; [simpl; lia |].
  cbn [vbi_value]. rewrite length_cons, Nat2Z.inj_succ, Z.pow_succ_r by lia.
  pose proof (land_7F_range b). lia.
Qed.

Lemma vbi_value_snoc (bytes : list Z) (b : Z) :
  vbi_value (bytes ++ [b])
  = vbi_value bytes + 128 ^ Z.of_nat (length bytes) * Z.land b 0x7F.
Proof.
  induction bytes as [| c bytes IH]; [simpl; lia |].
  cbn [app vbi_value]. rewrite IH, length_cons, Nat2Z.inj_succ, Z.pow_succ_r by lia.
  lia.
Qed.

Lemma pow128_S (k : Z) : 0 ≤ k → 128 ^ (k + 1) = 128 ^ k * 128.
Proof. intros Hk. rewrite Z.pow_add_r by lia. lia. Qed.

Lemma pow128_low (k : Z) : 0 ≤ k ≤ 3 → 128 ^ k ≤ 2 ^ 21.
Proof. intros Hk. change (2 ^ 21) with (128 ^ 3). apply Z.pow_le_mono_r; lia. Qed.

(** The loop of the decoder on bytes with the continuation bit followed by
    a byte without it. *)
Lemma decode_loop_bytes (bufferSize : Z) : ∀ bytes pre b rest fuel acc,
  (length pre + length bytes + 1 ≤ 4)%nat →
  Z.of_nat (length pre + length bytes + 1) ≤ bufferSize →
  (length bytes < fuel)%nat →
  0 ≤ acc < 128 ^ Z.of_nat (length pre) →
  Forall continues bytes → ¬ continues b →
  decode_loop fuel (pre ++ bytes ++ b :: rest) bufferSize
    (Z.of_nat (length pre)) (128 ^ Z.of_nat (length pre)) acc
  = Ret (Z.of_nat (length pre + length bytes + 1),
         acc + 128 ^ Z.of_nat (length pre) * vbi_value (bytes ++ [b])).
Proof.
  induction bytes as [| c bytes IH];
    intros pre b rest fuel acc Hlen Hsize Hfuel Hacc Hcont Hend;
    (destruct fuel as [| fuel]; [simpl in Hfuel; lia |]);
    pose proof (pow128_bound (Z.of_nat (length pre)) ltac:(lia)) as Hpow;
    pose proof (pow128_low (Z.of_nat (length pre)) ltac:(lia)) as Hpow3;
    rewrite decode_loop_S;
    (destruct (Z.geb_spec (Z.of_nat (length pre)) bufferSize) as [Hge | _]; [lia |]);
    cbn [app]; (rewrite load_app_middle; [| done]); rewrite bind_Ret;
    rewrite to_size_t_small by lia;
    (destruct (Z.ltb_spec 4 (Z.of_nat (length pre) + 1)); [lia |]).
  - pose proof (land_7F_range b) as Hb.
    rewrite (to_uint32_small (Z.land _ _ * _)) by nia. rewrite (to_uint32_small (acc + _)) by nia.
    unfold continues in Hend.
    destruct (Z.eqb_spec (Z.land b 128) 0) as [_ | Hne]; [| by destruct Hend].
    cbn [negb vbi_value Datatypes.length]. do 2 f_equal; lia.
  - apply Forall_cons in Hcont as [Hc Hcont].
    pose proof (land_7F_range c) as Hcr.
    rewrite (to_uint32_small (Z.land _ _ * _)) by nia.
    rewrite (to_uint32_small (acc + _)) by nia.
    unfold continues in Hc.
    destruct (Z.eqb_spec (Z.land c 128) 0) as [He | _]; [done |].
    cbn [negb]. cbn [Datatypes.length] in Hlen, Hsize, Hfuel.
    assert (128 ^ Z.of_nat (length pre) * 128
            = 128 ^ Z.of_nat (length (pre ++ [c]))) as Hm.
    { rewrite length_app. cbn [Datatypes.length].
      replace (Z.of_nat (length pre + 1)) with (Z.of_nat (length pre) + 1) by lia.
      by rewrite pow128_S by lia. }
    pose proof (pow128_bound (Z.of_nat (length (pre ++ [c])))
                  ltac:(rewrite length_app; simpl; lia)) as Hpow'.
    rewrite to_uint32_small by lia. rewrite Hm.
    replace (Z.of_nat (length pre) + 1) with (Z.of_nat (length (pre ++ [c])))
      by (rewrite length_app; simpl; lia).
    replace (pre ++ c :: bytes ++ b :: rest) with ((pre ++ [c]) ++ bytes ++ b :: rest)
      by (by rewrite <- app_assoc).
    rewrite IH;
      [| try (rewrite ?length_app; cbn [Datatypes.length]; (lia || done))..].
    + f_equal. f_equal; [rewrite length_app; cbn [Datatypes.length]; lia |].
      rewrite <- Hm. cbn [app vbi_value]. lia.
    + rewrite <- Hm. nia.
Qed.

(** What the loop of the decoder has read when it returns a count other
    than 0. *)
Lemma decode_loop_inv (pBuffer : list Z) (bufferSize : Z) :
  ∀ fuel k acc n v,
    0 ≤ k ≤ 4 →
    0 ≤ acc < 128 ^ k →
    decode_loop fuel pBuffer bufferSize k (128 ^ k) acc = Ret (n, v) →
    n ≠ 0 →
    ∃ bytes b,
      take (Z.to_nat (n - k)) (drop (Z.to_nat k) pBuffer) = bytes ++ [b]
      ∧ n = k + Z.of_nat (length bytes) + 1
      ∧ n ≤ 4 ∧ n ≤ bufferSize
      ∧ Forall continues bytes ∧ ¬ continues b
      ∧ v = acc + 128 ^ k * vbi_value (bytes ++ [b]).
Proof.
  induction fuel as [| fuel IH]; intros k acc n v Hk Hacc Hrun Hn; [done |].
  rewrite decode_loop_S in Hrun.
  destruct (Z.geb_spec k bufferSize) as [Hge | Hlt]; [by inversion Hrun |].
  apply bind_is_Ret in Hrun as (c & Hload & Hrun).
  apply load_is_Ret in Hload as [_ Hc].
  rewrite to_size_t_small in Hrun by lia.
  destruct (Z.ltb_spec 4 (k + 1)) as [H4 | H4]; [by inversion Hrun |].
  pose proof (pow128_bound k ltac:(lia)) as Hpow.
  pose proof (pow128_low k ltac:(lia)) as Hpow3.
  pose proof (land_7F_range c) as Hcr.
  rewrite (to_uint32_small (Z.land _ _ * _)) in Hrun by nia.
  rewrite (to_uint32_small (acc + _)) in Hrun by nia.
  destruct (Z.eqb_spec (Z.land c 128) 0) as [Hend | Hcont]; cbn [negb] in Hrun.
  - inversion Hrun; subst n v. exists [], c.
    replace (Z.to_nat (k + 1 - k)) with 1%nat by lia.
    rewrite (take_drop_S _ _ _ _ Hc). cbn [take app Datatypes.length vbi_value].
    repeat split; [lia.. | constructor | | lia].
    unfold continues. by intros [].
  - pose proof (pow128_bound (k + 1) ltac:(lia)) as Hpow'.
    rewrite pow128_S in Hpow' by lia.
    rewrite to_uint32_small in Hrun by lia.
    rewrite <- pow128_S in Hrun by lia.
    apply IH in Hrun as (bytes & b & Htake & Hlen & Hn4 & Hsize & Hall & Hlast & Hv);
      [| lia | rewrite pow128_S by lia; nia | done].
    exists (c :: bytes), b.
    replace (Z.to_nat (n - k)) with (S (Z.to_nat (n - (k + 1)))) by lia.
    rewrite (take_drop_S _ _ _ _ Hc).
    replace (S (Z.to_nat k)) with (Z.to_nat (k + 1)) by lia.
    rewrite Htake. cbn [app Datatypes.length vbi_value].
    repeat split; [lia.. | by constructor | done |].
    rewrite Hv, pow128_S by lia. cbn [app vbi_value]. lia.
Qed.

(** X8.  MQTT5_DecodeVariableByteInteger returns a count [n] other than 0
    exactly when the first [n] bytes are in the buffer, [n] is at most 4
    and at most [bufferSize], the first [n - 1] bytes have the continuation
    bit and byte [n] has not; the value is then the one of the low seven
    bits of these bytes, the first byte the least significant. *)
Theorem decode_reads_to_terminator (pBuffer : list Z) (bufferSize n v : Z) :
  MQTT5_DecodeVariableByteInteger pBuffer bufferSize = Ret (n, v) ∧ n ≠ 0
  ↔ ∃ bytes b,
      take (Z.to_nat n) pBuffer = bytes ++ [b]
      ∧ n = Z.of_nat (length bytes) + 1
      ∧ n ≤ 4 ∧ n ≤ bufferSize
      ∧ Forall continues bytes ∧ ¬ continues b
      ∧ v = vbi_value (bytes ++ [b]).
Proof.
  unfold MQTT5_DecodeVariableByteInteger. split.
  - intros [Hrun Hn].
    apply (decode_loop_inv _ _ 5 0 0) in Hrun
      as (bytes & b & Htake & Hlen & Hn4 & Hsize & Hall & Hlast & Hv);
      [| lia | simpl; lia | done].
    exists bytes, b. rewrite Z.sub_0_r, drop_0 in Htake.
    repeat split; (done || lia).
  - intros (bytes & b & Htake & Hlen & Hn4 & Hsize & Hall & Hlast & ->).
    split; [| lia].
    rewrite <- (take_drop (Z.to_nat n) pBuffer), Htake, <- app_assoc.
    pose proof (decode_loop_bytes bufferSize bytes [] b (drop (Z.to_nat n) pBuffer)
                  5 0) as Hdec.
    cbn [app Datatypes.length Nat.add] in Hdec |- *.
    change (128 ^ Z.of_nat 0) with 1 in Hdec. change (Z.of_nat 0) with 0 in Hdec.
    rewrite Hdec; [do 2 f_equal; lia | lia.. | done | done].
Qed.

(** The decoder reads no byte at or beyond [bufferSize]. *)
Lemma decode_loop_in_bounds (pBuffer : list Z) (bufferSize : Z) :
  bufferSize ≤ Z.of_nat (length pBuffer) →
  ∀ fuel k mult acc,
    0 ≤ k ≤ 4 → 5 - k ≤ Z.of_nat fuel →
    ∃ n v, decode_loop fuel pBuffer bufferSize k mult acc = Ret (n, v).
Proof.
  intros Hsize. induction fuel as [| fuel IH]; intros k mult acc Hk Hfuel; [lia |].
  rewrite decode_loop_S.
  destruct (Z.geb_spec k bufferSize) as [Hge | Hlt]; [eauto |].
  destruct (load_in_range pBuffer k ltac:(lia)) as (b & -> & Hb). rewrite bind_Ret.
  rewrite to_size_t_small by lia.
  destruct (Z.ltb_spec 4 (k + 1)) as [H4 | H4]; [eauto |].
  destruct (negb (Z.land b 128 =? 0)); [| eauto]. apply IH; lia.
Qed.

(** X9.  MQTT5_DecodeVariableByteInteger on a buffer that holds at least
    [bufferSize] bytes reads inside the buffer and returns: the count is at
    most 4 and at most [bufferSize], and with a count other than 0 the
    value is at most 268435455. *)
Theorem decode_in_bounds (pBuffer : list Z) (bufferSize : Z) :
  0 ≤ bufferSize ≤ Z.of_nat (length pBuffer) →
  ∃ n v,
    MQTT5_DecodeVariableByteInteger pBuffer bufferSize = Ret (n, v)
    ∧ 0 ≤ n ≤ 4 ∧ n ≤ bufferSize
    ∧ (n ≠ 0 → 0 ≤ v ≤ VBI_MAX).
Proof.
  intros Hsize.
  destruct (decode_loop_in_bounds pBuffer bufferSize ltac:(lia) 5 0 1 0)
    as (n & v & Hrun); [lia.. |].
  exists n, v. split; [done |].
  destruct (decide (n = 0)) as [-> | Hn]; [lia |].
  apply (decode_loop_inv _ _ 5 0 0) in Hrun
    as (bytes & b & _ & Hlen & Hn4 & Hn' & _ & _ & ->); [| lia | simpl; lia | done].
  split; [lia |]. split; [lia |]. intros _.
  pose proof (vbi_value_range (bytes ++ [b])) as Hv.
  rewrite length_app in Hv. cbn [Datatypes.length] in Hv.
  assert (128 ^ Z.of_nat (length bytes + 1) ≤ 128 ^ 4) as Hpow
    by (apply Z.pow_le_mono_r; lia).
  unfold VBI_MAX. rewrite Z.add_0_l, Z.mul_1_l. lia.
Qed.

Lemma decode_in_bounds_witness :
  0 ≤ 3 ≤ Z.of_nat (length [0xAC; 0x02; 0x26])
  ∧ ∃ n v,
      MQTT5_DecodeVariableByteInteger [0xAC; 0x02; 0x26] 3 = Ret (n, v)
      ∧ 0 ≤ n ≤ 4 ∧ n ≤ 3
      ∧ (n ≠ 0 → 0 ≤ v ≤ VBI_MAX).
Proof.
  assert (0 ≤ 3 ≤ Z.of_nat (length [0xAC; 0x02; 0x26])) as H by (simpl; lia).
  split; [exact H |].
  exact (decode_in_bounds [0xAC; 0x02; 0x26] 3 H).
Defined.

(** X10.  MQTT5_DecodeVariableByteInteger accepts an encoding that is longer
    than needed: a value below 128 written as two bytes, the first with the
    continuation bit and the second 0, is decoded to that value.  The
    encoder writes such a value as one byte. *)
Theorem decode_accepts_overlong (v : Z) (rest : list Z) (bufferSize : Z) :
  0 ≤ v < 128 →
  2 ≤ bufferSize →
  MQTT5_DecodeVariableByteInteger (Z.lor v 0x80 :: 0 :: rest) bufferSize = Ret (2, v)
  ∧ encodeVariableByteInteger [0; 0] (Some 0) v = Ret ([v; 0], 1).
Proof.
  intros Hv Hsize. split.
  - unfold MQTT5_DecodeVariableByteInteger.
    pose proof (decode_loop_bytes bufferSize [Z.lor v 0x80] [] 0 rest 5 0) as Hdec.
    cbn [app Datatypes.length Nat.add vbi_value] in Hdec.
    change (128 ^ Z.of_nat 0) with 1 in Hdec. change (Z.of_nat 0) with 0 in Hdec.
    rewrite Hdec; [| lia.. | |].
    + destruct (continuation_land v Hv) as (-> & _). do 2 f_equal.
      change (Z.land 0 127) with 0. lia.
    + repeat constructor. by apply continues_lor.
    + unfold continues. by intros [].
  - pose proof (encode_appends [] [0; 0] v) as Henc.
    rewrite (to_uint32_small v) in Henc by lia.
    rewrite (vbi_bytes_S 3 v), (Z.div_small v 128), (Z.mod_small v 128) in Henc by lia.
    apply Henc. simpl. lia.
Qed.

Lemma decode_accepts_overlong_witness :
  (0 ≤ 5 < 128 ∧ 2 ≤ 2)
  ∧ MQTT5_DecodeVariableByteInteger [0x85; 0x00] 2 = Ret (2, 5)
  ∧ encodeVariableByteInteger [0; 0] (Some 0) 5 = Ret ([5; 0], 1).
Proof.
  assert (0 ≤ 5 < 128) as H1 by lia.
  assert (2 ≤ 2) as H2 by lia.
  split; [done |].
  exact (decode_accepts_overlong 5 [] 2 H1 H2).
Defined.

Lemma uint8_bits (b : Z) :
  0 ≤ b < 256 →
  if Z.land b 0x80 =? 0 then Z.land b 0x7F = b ∧ b < 128
  else Z.lor (Z.land b 0x7F) 0x80 = b.
Proof.
  intros Hb.
  pose proof (check_below
    (λ b, if Z.land b 0x80 =? 0 then (Z.land b 0x7F =? b) && (b <? 128)
          else Z.lor (Z.land b 0x7F) 0x80 =? b) 256 eq_refl b Hb) as H.
  cbv beta in H. destruct (Z.land b 128 =? 0).
  - apply andb_prop in H as [H1 H2]. lia.
  - lia.
Qed.

(** The encoder's bytes for the value of an encoding of least length are
    that encoding. *)
Lemma vbi_bytes_canonical : ∀ bytes b m,
  (length bytes ≤ m)%nat →
  Forall is_uint8 (bytes ++ [b]) →
  Forall continues bytes → ¬ continues b →
  bytes = [] ∨ b ≠ 0 →
  vbi_bytes m (vbi_value (bytes ++ [b])) = bytes ++ [b].
Proof.
  assert (∀ b, is_uint8 b → ¬ continues b → Z.land b 0x7F = b ∧ 0 ≤ b < 128)
    as Hlast.
  { intros b Hb Hend. pose proof (uint8_bits b Hb) as Hbits. unfold continues in Hend.
    destruct (Z.eqb_spec (Z.land b 128) 0); [| done]. unfold is_uint8 in Hb. lia. }
  induction bytes as [| c bytes IH]; intros b m Hlen Hbytes Hcont Hend Hmin.
  - cbn [app] in Hbytes. apply Forall_cons in Hbytes as [Hbytes _].
    destruct (Hlast b Hbytes Hend) as [Hb Hr].
    cbn [app vbi_value]. rewrite Hb, Z.mul_0_r, Z.add_0_r.
    destruct m as [| m]; cbn [vbi_bytes].
    + by rewrite Z.mod_small by lia.
    + rewrite (Z.div_small b 128), (Z.mod_small b 128) by lia. done.
  - destruct m as [| m]; [simpl in Hlen; lia |].
    cbn [app] in Hbytes. apply Forall_cons in Hbytes as [Hc Hbytes].
    apply Forall_cons in Hcont as [Hcc Hcont].
    destruct Hmin as [| Hb0]; [done |].
    pose proof (land_7F_range c) as Hcr.
    assert (0 < vbi_value (bytes ++ [b])) as Hpos.
    { rewrite vbi_value_snoc.
      pose proof (vbi_value_range bytes) as Hv.
      assert (is_uint8 b) as Hb.
      { apply Forall_app in Hbytes as [_ Hb]. by apply Forall_cons in Hb as [Hb _]. }
      destruct (Hlast b Hb Hend) as [-> Hr].
      assert (0 < 128 ^ Z.of_nat (length bytes)) by (apply Z.pow_pos_nonneg; lia).
      nia. }
    cbn [app vbi_value]. rewrite vbi_bytes_S.
    replace ((Z.land c 127 + 128 * vbi_value (bytes ++ [b])) / 128)
      with (vbi_value (bytes ++ [b]))
      by (apply (Z.div_unique _ 128 _ (Z.land c 127)); lia).
    replace ((Z.land c 127 + 128 * vbi_value (bytes ++ [b])) mod 128)
      with (Z.land c 127)
      by (apply (Z.mod_unique _ 128 (vbi_value (bytes ++ [b]))); lia).
    destruct (Z.ltb_spec 0 (vbi_value (bytes ++ [b]))); [| lia].
    rewrite IH; [| simpl in Hlen; lia | done..| by right].
    f_equal. pose proof (uint8_bits c Hc) as Hbits. unfold continues in Hcc.
    destruct (Z.eqb_spec (Z.land c 128) 0); done.
Qed.

(** X11.  What MQTT5_DecodeVariableByteInteger decodes from an encoding of
    least length (one byte, or a last byte other than 0),
    encodeVariableByteInteger encodes to the same bytes. *)
Theorem decode_then_encode (pBuffer : list Z) (bufferSize n v : Z)
    (mem : list Z) (offset : Z) :
  MQTT5_DecodeVariableByteInteger pBuffer bufferSize = Ret (n, v) →
  n ≠ 0 →
  Forall is_uint8 (take (Z.to_nat n) pBuffer) →
  n = 1 ∨ pBuffer !! Z.to_nat (n - 1) ≠ Some 0 →
  0 ≤ offset →
  offset + n ≤ Z.of_nat (length mem) →
  encodeVariableByteInteger mem (Some offset) v
  = Ret (take (Z.to_nat offset) mem ++ take (Z.to_nat n) pBuffer
           ++ drop (Z.to_nat (offset + n)) mem,
         n).
Proof.
  intros Hrun Hn Hbytes Hmin Hoffset Hroom.
  apply (decode_loop_inv _ _ 5 0 0) in Hrun
    as (bytes & b & Htake & Hlen & Hn4 & _ & Hcont & Hend & ->);
    [| lia | simpl; lia | done].
  rewrite Z.sub_0_r, drop_0 in Htake. rewrite Htake in *.
  rewrite Z.add_0_l, Z.mul_1_l.
  pose proof (vbi_value_range (bytes ++ [b])) as Hv.
  rewrite length_app in Hv. cbn [Datatypes.length] in Hv.
  assert (128 ^ Z.of_nat (length bytes + 1) ≤ 128 ^ 4) as Hpow
    by (apply Z.pow_le_mono_r; lia).
  assert (vbi_bytes 4 (to_uint32 (vbi_value (bytes ++ [b]))) = bytes ++ [b]) as Hcanon.
  { rewrite to_uint32_small by lia. apply vbi_bytes_canonical; [lia | done.. |].
    destruct Hmin as [-> | Hlast].
    - left. destruct bytes; [done | simpl in Hlen; lia].
    - right. intros ->. apply Hlast.
      assert (take (Z.to_nat n) pBuffer !! Z.to_nat (n - 1) = Some 0) as Hl.
      { rewrite Htake. rewrite lookup_app_r by lia.
        by replace (Z.to_nat (n - 1) - length bytes)%nat with 0%nat by lia. }
      apply lookup_take_Some in Hl. tauto. }
  rewrite encode_at;
    [| done | rewrite Hcanon, length_app; cbn [Datatypes.length]; lia].
  rewrite Hcanon, length_app. cbn [Datatypes.length].
  do 5 f_equal; lia.
Qed.

Lemma decode_then_encode_witness :
  (MQTT5_DecodeVariableByteInteger [0xAC; 0x02; 0x26] 3 = Ret (2, 300)
   ∧ 2 ≠ 0
   ∧ Forall is_uint8 (take (Z.to_nat 2) [0xAC; 0x02; 0x26])
   ∧ (2 = 1 ∨ [0xAC; 0x02; 0x26] !! Z.to_nat (2 - 1) ≠ Some 0)
   ∧ 0 ≤ 1
   ∧ 1 + 2 ≤ Z.of_nat (length [9; 0; 0; 0; 0]))
  ∧ encodeVariableByteInteger [9; 0; 0; 0; 0] (Some 1) 300
    = Ret ([9; 0xAC; 0x02; 0; 0], 2).
Proof.
  assert (2 ≠ 0) as H2 by lia.
  assert (Forall is_uint8 (take (Z.to_nat 2) [0xAC; 0x02; 0x26])) as H3
    by (repeat constructor; unfold is_uint8; lia).
  assert (2 = 1 ∨ [0xAC; 0x02; 0x26] !! Z.to_nat (2 - 1) ≠ Some 0) as H4
    by (right; discriminate).
  assert (0 ≤ 1) as H5 by lia.
  assert (1 + 2 ≤ Z.of_nat (length [9; 0; 0; 0; 0])) as H6 by (simpl; lia).
  split; [repeat split; (done || lia) |].
  exact (decode_then_encode [0xAC; 0x02; 0x26] 3 2 300 [9; 0; 0; 0; 0] 1
           eq_refl H2 H3 H4 H5 H6).
Defined.

(** X12.  encodeVariableByteInteger does not bound its argument: for a
    value above 268435455 it writes five bytes, and
    MQTT5_DecodeVariableByteInteger returns 0 on them. *)
Theorem encode_out_of_range_rejected (mem : list Z) (offset v : Z) :
  VBI_MAX < v < 2 ^ 32 →
  0 ≤ offset →
  offset + 5 ≤ Z.of_nat (length mem) →
  ∃ mem' w,
    encodeVariableByteInteger mem (Some offset) v = Ret (mem', 5)
    ∧ MQTT5_DecodeVariableByteInteger (drop (Z.to_nat offset) mem') 5 = Ret (0, w).
Proof.
  intros Hv Hoffset Hroom.
  destruct (vbi_bytes_long v Hv) as (b0 & b1 & b2 & b3 & b4 & Hbytes & H0 & H1 & H2 & H3).
  assert (to_uint32 v = v) as Hsmall
    by (apply to_uint32_small; unfold VBI_MAX in Hv; lia).
  rewrite encode_at; [| done | rewrite Hsmall, Hbytes; cbn [Datatypes.length]; lia].
  rewrite Hsmall, Hbytes. cbn [Datatypes.length].
  set (tail := drop (Z.to_nat offset + 5) mem).
  destruct (decode_loop_unterminated
              (drop (Z.to_nat offset)
                 (take (Z.to_nat offset) mem ++ [b0; b1; b2; b3; b4] ++ tail)) 5)
    with (fuel := 5%nat) (k := 0) (mult := 1) (acc := 0) as [w Hdec]; [| | lia..|].
  - rewrite length_drop, !length_app, length_take. cbn [Datatypes.length]. lia.
  - rewrite drop_app_length' by (rewrite length_take; lia).
    intros i b Hi.
    assert (i = 0 ∨ i = 1 ∨ i = 2 ∨ i = 3) as [-> | [-> | [-> | ->]]] by lia;
      cbn [app Z.to_nat Pos.to_nat Pos.iter_op Init.Nat.add lookup list_lookup];
      intros [= <-]; done.
  - eexists _, w. split; [done |]. exact Hdec.
Qed.

Lemma encode_out_of_range_rejected_witness :
  (VBI_MAX < 268435456 < 2 ^ 32
   ∧ 0 ≤ 0
   ∧ 0 + 5 ≤ Z.of_nat (length [0; 0; 0; 0; 0]))
  ∧ ∃ mem' w,
      encodeVariableByteInteger [0; 0; 0; 0; 0] (Some 0) 268435456 = Ret (mem', 5)
      ∧ MQTT5_DecodeVariableByteInteger (drop (Z.to_nat 0) mem') 5 = Ret (0, w).
Proof.
  assert (VBI_MAX < 268435456 < 2 ^ 32) as H1 by (unfold VBI_MAX; lia).
  assert (0 ≤ 0) as H2 by lia.
  assert (0 + 5 ≤ Z.of_nat (length [0; 0; 0; 0; 0])) as H3 by (simpl; lia).
  split; [done |].
  exact (encode_out_of_range_rejected [0; 0; 0; 0; 0] 0 268435456 H1 H2 H3).
Defined.

(** ** The properties length of any collection *)

Lemma charged_size_unknown x : switch (type x) = None → charged_size x = 1.
Proof. unfold charged_size. by intros ->. Qed.

Lemma chargeable_pos x : chargeable x → 1 ≤ charged_size x.
Proof.
  intros [Hx | Hx]; [apply charged_size_pos in Hx; lia |].
  by rewrite charged_size_unknown.
Qed.

Lemma chargeable_nonneg ps : Forall chargeable ps → 0 ≤ properties_size ps.
Proof.
  induction 1 as [| x ps Hx _ IH]; [done |].
  rewrite properties_size_cons. apply chargeable_pos in Hx. lia.
Qed.

Lemma add_value_size_chargeable totalSize x :
  chargeable x →
  0 ≤ totalSize → totalSize + charged_size x < 2 ^ 64 →
  add_value_size (to_size_t (totalSize + 1)) x = Ret (totalSize + charged_size x).
Proof.
  intros [Hx | Hx] H0 Hlt; [by apply add_value_size_charged |].
  rewrite charged_size_unknown in * by done.
  unfold add_value_size. rewrite Hx, to_size_t_small by lia. done.
Qed.

Lemma GetPropertiesSize_loop_chargeable (slots : list MQTT5Property_t) :
  ∀ n k totalSize,
    (k + n ≤ length slots)%nat →
    Forall chargeable (take n (drop k slots)) →
    0 ≤ totalSize →
    totalSize + properties_size (take n (drop k slots)) < 2 ^ 64 →
    GetPropertiesSize_loop n slots (Z.of_nat k) totalSize
    = Ret (totalSize + properties_size (take n (drop k slots))).
Proof.
  induction n as [| n IH]; intros k totalSize Hlen Hshape H0 Hlt.
  - simpl. f_equal. unfold properties_size. simpl. lia.
  - destruct (lookup_lt_is_Some_2 slots k) as [x Hx]; [lia |].
    rewrite (take_drop_S _ _ _ _ Hx) in *.
    apply Forall_cons in Hshape as [Hshape_x Hshape].
    rewrite properties_size_cons in *.
    pose proof (chargeable_pos x Hshape_x).
    pose proof (chargeable_nonneg _ Hshape).
    cbn [GetPropertiesSize_loop].
    rewrite (load_lookup _ _ _ Hx), bind_Ret.
    rewrite add_value_size_chargeable by (done || lia). rewrite bind_Ret.
    replace (Z.of_nat k + 1) with (Z.of_nat (S k)) by lia.
    rewrite IH by (done || lia). f_equal. lia.
Qed.

(** X13.  MQTT5_GetPropertiesSize returns the sum, over the entries of the
    collection, of one byte for the identifier and of the width of the
    value: 1, 2 or 4 bytes for an integer, 2 bytes and the length for a
    string or binary data, 2 bytes and the length twice for a user
    property, 4 bytes for a Subscription Identifier, and nothing for a type
    that is no property identifier.  For a null collection it returns 0. *)
Theorem get_properties_size_sum (c : MQTT5Properties_t) :
  count c ≤ Z.of_nat (length (pProperties c)) →
  Forall chargeable (entries c) →
  properties_size (entries c) < 2 ^ 64 →
  MQTT5_GetPropertiesSize (Some c) = Ret (properties_size (entries c))
  ∧ MQTT5_GetPropertiesSize None = Ret 0.
Proof.
  intros Hcount Hshape Hlt. split; [| done].
  unfold MQTT5_GetPropertiesSize, entries in *.
  rewrite <- (drop_0 (pProperties c)) in Hshape, Hlt |- * at 2.
  rewrite (GetPropertiesSize_loop_chargeable _ _ 0%nat 0); (done || lia).
Qed.

Lemma with_unknown_type_chargeable : Forall chargeable (entries with_unknown_type).
Proof.
  change (entries with_unknown_type)
    with [session_expiry_3600; unknown_type_property; user_property_k_v].
  apply Forall_cons_2; [| apply Forall_cons_2; [| apply Forall_cons_2; [| done]]].
  - left. vm_compute. intuition discriminate.
  - right. reflexivity.
  - left. vm_compute. intuition discriminate.
Defined.

Lemma get_properties_size_sum_witness :
  (count with_unknown_type ≤ Z.of_nat (length (pProperties with_unknown_type))
   ∧ Forall chargeable (entries with_unknown_type)
   ∧ properties_size (entries with_unknown_type) < 2 ^ 64)
  ∧ MQTT5_GetPropertiesSize (Some with_unknown_type) = Ret 13
  ∧ MQTT5_GetPropertiesSize None = Ret 0.
Proof.
  assert (count with_unknown_type ≤ Z.of_nat (length (pProperties with_unknown_type)))
    as H1 by (simpl; lia).
  assert (properties_size (entries with_unknown_type) < 2 ^ 64)
    as H3 by (vm_compute; reflexivity).
  split; [repeat split; (exact with_unknown_type_chargeable || done) |].
  exact (get_properties_size_sum with_unknown_type H1 with_unknown_type_chargeable H3).
Defined.

(** ** The room MQTT5_SerializeProperties needs *)

(** But for a Subscription Identifier the bytes of a property are as many
    as MQTT5_GetPropertiesSize charges. *)
Lemma wire_properties_exact ps :
  Forall well_shaped ps → Forall fixed_width ps →
  Z.of_nat (length (wire_properties ps)) = properties_size ps.
Proof.
  induction 1 as [| x ps Hx _ IH]; [done |].
  intros Hfixed. apply Forall_cons in Hfixed as [Hfx Hfixed].
  rewrite wire_properties_cons, properties_size_cons, length_app, Nat2Z.inj_add.
  rewrite IH by done. f_equal.
  rewrite (wire_property_length x Hx). unfold fixed_width in Hfx.
  by destruct (switch (type x)) as [[] |], (value x).
Qed.



(** ** Buffers that are too small *)

Lemma overruns_bind {A B} (m : outcome A) (k : A → outcome B) :
  returns_or_overruns m →
  (∀ a, m = Ret a → returns_or_overruns (k a)) →
  returns_or_overruns (m ≫= k).
Proof.
  intros [[a ->] | ->] Hk; [by apply Hk | by right].
Qed.

Lemma overruns_Ret {A} (a : A) : returns_or_overruns (Ret a).
Proof. left. eauto. Qed.

Lemma overruns_store {A} (mem : list A) (i : Z) (x : A) :
  returns_or_overruns (store mem i x).
Proof.
  unfold store. destruct ((0 <=? i) && (i <? Z.of_nat (length mem)));
    [apply overruns_Ret | by right].
Qed.

Lemma overruns_memcpy mem dst src n :
  n ≤ Z.of_nat (length src) → returns_or_overruns (memcpy mem dst src n).
Proof.
  intros Hn. unfold memcpy. destruct (Z.leb_spec n (Z.of_nat (length src))); [| lia].
  destruct ((0 <=? dst) && (0 <=? n) && (dst + n <=? Z.of_nat (length mem)));
    [apply overruns_Ret | by right].
Qed.

Lemma overruns_store_length pBuffer index n :
  returns_or_overruns (store_length pBuffer index n).
Proof.
  unfold store_length. apply overruns_bind; [apply overruns_store |].
  intros mem _. apply overruns_store.
Qed.

Lemma overruns_encode_loop m : ∀ v mem offset k,
  0 ≤ v < 128 ^ (Z.of_nat m + 1) →
  returns_or_overruns (encode_loop (S m) mem (Some offset) v k).
Proof.
  induction m as [| m IH]; intros v mem offset k Hv; rewrite encode_loop_S; cbv zeta;
    (apply overruns_bind; [apply overruns_store |]); intros mem' _.
  - simpl in Hv. rewrite (Z.div_small v 128) by lia. apply overruns_Ret.
  - destruct (Z.ltb_spec 0 (v / 128)); [| apply overruns_Ret].
    apply IH.
    replace (Z.of_nat (S m) + 1) with (Z.succ (Z.of_nat m + 1)) in Hv by lia.
    rewrite Z.pow_succ_r in Hv by lia. split; [lia |].
    apply Z.div_lt_upper_bound; lia.
Qed.

Lemma overruns_encode mem offset v :
  returns_or_overruns (encodeVariableByteInteger mem (Some offset) v).
Proof. apply overruns_encode_loop, to_uint32_lt_pow. Qed.

(** Writing a property that respects the shape invariant reads no member
    of the union but the stored one, and no byte beyond the lengths. *)
Lemma overruns_serialize_property pBuffer index x :
  well_shaped x → returns_or_overruns (serialize_property pBuffer index x).
Proof.
  intros Hx. unfold serialize_property.
  apply overruns_bind; [apply overruns_store |]. intros buf1 _.
  unfold well_shaped, is_uint16 in Hx.
  destruct (switch (type x)) as [[] |], (value x); try done;
    cbn [value_byte value_twoByteInteger value_fourByteInteger value_binaryData
         value_utf8String value_userProperty];
    rewrite bind_Ret;
    repeat first
      [ apply overruns_Ret
      | apply overruns_bind;
        [ first [ apply overruns_store | apply overruns_store_length
                | apply overruns_memcpy; lia | apply overruns_encode ]
        | intros ? _ ]
      | match goal with |- returns_or_overruns (let '(_, _) := ?p in _) =>
          destruct p end ].
Qed.

Lemma overruns_serialize_loop (slots : list MQTT5Property_t) :
  ∀ n k pBuffer index status,
    (k + n ≤ length slots)%nat →
    Forall well_shaped (take n (drop k slots)) →
    returns_or_overruns (serialize_loop n slots (Z.of_nat k) pBuffer index status).
Proof.
  induction n as [| n IH]; intros k pBuffer index status Hlen Hshape;
    [apply overruns_Ret |].
  rewrite serialize_loop_S. destruct (decide (status = MQTTSuccess)); [| apply overruns_Ret].
  destruct (lookup_lt_is_Some_2 slots k) as [x Hx]; [lia |].
  rewrite (take_drop_S _ _ _ _ Hx) in Hshape.
  apply Forall_cons in Hshape as [Hshape_x Hshape].
  rewrite (load_lookup _ _ _ Hx), bind_Ret.
  apply overruns_bind; [by apply overruns_serialize_property |].
  intros [[st buf] index'] _.
  replace (Z.of_nat k + 1) with (Z.of_nat (S k)) by lia.
  apply IH; [lia | done].
Qed.

(** X15.  MQTT5_SerializeProperties does not know the size of its buffer:
    whatever [*pSize] holds on entry, with a buffer shorter than the
    properties block it writes past the end of the buffer. *)
Theorem serialize_overruns_short_buffer (c : MQTT5Properties_t) (buffer : list Z)
    (pSize : Z) :
  0 ≤ count c ≤ Z.of_nat (length (pProperties c)) →
  Forall well_shaped (entries c) →
  properties_size (entries c) < 2 ^ 32 →
  (length buffer < length (wire_block (entries c)))%nat →
  MQTT5_SerializeProperties (Some c) (Some buffer) (Some pSize)
  = Fault OutOfBoundsWrite.
Proof.
  intros Hcount Hshape Hsize Hshort.
  assert (returns_or_overruns
            (MQTT5_SerializeProperties (Some c) (Some buffer) (Some pSize)))
    as [[[[st ob] os] Hret] | Hfault]; [| | done].
  { unfold MQTT5_SerializeProperties.
    pose proof (properties_size_nonneg _ Hshape).
    rewrite GetPropertiesSize_charged by (done || lia). rewrite bind_Ret.
    apply overruns_bind; [apply overruns_encode |]. intros [buf1 vbiLength] _.
    apply overruns_bind.
    - change 0 with (Z.of_nat 0) at 1. apply overruns_serialize_loop; [lia |].
      by rewrite drop_0.
    - intros [[st1 buf2] index2] _. apply overruns_Ret. }
  exfalso.
  assert (∃ buffer' written, ob = Some buffer' ∧ os = Some written)
    as (buffer' & written & -> & ->).
  { unfold MQTT5_SerializeProperties in Hret.
    apply bind_is_Ret in Hret as (n & _ & Hret).
    apply bind_is_Ret in Hret as ([buf1 vbiLength] & _ & Hret).
    apply bind_is_Ret in Hret as ([[st1 buf2] index2] & _ & [= _ <- <-]). eauto. }
  apply SerializeProperties_writes in Hret as (_ & -> & _ & Hfit); [| done..].
  lia.
Qed.

Lemma serialize_overruns_short_buffer_witness :
  (0 ≤ count three_properties ≤ Z.of_nat (length (pProperties three_properties))
   ∧ Forall well_shaped (entries three_properties)
   ∧ properties_size (entries three_properties) < 2 ^ 32
   ∧ (length (replicate 15 0) < length (wire_block (entries three_properties)))%nat)
  ∧ MQTT5_SerializeProperties (Some three_properties) (Some (replicate 15 0))
      (Some 24)
    = Fault OutOfBoundsWrite.
Proof.
  assert (0 ≤ count three_properties ≤ Z.of_nat (length (pProperties three_properties)))
    as H1 by (simpl; lia).
  assert (properties_size (entries three_properties) < 2 ^ 32)
    as H3 by (vm_compute; reflexivity).
  assert (length (replicate 15 0) < length (wire_block (entries three_properties)))%nat
    as H4 by (vm_compute; lia).
  split; [repeat split; (exact three_properties_well_shaped || done || lia) |].
  exact (serialize_overruns_short_buffer three_properties (replicate 15 0) 24 H1
           three_properties_well_shaped H3 H4).
Defined.

(** ** A property of unknown type *)






(** ** Properties blocks with bytes behind them *)


(** MQTT5_DeserializeProperties on a properties block: the size is the
    length of the block, or the block has no Subscription Identifier and
    the size covers it. *)
Lemma DeserializeProperties_block (ps : list MQTT5Property_t)
    (out : MQTT5Properties_t) (trailer : list Z) (size : Z) :
  Forall well_shaped ps →
  Forall fixed_width ps ∨ size = Z.of_nat (length (wire_block ps)) →
  properties_size ps ≤ VBI_MAX →
  Z.of_nat (length (wire_block ps)) ≤ size < 2 ^ 62 →
  0 ≤ count out →
  count out + Z.of_nat (length ps) ≤ capacity out →
  capacity out ≤ Z.of_nat (length (pProperties out)) →
  capacity out < 2 ^ 64 →
  ∃ c' ps',
    MQTT5_DeserializeProperties (Some out) (Some (wire_block ps ++ trailer)) size
    = Ret (MQTTSuccess, Some c')
    ∧ entries c' = entries out ++ ps'
    ∧ Forall2 same_property ps ps'
    ∧ count c' = count out + Z.of_nat (length ps)
    ∧ capacity c' = capacity out
    ∧ length (pProperties c') = length (pProperties out).
Proof.
  unfold VBI_MAX. intros Hshape Hend Hsize Hfit Hcount Hroom Hslots Hcap.
  pose proof (properties_size_nonneg _ Hshape) as Hsize0.
  pose proof (wire_properties_bounds _ Hshape) as Hwires.
  unfold wire_block in *.
  rewrite vbi_bytes_short in * by (unfold VBI_MAX; lia).
  set (PL := properties_size ps) in *.
  pose proof (vbi_bytes_length 3 PL) as Hvl.
  rewrite length_app in Hfit, Hend.
  set (bound := Z.of_nat (length (vbi_bytes 3 PL))
                + Z.of_nat (length (wire_properties ps))).
  destruct (rounds_wire_part size PL bound ps (vbi_bytes 3 PL) trailer
              (first_round (Z.of_nat (length (vbi_bytes 3 PL))) out))
    as (l' & ps' & Hrounds & Hindex & Hstatus & _ & Hvbi & Hentries & Hsame & Hcount'
           & Hcap' & Hlen');
    try done; unfold bound; cbn [first_round l_index l_vbiLength l_status l_properties];
    try lia.
  { apply Forall_forall. intros x Hx vbiLength Hvbi Hlimit.
    by apply (next_vbiLength_limit x ps (Z.of_nat (length (vbi_bytes 3 PL)))); try lia. }
  exists (l_properties l'), ps'. split; [| done].
  unfold MQTT5_DeserializeProperties.
  rewrite <- app_assoc.
  rewrite decode_vbi by (unfold VBI_MAX; lia). rewrite bind_Ret.
  destruct (Z.eqb_spec (Z.of_nat (length (vbi_bytes 3 PL))) 0) as [| _]; [lia |].
  rewrite (rounds_fuel _ _ _ _ l'); [by rewrite bind_Ret, Hstatus | | | |].
  - unfold PTRDIFF_MAX. lia.
  - exact Hrounds.
  - unfold loop_condition. rewrite Hindex.
    destruct Hend as [Hfixed | Hexact].
    + rewrite (Hvbi Hfixed). cbn [first_round l_vbiLength].
      rewrite (wire_properties_exact _ Hshape Hfixed). fold PL.
      rewrite to_size_t_small by lia. by rewrite Z.ltb_irrefl, andb_false_r.
    + replace size with (Z.of_nat (length (vbi_bytes 3 PL))
                         + Z.of_nat (length (wire_properties ps))) by lia.
      by rewrite Z.ltb_irrefl.
  - cbn [l_index]. lia.
Qed.

(** X17.  MQTT5_DeserializeProperties reads the properties of a block that
    is followed by other bytes, as the properties of a packet are: given a
    block without Subscription Identifier, any bytes behind it, a size
    that covers the block and a collection with a free slot for every
    property of the block, it returns MQTTSuccess and appends the
    properties of the block, in their order, to the entries the collection
    has; the bytes behind the block are not parsed. *)
Theorem deserialize_stops_at_declared_length (ps : list MQTT5Property_t)
    (out : MQTT5Properties_t) (trailer : list Z) (size : Z) :
  Forall well_shaped ps →
  Forall fixed_width ps →
  properties_size ps ≤ VBI_MAX →
  Z.of_nat (length (wire_block ps)) ≤ size < 2 ^ 62 →
  0 ≤ count out →
  count out + Z.of_nat (length ps) ≤ capacity out →
  capacity out ≤ Z.of_nat (length (pProperties out)) →
  capacity out < 2 ^ 64 →
  ∃ c' ps',
    MQTT5_DeserializeProperties (Some out) (Some (wire_block ps ++ trailer)) size
    = Ret (MQTTSuccess, Some c')
    ∧ entries c' = entries out ++ ps'
    ∧ Forall2 same_property ps ps'
    ∧ count c' = count out + Z.of_nat (length ps)
    ∧ capacity c' = capacity out.
Proof.
  intros Hshape Hfixed Hsize Hfit Hcount Hroom Hslots Hcap.
  destruct (DeserializeProperties_block ps out trailer size)
    as (c' & ps' & Hrun & Hentries & Hsame & Hcount' & Hcap' & _); try done; [by left |].
  by exists c', ps'.
Qed.

Lemma two_fixed_properties_well_shaped : Forall well_shaped two_fixed_properties.
Proof.
  apply Forall_cons_2; [| apply Forall_cons_2; [| done]];
    vm_compute; intuition discriminate.
Defined.

Lemma two_fixed_properties_fixed : Forall fixed_width two_fixed_properties.
Proof.
  apply Forall_cons_2; [| apply Forall_cons_2; [| done]]; vm_compute; discriminate.
Defined.

Lemma deserialize_stops_at_declared_length_witness :
  (Forall well_shaped two_fixed_properties
   ∧ Forall fixed_width two_fixed_properties
   ∧ properties_size two_fixed_properties ≤ VBI_MAX
   ∧ Z.of_nat (length (wire_block two_fixed_properties)) ≤ 15 < 2 ^ 62
   ∧ 0 ≤ count one_of_three
   ∧ count one_of_three + Z.of_nat (length two_fixed_properties)
     ≤ capacity one_of_three
   ∧ capacity one_of_three ≤ Z.of_nat (length (pProperties one_of_three))
   ∧ capacity one_of_three < 2 ^ 64)
  ∧ ∃ c' ps',
      MQTT5_DeserializeProperties (Some one_of_three)
        (Some (wire_block two_fixed_properties ++ [0x0B; 0x05])) 15
      = Ret (MQTTSuccess, Some c')
      ∧ entries c' = entries one_of_three ++ ps'
      ∧ Forall2 same_property two_fixed_properties ps'
      ∧ count c' = count one_of_three + Z.of_nat (length two_fixed_properties)
      ∧ capacity c' = capacity one_of_three.
Proof.
  assert (properties_size two_fixed_properties ≤ VBI_MAX)
    as H3 by (vm_compute; discriminate).
  assert (Z.of_nat (length (wire_block two_fixed_properties)) ≤ 15 < 2 ^ 62)
    as H4 by (vm_compute; split; [discriminate | reflexivity]).
  assert (0 ≤ count one_of_three) as H5 by (simpl; lia).
  assert (count one_of_three + Z.of_nat (length two_fixed_properties)
          ≤ capacity one_of_three) as H6 by (simpl; lia).
  assert (capacity one_of_three ≤ Z.of_nat (length (pProperties one_of_three)))
    as H7 by (simpl; lia).
  assert (capacity one_of_three < 2 ^ 64) as H8 by (simpl; lia).
  split.
  - repeat split;
      (exact two_fixed_properties_well_shaped || exact two_fixed_properties_fixed
       || done || lia).
  - exact (deserialize_stops_at_declared_length two_fixed_properties one_of_three
             [0x0B; 0x05] 15 two_fixed_properties_well_shaped
             two_fixed_properties_fixed H3 H4 H5 H6 H7 H8).
Defined.

(** One round of the deserialization loop on the bytes of a property when
    the collection is full. *)
Lemma loop_body_wire_full (pre rest : list Z) (x : MQTT5Property_t) (size : Z)
    (l : locals) :
  well_shaped x →
  l_index l = Z.of_nat (length pre) →
  Z.of_nat (length pre) + Z.of_nat (length (wire_property x)) ≤ size →
  size < 2 ^ 62 → charged_size x < 2 ^ 62 →
  capacity (l_properties l) ≤ count (l_properties l) →
  loop_body (pre ++ wire_property x ++ rest) size l
  = Ret {| l_index := Z.of_nat (length pre) + Z.of_nat (length (wire_property x));
           l_vbiLength := next_vbiLength x (l_vbiLength l);
           l_status := MQTTNoMemory;
           l_properties := l_properties l |}.
Proof.
  intros Hx Hindex Hsize Hmax Hcharged Hfull.
  pose proof (wire_property_bounds x Hx) as Hwire.
  destruct (read_value_wire pre rest x size (Z.of_nat (length pre) + 1)
              (l_vbiLength l) Hx eq_refl ltac:(lia) ltac:(lia))
    as (value' & Hread & Hsame).
  unfold loop_body. rewrite Hindex.
  assert (load (pre ++ wire_property x ++ rest) (Z.of_nat (length pre))
          = Ret (type x)) as ->.
  { destruct (wire_property_head x) as [bytes ->]. by apply load_app_middle. }
  rewrite bind_Ret, to_size_t_small by lia.
  rewrite Hread, bind_Ret.
  unfold MQTT5_AddProperty.
  destruct (Z.geb_spec (count (l_properties l)) (capacity (l_properties l)));
    [done | lia].
Qed.

Lemma properties_size_app ps qs :
  properties_size (ps ++ qs) = properties_size ps + properties_size qs.
Proof.
  induction ps as [| x ps IH]; [done |].
  cbn [app]. rewrite !properties_size_cons, IH. lia.
Qed.

Lemma wire_properties_app ps qs :
  wire_properties (ps ++ qs) = wire_properties ps ++ wire_properties qs.
Proof. unfold wire_properties. by rewrite map_app, concat_app. Qed.

(** X18.  MQTT5_DeserializeProperties on a properties block without
    Subscription Identifier that holds more properties than the collection
    has free slots returns MQTTNoMemory; the collection is then full and
    holds, behind the entries it had, the properties of the block that
    found a slot, in their order. *)
Theorem deserialize_stops_when_full (ps : list MQTT5Property_t)
    (out : MQTT5Properties_t) (trailer : list Z) (free : nat) :
  Forall well_shaped ps →
  Forall fixed_width ps →
  properties_size ps ≤ VBI_MAX →
  0 ≤ count out →
  count out + Z.of_nat free = capacity out →
  (free < length ps)%nat →
  capacity out ≤ Z.of_nat (length (pProperties out)) →
  capacity out < 2 ^ 64 →
  ∃ c' ps',
    MQTT5_DeserializeProperties (Some out) (Some (wire_block ps ++ trailer))
      (Z.of_nat (length (wire_block ps)))
    = Ret (MQTTNoMemory, Some c')
    ∧ entries c' = entries out ++ ps'
    ∧ Forall2 same_property (take free ps) ps'
    ∧ count c' = capacity out
    ∧ capacity c' = capacity out.
Proof.
  unfold VBI_MAX. intros Hshape _ Hsize Hcount Hfree Hmore Hslots Hcap.
  pose proof (properties_size_nonneg _ Hshape) as Hsize0.
  pose proof (wire_properties_bounds _ Hshape) as Hwires.
  unfold wire_block in *.
  rewrite vbi_bytes_short in * by (unfold VBI_MAX; lia).
  pose proof (vbi_bytes_length 3 (properties_size ps)) as Hvl.
  rewrite length_app.
  remember (properties_size ps) as PL eqn:HPL.
  remember (vbi_bytes 3 PL) as prefix eqn:Hprefix.
  remember (Z.of_nat (length prefix + length (wire_properties ps))) as size eqn:Hsz.
  (* the properties that find a slot, the first that does not, the others *)
  destruct (lookup_lt_is_Some_2 ps free Hmore) as [x Hx].
  pose proof (take_drop_middle ps free x Hx) as Hsplit.
  remember (take free ps) as fit eqn:Hfit_def.
  remember (drop (S free) ps) as others eqn:Hothers.
  assert (length fit = free) as Hfit_len
    by (rewrite Hfit_def, length_take; lia).
  assert (Forall well_shaped fit ∧ well_shaped x ∧ Forall well_shaped others)
    as (Hfit & Hshape_x & Hothers_shape).
  { rewrite <- Hsplit in Hshape. apply Forall_app in Hshape as [? Hshape].
    by apply Forall_cons in Hshape as [? ?]. }
  pose proof (properties_size_nonneg _ Hfit) as Hfit0.
  pose proof (properties_size_nonneg _ Hothers_shape) as Hothers0.
  pose proof (charged_size_pos _ Hshape_x) as Hx0.
  pose proof (wire_property_bounds _ Hshape_x) as Hwire_x.
  assert (PL = properties_size fit + (charged_size x + properties_size others))
    as Hsum by (rewrite HPL, <- Hsplit, properties_size_app, properties_size_cons; lia).
  assert (wire_properties ps
          = wire_properties fit ++ wire_property x ++ wire_properties others) as Hwire
    by (by rewrite <- Hsplit, wire_properties_app, wire_properties_cons).
  assert (Z.of_nat (length (wire_properties ps))
          = Z.of_nat (length (wire_properties fit))
            + Z.of_nat (length (wire_property x))
            + Z.of_nat (length (wire_properties others))) as Hwire_len
    by (rewrite Hwire, !length_app; lia).
  destruct (rounds_wire_part size PL size fit prefix
              (wire_property x ++ wire_properties others ++ trailer)
              (first_round (Z.of_nat (length prefix)) out))
    as (l1 & ps' & Hrounds & Hindex & Hstatus & [Hvbi Hlimit] & _ & Hentries & Hsame
           & Hcount' & Hcap' & _);
    try done; cbn [first_round l_index l_vbiLength l_status l_properties];
    try lia.
  { apply Forall_forall. intros y Hy vbiLength Hvbi Hlimit.
    rewrite HPL in Hlimit |- *.
    apply (next_vbiLength_limit y ps (Z.of_nat (length prefix))); try (done || lia).
    rewrite <- Hsplit. apply elem_of_app. by left. }
  cbn [first_round l_properties] in Hentries, Hcount', Hcap'.
  set (l2 := {| l_index := Z.of_nat (length (prefix ++ wire_properties fit))
                           + Z.of_nat (length (wire_property x));
                l_vbiLength := next_vbiLength x (l_vbiLength l1);
                l_status := MQTTNoMemory;
                l_properties := l_properties l1 |}).
  assert (loop_body ((prefix ++ wire_properties fit)
                       ++ wire_property x ++ wire_properties others ++ trailer)
            size l1 = Ret l2) as Hbody.
  { apply loop_body_wire_full; rewrite ?length_app; (done || lia). }
  exists (l_properties l1), ps'. split; [| by rewrite Hcount', Hfit_len].
  unfold MQTT5_DeserializeProperties.
  rewrite Hwire, <- !app_assoc.
  pose proof (f_equal length Hprefix) as Hprefix_len.
  rewrite Hprefix at 1. rewrite decode_vbi by (unfold VBI_MAX; lia).
  rewrite <- Hprefix, bind_Ret.
  destruct (Z.eqb_spec (Z.of_nat (length prefix)) 0) as [| _]; [lia |].
  rewrite <- !app_assoc in Hbody.
  rewrite (rounds_fuel _ _ _ _ l2); [by rewrite bind_Ret | | | |].
  - unfold PTRDIFF_MAX. lia.
  - eapply rounds_snoc; [exact Hrounds | | exact Hbody].
    unfold loop_condition. rewrite Hstatus, Hindex.
    rewrite to_size_t_small by lia.
    destruct (Z.ltb_spec (Z.of_nat (length prefix)
                          + Z.of_nat (length (wire_properties fit))) size); [| lia].
    destruct (Z.ltb_spec (Z.of_nat (length prefix)
                          + Z.of_nat (length (wire_properties fit)))
                (l_vbiLength l1 + PL)); [| lia].
    by rewrite bool_decide_eq_true_2.
  - by apply loop_condition_status.
  - cbn [first_round l_index]. lia.
Qed.

Lemma deserialize_stops_when_full_witness :
  (Forall well_shaped two_fixed_properties
   ∧ Forall fixed_width two_fixed_properties
   ∧ properties_size two_fixed_properties ≤ VBI_MAX
   ∧ 0 ≤ count two_of_three
   ∧ count two_of_three + Z.of_nat 1 = capacity two_of_three
   ∧ (1 < length two_fixed_properties)%nat
   ∧ capacity two_of_three ≤ Z.of_nat (length (pProperties two_of_three))
   ∧ capacity two_of_three < 2 ^ 64)
  ∧ ∃ c' ps',
      MQTT5_DeserializeProperties (Some two_of_three)
        (Some (wire_block two_fixed_properties ++ []))
        (Z.of_nat (length (wire_block two_fixed_properties)))
      = Ret (MQTTNoMemory, Some c')
      ∧ entries c' = entries two_of_three ++ ps'
      ∧ Forall2 same_property (take 1 two_fixed_properties) ps'
      ∧ count c' = capacity two_of_three
      ∧ capacity c' = capacity two_of_three.
Proof.
  assert (properties_size two_fixed_properties ≤ VBI_MAX)
    as H3 by (vm_compute; discriminate).
  assert (0 ≤ count two_of_three) as H4 by (simpl; lia).
  assert (count two_of_three + Z.of_nat 1 = capacity two_of_three)
    as H5 by reflexivity.
  assert (1 < length two_fixed_properties)%nat as H6 by (simpl; lia).
  assert (capacity two_of_three ≤ Z.of_nat (length (pProperties two_of_three)))
    as H7 by (simpl; lia).
  assert (capacity two_of_three < 2 ^ 64) as H8 by (simpl; lia).
  split.
  - repeat split;
      (exact two_fixed_properties_well_shaped || exact two_fixed_properties_fixed
       || done || lia).
  - exact (deserialize_stops_when_full two_fixed_properties two_of_three [] 1
             two_fixed_properties_well_shaped two_fixed_properties_fixed H3 H4 H5 H6
             H7 H8).
Defined.

(** ** Blocks without properties *)

(** X19.  MQTT5_DeserializeProperties returns MQTTBadParameter and leaves
    the collection as it was when the length prefix is not complete: the
    input is empty, or all of its bytes, or its first four, have the
    continuation bit. *)
Theorem deserialize_rejects_bad_prefix (p : MQTT5Properties_t) (pBuffer : list Z)
    (size : Z) :
  size ≤ Z.of_nat (length pBuffer) →
  (∀ i b, 0 ≤ i < Z.min size 4 → pBuffer !! Z.to_nat i = Some b → continues b) →
  MQTT5_DeserializeProperties (Some p) (Some pBuffer) size
  = Ret (MQTTBadParameter, Some p).
Proof.
  intros Hsize Hcont. unfold MQTT5_DeserializeProperties, MQTT5_DecodeVariableByteInteger.
  destruct (decode_loop_unterminated pBuffer size Hsize Hcont 5 0 1 0) as [v ->];
    [lia.. |].
  done.
Qed.

Lemma truncated_prefix_continues (i b : Z) :
  0 ≤ i < Z.min 2 4 → [0x80; 0x80] !! Z.to_nat i = Some b → continues b.
Proof.
  intros Hi.
  assert (i = 0 ∨ i = 1) as [-> | ->] by lia; intros [= <-]; by vm_compute.
Defined.

Lemma deserialize_rejects_bad_prefix_witness :
  2 ≤ Z.of_nat (length [0x80; 0x80])
  ∧ MQTT5_DeserializeProperties (Some one_of_three) (Some [0x80; 0x80]) 2
    = Ret (MQTTBadParameter, Some one_of_three).
Proof.
  assert (2 ≤ Z.of_nat (length [0x80; 0x80])) as H by (simpl; lia).
  split; [exact H |].
  exact (deserialize_rejects_bad_prefix one_of_three [0x80; 0x80] 2 H
           truncated_prefix_continues).
Defined.

(** X20.  MQTT5_DeserializeProperties on a block whose length prefix
    declares a properties length of 0 returns MQTTSuccess and leaves the
    collection as it was, whatever bytes follow the prefix. *)
Theorem deserialize_empty_block (p : MQTT5Properties_t) (pBuffer : list Z)
    (size vbiLength : Z) :
  MQTT5_DecodeVariableByteInteger pBuffer size = Ret (vbiLength, 0) →
  vbiLength ≠ 0 →
  MQTT5_DeserializeProperties (Some p) (Some pBuffer) size
  = Ret (MQTTSuccess, Some p).
Proof.
  intros Hdec Hn. unfold MQTT5_DeserializeProperties. rewrite Hdec, bind_Ret.
  apply decode_count_range in Hdec.
  destruct (Z.eqb_spec vbiLength 0) as [| _]; [done |].
  rewrite deserialize_loop_S. unfold loop_condition. cbn [l_index l_vbiLength].
  rewrite Z.add_0_r, to_size_t_small by lia.
  by rewrite Z.ltb_irrefl, andb_false_r.
Qed.

Lemma deserialize_empty_block_witness :
  (MQTT5_DecodeVariableByteInteger [0x00; 0x11; 0x00; 0x00; 0x0E; 0x10] 6 = Ret (1, 0)
   ∧ 1 ≠ 0)
  ∧ MQTT5_DeserializeProperties (Some one_of_three)
      (Some [0x00; 0x11; 0x00; 0x00; 0x0E; 0x10]) 6
    = Ret (MQTTSuccess, Some one_of_three).
Proof.
  assert (1 ≠ 0) as H by lia.
  split; [split; [reflexivity | exact H] |].
  exact (deserialize_empty_block one_of_three [0x00; 0x11; 0x00; 0x00; 0x0E; 0x10] 6 1
           eq_refl H).
Defined.

(** ** Writing again what was read *)






(** ** Values that are not copied *)

Lemma read_value_borrows pBuffer size type_ index vbiLength value_ index' vbiLength' :
  read_value pBuffer size type_ index vbiLength = Ret (Some value_, index', vbiLength') →
  borrows pBuffer value_.
Proof.
  unfold read_value. intros H.
  destruct (switch type_) as [[] |]; try done;
    repeat match type of H with
           | (_ ≫= _) = Ret _ => apply bind_is_Ret in H as (? & _ & H)
           | (let '(_, _) := ?p in _) = Ret _ => destruct p
           | (if ?c then _ else _) = Ret _ => destruct c
           end;
    first [discriminate H | injection H as <- _ _; cbn [borrows]; eauto].
Qed.

Lemma wire_sequence_borrows pBuffer size index vbiLength parsed :
  wire_sequence pBuffer size index vbiLength parsed →
  Forall (λ e, borrows pBuffer (value e)) parsed.
Proof.
  induction 1 as [| index vbiLength type_ value_ index' vbiLength' ps _ Hread _ IH];
    [done |].
  constructor; [| done]. cbn [value]. by eapply read_value_borrows.
Qed.

(** X22.  MQTT5_DeserializeProperties copies no string and no binary data:
    in every property it appends, the pointers of a string, of binary data
    and of the key and the value of a user property point into the input
    buffer. *)
Theorem deserialize_borrows (p p' : MQTT5Properties_t) (pBuffer : list Z)
    (size : Z) (status : MQTTStatus_t) :
  capacity p < 2 ^ 64 →
  MQTT5_DeserializeProperties (Some p) (Some pBuffer) size = Ret (status, Some p') →
  ∃ parsed,
    entries p' = entries p ++ parsed
    ∧ Forall (λ e, borrows pBuffer (value e)) parsed.
Proof.
  intros Hcap Hrun. unfold MQTT5_DeserializeProperties in Hrun.
  apply bind_is_Ret in Hrun as ([vbiLength propertiesLength] & Hdec & Hrun).
  destruct (vbiLength =? 0).
  - injection Hrun as _ <-. exists []. by rewrite app_nil_r.
  - apply bind_is_Ret in Hrun as (l & Hloop & [= _ <-]).
    apply deserialize_loop_rounds in Hloop as [Hr _].
    apply rounds_append in Hr as (parsed & Hseq & Hent & _); [| done].
    exists parsed. split; [done |]. by eapply wire_sequence_borrows.
Qed.

Lemma deserialize_borrows_witness :
  (capacity (empty_collection 1) < 2 ^ 64
   ∧ MQTT5_DeserializeProperties (Some (empty_collection 1))
       (Some user_property_block) 8
     = Ret (MQTTSuccess, Some borrowed_user_property))
  ∧ ∃ parsed,
      entries borrowed_user_property = entries (empty_collection 1) ++ parsed
      ∧ Forall (λ e, borrows user_property_block (value e)) parsed.
Proof.
  assert (capacity (empty_collection 1) < 2 ^ 64) as H1 by (simpl; lia).
  split; [split; [exact H1 | reflexivity] |].
  exact (deserialize_borrows (empty_collection 1) borrowed_user_property
           user_property_block 8 MQTTSuccess H1 eq_refl).
Defined.

(** ** The properties MQTT5_DeserializeProperties appends *)

Lemma slice_app (pBuffer : list Z) (index a b : Z) :
  0 ≤ index → 0 ≤ a → 0 ≤ b →
  slice pBuffer index (a + b) = slice pBuffer index a ++ slice pBuffer (index + a) b.
Proof.
  intros Hi Ha Hb. unfold slice.
  rewrite !Z2Nat.inj_add by lia. by rewrite <- take_take_drop, drop_drop.
Qed.

Lemma slice_1 (pBuffer : list Z) (index b : Z) :
  load pBuffer index = Ret b → slice pBuffer index 1 = [b].
Proof.
  intros H. apply load_is_Ret in H as [_ H]. unfold slice.
  change (Z.to_nat 1) with 1%nat. rewrite (take_drop_S _ _ _ _ H). done.
Qed.

Lemma load_byte (pBuffer : list Z) (index b : Z) :
  Forall is_uint8 pBuffer → load pBuffer index = Ret b →
  0 ≤ b < 256 ∧ 0 ≤ index < Z.of_nat (length pBuffer).
Proof.
  intros Hall H. apply load_is_Ret in H as [Hi H].
  pose proof (lookup_lt_Some _ _ _ H).
  apply (Forall_lookup_1 _ _ _ _ Hall) in H. unfold is_uint8 in H. lia.
Qed.

Lemma load_uint16_inv (pBuffer : list Z) (index v : Z) :
  Forall is_uint8 pBuffer → Z.of_nat (length pBuffer) ≤ PTRDIFF_MAX →
  load_uint16 pBuffer index = Ret v →
  slice pBuffer index 2 = wire_length v ∧ 0 ≤ v < 2 ^ 16
  ∧ index + 2 ≤ Z.of_nat (length pBuffer).
Proof.
  unfold PTRDIFF_MAX. intros Hall Hi H. unfold load_uint16 in H.
  apply bind_is_Ret in H as (hi & Hhi & H). apply bind_is_Ret in H as (lo & Hlo & H).
  pose proof (load_byte _ _ _ Hall Hhi) as [Hhir Hir].
  rewrite to_size_t_small in Hlo by lia.
  pose proof (load_byte _ _ _ Hall Hlo) as [Hlor Hir'].
  rewrite Z.shiftl_mul_pow2, lor_disjoint, to_uint16_small in H by lia.
  injection H as <-.
  change 2 with (1 + 1) at 1. rewrite slice_app by lia.
  rewrite (slice_1 _ _ _ Hhi), (slice_1 _ _ _ Hlo). unfold wire_length.
  change (2 ^ 8) with 256.
  replace ((hi * 256 + lo) / 256) with hi by (apply (Z.div_unique _ _ _ lo); lia).
  replace ((hi * 256 + lo) mod 256) with lo
    by (apply (Z.mod_unique _ _ hi); lia).
  repeat split; (done || lia).
Qed.

Lemma load_uint32_inv (pBuffer : list Z) (index v : Z) :
  Forall is_uint8 pBuffer → Z.of_nat (length pBuffer) ≤ PTRDIFF_MAX →
  load_uint32 pBuffer index = Ret v →
  slice pBuffer index 4
  = [v / 2 ^ 24; (v / 2 ^ 16) mod 256; (v / 2 ^ 8) mod 256; v mod 256]
  ∧ index + 4 ≤ Z.of_nat (length pBuffer).
Proof.
  unfold PTRDIFF_MAX. intros Hall Hi H. unfold load_uint32 in H.
  apply bind_is_Ret in H as (b0 & H0 & H). apply bind_is_Ret in H as (b1 & H1 & H).
  apply bind_is_Ret in H as (b2 & H2 & H). apply bind_is_Ret in H as (b3 & H3 & H).
  pose proof (load_byte _ _ _ Hall H0) as [Hr0 Hir].
  rewrite to_size_t_small in H1, H2, H3 by lia.
  pose proof (load_byte _ _ _ Hall H1) as [Hr1 _].
  pose proof (load_byte _ _ _ Hall H2) as [Hr2 _].
  pose proof (load_byte _ _ _ Hall H3) as [Hr3 Hi3].
  rewrite !Z.shiftl_mul_pow2 in H by lia.
  rewrite !to_uint32_small in H by lia.
  rewrite (lor_disjoint b0 _ 24) in H by lia.
  replace (b0 * 2 ^ 24 + b1 * 2 ^ 16) with ((b0 * 2 ^ 8 + b1) * 2 ^ 16) in H by lia.
  rewrite (lor_disjoint _ _ 16) in H by lia.
  replace ((b0 * 2 ^ 8 + b1) * 2 ^ 16 + b2 * 2 ^ 8)
    with (((b0 * 2 ^ 8 + b1) * 2 ^ 8 + b2) * 2 ^ 8) in H by lia.
  rewrite (lor_disjoint _ _ 8) in H by lia.
  injection H as <-.
  change 4 with (1 + (1 + (1 + 1))) at 1. rewrite !slice_app by lia.
  rewrite (slice_1 _ _ _ H0), (slice_1 _ _ _ H1).
  replace (index + 1 + 1) with (index + 2) by lia.
  rewrite (slice_1 _ _ _ H2).
  replace (index + 2 + 1) with (index + 3) by lia.
  rewrite (slice_1 _ _ _ H3). cbn [app].
  set (v := ((b0 * 2 ^ 8 + b1) * 2 ^ 8 + b2) * 2 ^ 8 + b3).
  assert (v mod 256 = b3) as ->
    by (symmetry; apply (Z.mod_unique _ _ ((b0 * 2 ^ 8 + b1) * 2 ^ 8 + b2));
        unfold v; lia).
  assert (v / 2 ^ 8 = (b0 * 2 ^ 8 + b1) * 2 ^ 8 + b2) as ->
    by (symmetry; apply (Z.div_unique _ _ _ b3); unfold v; lia).
  assert (((b0 * 2 ^ 8 + b1) * 2 ^ 8 + b2) mod 256 = b2) as ->
    by (symmetry; apply (Z.mod_unique _ _ (b0 * 2 ^ 8 + b1)); lia).
  assert (v / 2 ^ 16 = b0 * 2 ^ 8 + b1) as ->
    by (symmetry; apply (Z.div_unique _ _ _ (b2 * 2 ^ 8 + b3)); unfold v; lia).
  assert ((b0 * 2 ^ 8 + b1) mod 256 = b1) as ->
    by (symmetry; apply (Z.mod_unique _ _ b0); lia).
  assert (v / 2 ^ 24 = b0) as ->
    by (symmetry; apply (Z.div_unique _ _ _ ((b1 * 2 ^ 8 + b2) * 2 ^ 8 + b3));
        unfold v; lia).
  split; [done | lia].
Qed.

(** What the [switch] reads at [index + 1] after the identifier at [index]
    is the value of a property on the wire at [index]. *)
Lemma read_value_property_at (pBuffer : list Z) (size type_ index vbiLength : Z)
    (value_ : MQTT5PropertyValue) (index' vbiLength' : Z) :
  Forall is_uint8 pBuffer →
  Z.of_nat (length pBuffer) ≤ PTRDIFF_MAX →
  index < size < 2 ^ 64 →
  load pBuffer index = Ret type_ →
  read_value pBuffer size type_ (to_size_t (index + 1)) vbiLength
  = Ret (Some value_, index', vbiLength') →
  property_at pBuffer size index {| type := type_; value := value_ |} (index' - index)
  ∧ vbiLength' = width_after {| type := type_; value := value_ |} (index' - index)
                   vbiLength
  ∧ index < index'
  ∧ (0 ≤ vbiLength ≤ 4 → 0 ≤ vbiLength' ≤ 4).
Proof.
  intros Hall Hlen Hsize Hload Hread.
  pose proof (load_byte _ _ _ Hall Hload) as [Htype Hindex].
  pose proof (slice_1 _ _ _ Hload) as Hid.
  assert (index < 2 ^ 63) as Hindex' by (unfold PTRDIFF_MAX in Hlen; lia).
  rewrite to_size_t_small in Hread by lia.
  unfold read_value in Hread. unfold property_at, width_after.
  cbn [type value].
  destruct (switch type_) as [[] |] eqn:Hswitch.
  - apply bind_is_Ret in Hread as (b & Hb & [= <- <- <-]).
    pose proof (load_byte _ _ _ Hall Hb) as [_ Hi1].
    rewrite to_size_t_small by lia.
    replace (index + 1 + 1 - index) with (1 + 1) by lia.
    rewrite slice_app, Hid, (slice_1 _ _ _ Hb) by lia.
    repeat split; (done || lia).
  - apply bind_is_Ret in Hread as (v & Hv & [= <- <- <-]).
    apply load_uint16_inv in Hv as (Hv & Hvr & Hi2); [| done..].
    unfold PTRDIFF_MAX in Hlen. rewrite to_size_t_small by lia.
    replace (index + 1 + 2 - index) with (1 + 2) by lia.
    rewrite slice_app, Hid, Hv by lia.
    repeat split; (done || lia).
  - apply bind_is_Ret in Hread as (v & Hv & [= <- <- <-]).
    apply load_uint32_inv in Hv as (Hv & Hi4); [| done..].
    unfold PTRDIFF_MAX in Hlen. rewrite to_size_t_small by lia.
    replace (index + 1 + 4 - index) with (1 + 4) by lia.
    rewrite slice_app, Hid, Hv by lia.
    repeat split; (done || lia).
  - apply bind_is_Ret in Hread as (n & Hn & [= <- <- <-]).
    apply load_uint16_inv in Hn as (Hn & Hnr & Hi2); [| done..].
    unfold PTRDIFF_MAX in Hlen.
    rewrite (to_size_t_small (index + 1 + 2)) by lia. rewrite to_size_t_small by lia.
    change (slice pBuffer index 3) with (slice pBuffer index (1 + 2)).
    rewrite slice_app, Hid, Hn by lia.
    replace (index + 1 + 2) with (index + 3) by lia.
    repeat split; (done || lia).
  - apply bind_is_Ret in Hread as (n & Hn & [= <- <- <-]).
    apply load_uint16_inv in Hn as (Hn & Hnr & Hi2); [| done..].
    unfold PTRDIFF_MAX in Hlen.
    rewrite (to_size_t_small (index + 1 + 2)) by lia. rewrite to_size_t_small by lia.
    change (slice pBuffer index 3) with (slice pBuffer index (1 + 2)).
    rewrite slice_app, Hid, Hn by lia.
    replace (index + 1 + 2) with (index + 3) by lia.
    repeat split; (done || lia).
  - apply bind_is_Ret in Hread as (kn & Hkn & Hread).
    apply load_uint16_inv in Hkn as (Hkn & Hknr & Hi2); [| done..].
    unfold PTRDIFF_MAX in Hlen.
    rewrite (to_size_t_small (index + 1 + 2)) in Hread by lia.
    apply bind_is_Ret in Hread as (wn & Hwn & [= <- <- <-]).
    pose proof Hwn as Hwn'. unfold load_uint16 in Hwn'.
    apply bind_is_Ret in Hwn' as (hi & Hhi & _).
    apply load_byte in Hhi as [_ Hhi]; [| done].
    rewrite (to_size_t_small (index + 1 + 2 + kn)) in Hhi, Hwn |- * by lia.
    apply load_uint16_inv in Hwn as (Hwn & Hwnr & Hi4);
      [| done | unfold PTRDIFF_MAX; lia].
    rewrite (to_size_t_small (index + 1 + 2 + kn + 2)) by lia.
    rewrite to_size_t_small by lia.
    change (slice pBuffer index 3) with (slice pBuffer index (1 + 2)).
    rewrite slice_app, Hid, Hkn by lia.
    replace (index + 1 + 2) with (index + 3) in * by lia.
    replace (index + 3 + kn + 2) with (index + 5 + kn) by lia.
    repeat split; (done || lia).
  - apply bind_is_Ret in Hread as ([n v] & Hdec & Hread).
    destruct (Z.eqb_spec n 0) as [| Hn]; [discriminate |].
    injection Hread as <- <- <-.
    rewrite (to_size_t_small (size - (index + 1))) in Hdec by lia.
    apply (decode_loop_inv _ _ 5 0 0) in Hdec
      as (bytes & b & Htake & Hn' & Hn4 & Hbound & Hcont & Hend & Hv);
      [| lia | simpl; lia | done].
    rewrite to_size_t_small by lia.
    split; [| lia].
    exists bytes, b.
    replace (index + 1 + n - index) with (1 + n) by lia.
    rewrite slice_app, Hid by lia. unfold slice.
    rewrite Z.sub_0_r, drop_0 in Htake. rewrite Htake.
    repeat split; (done || lia).
  - discriminate.
Qed.

Lemma slice_prefix (pBuffer : list Z) (index n : Z) (bytes : list Z) :
  slice pBuffer index n = bytes →
  ∃ rest, drop (Z.to_nat index) pBuffer = bytes ++ rest.
Proof.
  unfold slice. intros <-.
  exists (drop (Z.to_nat n) (drop (Z.to_nat index) pBuffer)). by rewrite take_drop.
Qed.

Lemma wire_length_inj (v v' : Z) : wire_length v = wire_length v' → v = v'.
Proof.
  unfold wire_length. intros [= Hdiv Hmod].
  rewrite (Z.div_mod v 256), (Z.div_mod v' 256) by lia. by rewrite Hdiv, Hmod.
Qed.

Lemma wire_length_cons_inj (t v v' : Z) :
  t :: wire_length v = t :: wire_length v' → v = v'.
Proof. intros H. apply wire_length_inj. congruence. Qed.

(** Bytes with the continuation bit and a byte without it are found in
    one way at the start of a sequence of bytes. *)
Lemma terminated_unique (bytes bytes' : list Z) (b b' : Z) (rest rest' : list Z) :
  Forall continues bytes → ¬ continues b →
  Forall continues bytes' → ¬ continues b' →
  bytes ++ b :: rest = bytes' ++ b' :: rest' →
  bytes = bytes' ∧ b = b'.
Proof.
  intros Hall Hb. revert bytes'.
  induction Hall as [| c bytes Hc _ IH]; intros [| c' bytes'] Hall' Hb' Heq;
    cbn [app] in Heq; injection Heq as -> Heq.
  - done.
  - apply Forall_cons in Hall' as [Hc' _]. done.
  - done.
  - apply Forall_cons in Hall' as [_ Hall'].
    destruct (IH bytes' Hall' Hb' Heq) as [-> ->]. done.
Qed.

Lemma property_at_head (pBuffer : list Z) (size index : Z) (x : MQTT5Property_t)
    (n : Z) :
  property_at pBuffer size index x n →
  ∃ rest, drop (Z.to_nat index) pBuffer = type x :: rest.
Proof.
  unfold property_at.
  destruct (switch (type x)) as [[] |], (value x); try done.
  - intros [_ H]. apply slice_prefix in H as [rest ->]. eauto.
  - intros [_ H]. apply slice_prefix in H as [rest ->]. eauto.
  - intros [_ H]. apply slice_prefix in H as [rest ->]. eauto.
  - intros (_ & H & _). apply slice_prefix in H as [rest ->]. eauto.
  - intros (_ & H & _). apply slice_prefix in H as [rest ->]. eauto.
  - intros (_ & H & _). apply slice_prefix in H as [rest ->]. eauto.
  - intros (bytes & b & _ & _ & _ & H & _). apply slice_prefix in H as [rest ->]. eauto.
Qed.

(** What is on the wire at an index is one property: two properties that
    are there have the same type, equal values and the same width. *)
Lemma property_at_same (pBuffer : list Z) (size index : Z) (x y : MQTT5Property_t)
    (n m : Z) :
  property_at pBuffer size index x n →
  property_at pBuffer size index y m →
  same_property x y ∧ n = m.
Proof.
  intros Hx Hy.
  assert (type x = type y) as Htype.
  { apply property_at_head in Hx as [rest Hx], Hy as [rest' Hy]. congruence. }
  unfold same_property. split; [split; [done |] |];
    unfold property_at in Hx, Hy; rewrite <- Htype in Hy;
    destruct (switch (type x)) as [[] |], (value x), (value y); try done;
    cbn [same_value].
  - destruct Hx as [-> Hx], Hy as [-> Hy]. congruence.
  - destruct Hx as [-> Hx], Hy as [-> Hy]. rewrite Hx in Hy.
    by apply wire_length_cons_inj in Hy.
  - destruct Hx as [-> Hx], Hy as [-> Hy]. rewrite Hx in Hy.
    injection Hy as H24 H16 H8 H0.
    pose proof (Z.div_mod v 256 ltac:(lia)).
    pose proof (Z.div_mod v0 256 ltac:(lia)).
    pose proof (Z.div_mod (v / 2 ^ 8) 256 ltac:(lia)).
    pose proof (Z.div_mod (v0 / 2 ^ 8) 256 ltac:(lia)).
    pose proof (Z.div_mod (v / 2 ^ 16) 256 ltac:(lia)).
    pose proof (Z.div_mod (v0 / 2 ^ 16) 256 ltac:(lia)).
    assert (∀ u, u / 2 ^ 8 / 256 = u / 2 ^ 16) as Hd1
      by (intros u; rewrite Z.div_div by lia; done).
    assert (∀ u, u / 2 ^ 16 / 256 = u / 2 ^ 24) as Hd2
      by (intros u; rewrite Z.div_div by lia; done).
    rewrite !Hd1, !Hd2 in *. change (2 ^ 8) with 256 in *. lia.
  - destruct Hx as (_ & Hx & Hs), Hy as (_ & Hy & Hs'). rewrite Hx in Hy.
    apply wire_length_cons_inj in Hy as <-. split; congruence.
  - destruct Hx as (_ & Hx & Hs), Hy as (_ & Hy & Hs'). rewrite Hx in Hy.
    apply wire_length_cons_inj in Hy as <-. split; congruence.
  - destruct Hx as (_ & Hx & Hk & Hxw & Hw), Hy as (_ & Hy & Hk' & Hyw & Hw').
    rewrite Hx in Hy. apply wire_length_cons_inj in Hy as <-.
    rewrite Hxw in Hyw. apply wire_length_inj in Hyw as <-.
    repeat split; congruence.
  - destruct Hx as (bytes & b & _ & _ & _ & Hx & Hall & Hb & ->),
      Hy as (bytes' & b' & _ & _ & _ & Hy & Hall' & Hb' & ->).
    apply slice_prefix in Hx as [rest Hx], Hy as [rest' Hy].
    rewrite Hx in Hy. cbn [app] in Hy. injection Hy as Hy.
    rewrite <- !app_assoc in Hy. cbn [app] in Hy.
    by destruct (terminated_unique _ _ _ _ _ _ Hall Hb Hall' Hb' Hy) as [-> ->].
  - destruct Hx as [-> Hx], Hy as [-> Hy]. done.
  - destruct Hx as [-> Hx], Hy as [-> Hy]. done.
  - destruct Hx as [-> Hx], Hy as [-> Hy]. done.
  - destruct Hx as (-> & Hx & Hs), Hy as (-> & Hy & Hs'). rewrite Hx in Hy.
    by apply wire_length_cons_inj in Hy as <-.
  - destruct Hx as (-> & Hx & Hs), Hy as (-> & Hy & Hs'). rewrite Hx in Hy.
    by apply wire_length_cons_inj in Hy as <-.
  - destruct Hx as (-> & Hx & Hk & Hxw & Hw), Hy as (-> & Hy & Hk' & Hyw & Hw').
    rewrite Hx in Hy. apply wire_length_cons_inj in Hy as <-.
    rewrite Hxw in Hyw. by apply wire_length_inj in Hyw as <-.
  - destruct Hx as (bytes & b & -> & _ & _ & Hx & Hall & Hb & _),
      Hy as (bytes' & b' & -> & _ & _ & Hy & Hall' & Hb' & _).
    apply slice_prefix in Hx as [rest Hx], Hy as [rest' Hy].
    rewrite Hx in Hy. cbn [app] in Hy. injection Hy as Hy.
    rewrite <- !app_assoc in Hy. cbn [app] in Hy.
    by destruct (terminated_unique _ _ _ _ _ _ Hall Hb Hall' Hb' Hy) as [-> ->].
Qed.

Lemma width_after_fixed (x : MQTT5Property_t) (n width : Z) :
  fixed_width x → width_after x n width = width.
Proof.
  unfold fixed_width, width_after. by destruct (switch (type x)) as [[] |].
Qed.

(** The properties laid out from an index up to the limit or to the end
    of the input are determined by the buffer. *)
Lemma laid_out_unique (pBuffer : list Z) (size propertiesLength : Z)
    (index width : Z) (ps qs : list MQTT5Property_t) (i1 w1 i2 w2 : Z) :
  laid_out pBuffer size propertiesLength index width ps i1 w1 →
  laid_out pBuffer size propertiesLength index width qs i2 w2 →
  size ≤ i1 ∨ w1 + propertiesLength ≤ i1 →
  size ≤ i2 ∨ w2 + propertiesLength ≤ i2 →
  Forall2 same_property ps qs ∧ i1 = i2 ∧ w1 = w2.
Proof.
  intros Hps. revert qs.
  induction Hps as [index width | index width x n ps i1 w1 Hindex Hlimit Hx _ IH];
    intros qs Hqs Hend1 Hend2;
    inversion Hqs as [| ? ? y m qs' ? ? Hindex' Hlimit' Hy Hqs']; subst.
  - done.
  - lia.
  - lia.
  - destruct (property_at_same _ _ _ _ _ _ _ Hx Hy) as [Hsame <-].
    assert (width_after y n width = width_after x n width) as Hwidth
      by (unfold width_after; by destruct Hsame as [<- _]).
    rewrite Hwidth in Hqs'.
    destruct (IH qs' Hqs' Hend1 Hend2) as (Hall & <- & <-).
    repeat split; [by constructor | done..].
Qed.

(** The properties a run of the loop appends are the ones laid out in the
    buffer from [index] on, and the entries there were stay. *)
Lemma rounds_laid_out (pBuffer : list Z) (size propertiesLength : Z) (l l' : locals) :
  Forall is_uint8 pBuffer →
  Z.of_nat (length pBuffer) ≤ PTRDIFF_MAX →
  size < 2 ^ 64 →
  0 ≤ propertiesLength < 2 ^ 32 →
  rounds pBuffer size propertiesLength l l' →
  capacity (l_properties l) < 2 ^ 64 →
  0 ≤ l_vbiLength l ≤ 4 →
  ∃ parsed index width,
    laid_out pBuffer size propertiesLength (l_index l) (l_vbiLength l) parsed index width
    ∧ entries (l_properties l') = entries (l_properties l) ++ parsed
    ∧ count (l_properties l') = count (l_properties l) + Z.of_nat (length parsed)
    ∧ capacity (l_properties l') = capacity (l_properties l)
    ∧ (l_status l' = MQTTSuccess → index = l_index l' ∧ width = l_vbiLength l')
    ∧ (Forall fixed_width parsed → width = l_vbiLength l)
    ∧ 0 ≤ width ≤ 4.
Proof.
  intros Hall Hlen Hsize Hdeclared.
  assert (∀ l0 l1 : locals,
            (l_status l1 = MQTTSuccess →
             l_index l0 = l_index l1 ∧ l_vbiLength l0 = l_vbiLength l1) →
            l_properties l1 = l_properties l0 →
            0 ≤ l_vbiLength l0 ≤ 4 →
            ∃ parsed index width,
              laid_out pBuffer size propertiesLength (l_index l0) (l_vbiLength l0)
                parsed index width
              ∧ entries (l_properties l1) = entries (l_properties l0) ++ parsed
              ∧ count (l_properties l1)
                = count (l_properties l0) + Z.of_nat (length parsed)
              ∧ capacity (l_properties l1) = capacity (l_properties l0)
              ∧ (l_status l1 = MQTTSuccess →
                 index = l_index l1 ∧ width = l_vbiLength l1)
              ∧ (Forall fixed_width parsed → width = l_vbiLength l0)
              ∧ 0 ≤ width ≤ 4) as Hnone.
  { intros l0 l1 Hsame -> Hwidth. exists [], (l_index l0), (l_vbiLength l0).
    rewrite app_nil_r.
    repeat split; [constructor | simpl; lia | by apply Hsame.. | lia | lia]. }
  induction 1 as [l | l l1 l2 Hc Hb Hr IH]; intros Hcap Hwidth; [by apply Hnone |].
  apply loop_condition_true in Hc as (Hindex & Hlimit & Hstatus).
  rewrite to_size_t_small in Hlimit by lia.
  apply loop_body_inv in Hb as (type_ & written & Hload & Hread & Hw).
  pose proof (load_is_Ret _ _ _ Hload) as [Hindex0 _].
  destruct written as [value_ |].
  - destruct Hw as (op & Hadd & Hprops).
    apply AddProperty_inv in Hadd as [(Hst & -> & _) | (_ & Hc1 & Hslots & ->)].
    + (* the collection is full: the loop ends here *)
      assert (l2 = l1) as ->
        by (apply (rounds_stopped _ _ _ _ _ Hr), loop_condition_status; congruence).
      apply Hnone; [| done | done]. intros Hs. congruence.
    + simpl in Hprops.
      apply read_value_property_at in Hread as (Hat & Hafter & Hforward & Hwidth');
        [| done | done | lia | done].
      destruct IH as (parsed & index & width & Hlaid & Hentries & Hcount & Hcapacity
                      & Hend & Hfixed & Hrange); [by rewrite Hprops | lia |].
      exists ({| type := type_; value := value_ |} :: parsed), index, width.
      rewrite Hprops in Hentries, Hcount, Hcapacity.
      rewrite entries_after_add in Hentries by done.
      cbn [count capacity] in Hcount, Hcapacity.
      rewrite to_size_t_small in Hcount by lia.
      repeat split.
      * eapply laid_out_cons; [lia | lia | exact Hat |].
        rewrite <- Hafter.
        by replace (l_index l + (l_index l1 - l_index l)) with (l_index l1) by lia.
      * by rewrite Hentries, <- app_assoc.
      * rewrite Hcount, length_cons. lia.
      * done.
      * by apply Hend.
      * by apply Hend.
      * intros Hall'. apply Forall_cons in Hall' as [Hx Hall'].
        rewrite (Hfixed Hall'), Hafter. by apply width_after_fixed.
      * lia.
      * lia.
  - (* the switch has set MQTTBadParameter: the loop ends here *)
    destruct Hw as [Hst Hprops].
    assert (l2 = l1) as ->
      by (apply (rounds_stopped _ _ _ _ _ Hr), loop_condition_status; congruence).
    apply Hnone; [| done | done]. intros Hs. congruence.
Qed.

Lemma decode_value_range (pBuffer : list Z) (bufferSize n v : Z) :
  MQTT5_DecodeVariableByteInteger pBuffer bufferSize = Ret (n, v) → n ≠ 0 →
  1 ≤ n ≤ 4 ∧ 0 ≤ v ≤ VBI_MAX.
Proof.
  intros Hdec Hn. unfold MQTT5_DecodeVariableByteInteger in Hdec.
  apply (decode_loop_inv _ _ 5 0 0) in Hdec
    as (bytes & b & _ & Hlen & Hn4 & _ & _ & _ & ->); [| lia | simpl; lia | done].
  pose proof (vbi_value_range (bytes ++ [b])) as Hv.
  rewrite length_app in Hv. cbn [Datatypes.length] in Hv.
  assert (128 ^ Z.of_nat (length bytes + 1) ≤ 128 ^ 4)
    by (apply Z.pow_le_mono_r; lia).
  unfold VBI_MAX. lia.
Qed.

(** C10.  MQTT5_DeserializeProperties does not reset the count of the
    collection it is given.  Whenever it returns, the entries of the
    collection are the entries it had before the call, in their order,
    followed by properties that are on the wire one behind the other from
    the end of the length prefix on, each of them starting below [size]
    and below the limit of the loop; the count has grown by their number
    and the capacity is the one before.  When it returns MQTTSuccess these
    are all the properties there are: the last of them ends at or behind
    [size] or the limit.  The limit is the declared properties length
    behind the width of the length prefix, which is the end of the block,
    as long as no Subscription Identifier has been read; after a
    Subscription Identifier it is the declared length behind the width of
    the value of that identifier. *)
Theorem deserialize_appends (p p' : MQTT5Properties_t) (pBuffer : list Z)
    (size : Z) (status : MQTTStatus_t) :
  capacity p < 2 ^ 64 →
  Forall is_uint8 pBuffer →
  Z.of_nat (length pBuffer) ≤ PTRDIFF_MAX →
  size < 2 ^ 64 →
  MQTT5_DeserializeProperties (Some p) (Some pBuffer) size
  = Ret (status, Some p') →
  ∃ vbiLength propertiesLength parsed index width,
    MQTT5_DecodeVariableByteInteger pBuffer size = Ret (vbiLength, propertiesLength)
    ∧ laid_out pBuffer size propertiesLength vbiLength vbiLength parsed index width
    ∧ entries p' = entries p ++ parsed
    ∧ count p' = count p + Z.of_nat (length parsed)
    ∧ capacity p' = capacity p
    ∧ (status = MQTTSuccess → size ≤ index ∨ width + propertiesLength ≤ index)
    ∧ (Forall fixed_width parsed → width = vbiLength).
Proof.
  intros Hcap Hall Hlen Hsize Hrun. unfold MQTT5_DeserializeProperties in Hrun.
  apply bind_is_Ret in Hrun as ([vbiLength propertiesLength] & Hdec & Hrun).
  exists vbiLength, propertiesLength.
  destruct (Z.eqb_spec vbiLength 0) as [-> | Hprefix].
  - injection Hrun as <- <-. exists [], 0, 0. rewrite app_nil_r.
    repeat split; [done | constructor | simpl; lia | done].
  - apply bind_is_Ret in Hrun as (l & Hloop & [= <- <-]).
    apply decode_value_range in Hdec as Hranges; [| done].
    unfold VBI_MAX in Hranges.
    apply deserialize_loop_rounds in Hloop as [Hr Hend].
    apply rounds_laid_out in Hr
      as (parsed & index & width & Hlaid & Hentries & Hcount & Hcapacity & Hlast
          & Hfixed & Hwidth); [| done | done | done | lia | done | simpl; lia].
    exists parsed, index, width. cbn [first_round l_index l_vbiLength l_properties] in *.
    repeat split; [done.. | | done].
    intros Hstatus. destruct (Hlast Hstatus) as [-> ->].
    unfold loop_condition in Hend. rewrite Hstatus in Hend.
    rewrite to_size_t_small in Hend by lia.
    rewrite bool_decide_eq_true_2, andb_true_r in Hend by done.
    apply andb_false_iff in Hend as [Hend | Hend]; lia.
Qed.

Lemma two_fixed_buffer_bytes : Forall is_uint8 two_fixed_buffer.
Proof. repeat constructor; (done || lia). Qed.

Lemma deserialize_appends_witness :
  (capacity one_of_three < 2 ^ 64
   ∧ Forall is_uint8 two_fixed_buffer
   ∧ Z.of_nat (length two_fixed_buffer) ≤ PTRDIFF_MAX
   ∧ 15 < 2 ^ 64
   ∧ MQTT5_DeserializeProperties (Some one_of_three) (Some two_fixed_buffer) 15
     = Ret (MQTTSuccess, Some one_of_three_filled))
  ∧ ∃ vbiLength propertiesLength parsed index width,
      MQTT5_DecodeVariableByteInteger two_fixed_buffer 15
      = Ret (vbiLength, propertiesLength)
      ∧ laid_out two_fixed_buffer 15 propertiesLength vbiLength vbiLength parsed
          index width
      ∧ entries one_of_three_filled = entries one_of_three ++ parsed
      ∧ count one_of_three_filled = count one_of_three + Z.of_nat (length parsed)
      ∧ capacity one_of_three_filled = capacity one_of_three
      ∧ (MQTTSuccess = MQTTSuccess →
         15 ≤ index ∨ width + propertiesLength ≤ index)
      ∧ (Forall fixed_width parsed → width = vbiLength).
Proof.
  assert (capacity one_of_three < 2 ^ 64) as H1 by (simpl; lia).
  assert (Z.of_nat (length two_fixed_buffer) ≤ PTRDIFF_MAX)
    as H3 by (vm_compute; discriminate).
  assert (15 < 2 ^ 64) as H4 by lia.
  split; [repeat split; (exact two_fixed_buffer_bytes || done) |].
  exact (deserialize_appends one_of_three one_of_three_filled two_fixed_buffer 15
           MQTTSuccess H1 two_fixed_buffer_bytes H3 H4 eq_refl).
Defined.

(** ** The capacity of the collection *)

(** MQTT5_AddProperty keeps the count within the capacity and writes no
    slot at or beyond the capacity. *)
Lemma AddProperty_within_capacity (p p' : MQTT5Properties_t) (x : MQTT5Property_t)
    (status : MQTTStatus_t) :
  within_capacity p →
  capacity p < 2 ^ 64 →
  MQTT5_AddProperty (Some p) (Some x) = Ret (status, Some p') →
  within_capacity p'
  ∧ capacity p' = capacity p
  ∧ length (pProperties p') = length (pProperties p)
  ∧ drop (Z.to_nat (capacity p)) (pProperties p')
    = drop (Z.to_nat (capacity p)) (pProperties p).
Proof.
  unfold within_capacity. intros Hinv Hcap Hadd.
  apply AddProperty_inv in Hadd as [(_ & [= ->] & _) | (_ & Hroom & Hlen & [= ->])];
    [done |].
  cbn [count capacity pProperties]. rewrite to_size_t_small by lia.
  repeat split; [lia.. | by rewrite length_insert |].
  by rewrite drop_insert_lt by lia.
Qed.

Lemma rounds_within_capacity pBuffer size propertiesLength l l' :
  rounds pBuffer size propertiesLength l l' →
  within_capacity (l_properties l) →
  capacity (l_properties l) < 2 ^ 64 →
  within_capacity (l_properties l')
  ∧ capacity (l_properties l') = capacity (l_properties l)
  ∧ length (pProperties (l_properties l')) = length (pProperties (l_properties l))
  ∧ drop (Z.to_nat (capacity (l_properties l))) (pProperties (l_properties l'))
    = drop (Z.to_nat (capacity (l_properties l))) (pProperties (l_properties l)).
Proof.
  induction 1 as [l | l l1 l2 _ Hbody _ IH]; intros Hinv Hcap; [done |].
  apply loop_body_inv in Hbody as (type_ & written & _ & _ & Hadd).
  assert (within_capacity (l_properties l1)
          ∧ capacity (l_properties l1) = capacity (l_properties l)
          ∧ length (pProperties (l_properties l1))
            = length (pProperties (l_properties l))
          ∧ drop (Z.to_nat (capacity (l_properties l))) (pProperties (l_properties l1))
            = drop (Z.to_nat (capacity (l_properties l)))
                (pProperties (l_properties l))) as (Hinv1 & Hcap1 & Hlen1 & Hdrop1).
  { destruct written as [value_ |]; [| by destruct Hadd as [_ ->]].
    destruct Hadd as (op & Hadd & ->).
    destruct op as [p1 |].
    - cbn [default]. by eapply AddProperty_within_capacity.
    - done. }
  destruct IH as (Hinv2 & Hcap2 & Hlen2 & Hdrop2); [done | lia |].
  rewrite Hcap1 in Hcap2, Hdrop2.
  split; [done |]. split; [done |]. split; [by rewrite Hlen2 |].
  by rewrite Hdrop2.
Qed.

(** X23.  MQTT5_DeserializeProperties respects the capacity of the
    collection: whenever it returns, with whatever status, the count is at
    most the capacity, the capacity and the size of the storage are the
    ones before the call, and no slot at or beyond the capacity has been
    written. *)
Theorem deserialize_within_capacity (p p' : MQTT5Properties_t) (pBuffer : list Z)
    (size : Z) (status : MQTTStatus_t) :
  within_capacity p →
  capacity p < 2 ^ 64 →
  MQTT5_DeserializeProperties (Some p) (Some pBuffer) size = Ret (status, Some p') →
  within_capacity p'
  ∧ capacity p' = capacity p
  ∧ length (pProperties p') = length (pProperties p)
  ∧ drop (Z.to_nat (capacity p)) (pProperties p')
    = drop (Z.to_nat (capacity p)) (pProperties p).
Proof.
  intros Hinv Hcap Hrun. unfold MQTT5_DeserializeProperties in Hrun.
  apply bind_is_Ret in Hrun as ([vbiLength propertiesLength] & Hdec & Hrun).
  destruct (vbiLength =? 0).
  - by injection Hrun as _ <-.
  - apply bind_is_Ret in Hrun as (l & Hloop & [= _ <-]).
    apply deserialize_loop_rounds in Hloop as [Hr _].
    by apply rounds_within_capacity in Hr.
Qed.

Lemma deserialize_within_capacity_witness :
  (within_capacity one_of_three
   ∧ capacity one_of_three < 2 ^ 64
   ∧ MQTT5_DeserializeProperties (Some one_of_three) (Some session_expiry_block) 6
     = Ret (MQTTSuccess, Some two_of_three))
  ∧ within_capacity two_of_three
  ∧ capacity two_of_three = capacity one_of_three
  ∧ length (pProperties two_of_three) = length (pProperties one_of_three)
  ∧ drop (Z.to_nat (capacity one_of_three)) (pProperties two_of_three)
    = drop (Z.to_nat (capacity one_of_three)) (pProperties one_of_three).
Proof.
  assert (within_capacity one_of_three) as H1 by (unfold within_capacity; simpl; lia).
  assert (capacity one_of_three < 2 ^ 64) as H2 by (simpl; lia).
  split; [repeat split; (done || apply H1) |].
  exact (deserialize_within_capacity one_of_three two_of_three session_expiry_block 6
           MQTTSuccess H1 H2 eq_refl).
Defined.

(** ** The limit of the loop after a Subscription Identifier *)

(** X24.  The Subscription Identifier case of MQTT5_DeserializeProperties
    assigns the width of the identifier's value to [vbiLength], from which
    the limit of the loop is computed.  After a value of more than one byte
    the limit lies beyond the declared properties length: given a block
    whose properties length covers one such Subscription Identifier and no
    more, a size that covers two more bytes and a collection with two free
    slots, the function returns MQTTSuccess and appends the Subscription
    Identifier and, read from the two bytes behind the block, a Payload
    Format Indicator. *)
Theorem deserialize_reads_past_declared_length (v b : Z) (rest : list Z)
    (out : MQTT5Properties_t) :
  128 ≤ v ≤ VBI_MAX →
  0 ≤ count out →
  count out + 2 ≤ capacity out →
  capacity out ≤ Z.of_nat (length (pProperties out)) →
  capacity out < 2 ^ 64 →
  ∃ c',
    MQTT5_DecodeVariableByteInteger
      (subscription_identifier_block v
         ++ MQTT5_PROPERTY_PAYLOAD_FORMAT_INDICATOR :: b :: rest)
      (Z.of_nat (length (subscription_identifier_block v)) + 2)
    = Ret (1, Z.of_nat (length (subscription_identifier_block v)) - 1)
    ∧ MQTT5_DeserializeProperties (Some out)
        (Some (subscription_identifier_block v
                 ++ MQTT5_PROPERTY_PAYLOAD_FORMAT_INDICATOR :: b :: rest))
        (Z.of_nat (length (subscription_identifier_block v)) + 2)
      = Ret (MQTTSuccess, Some c')
    ∧ entries c'
      = entries out
          ++ [ {| type := MQTT5_PROPERTY_SUBSCRIPTION_IDENTIFIER;
                  value := fourByteInteger v |};
               {| type := MQTT5_PROPERTY_PAYLOAD_FORMAT_INDICATOR;
                  value := byte b |} ].
Proof.
  intros Hv Hcount Hroom Hslots Hcap.
  pose proof (vbi_bytes_length 3 v) as Hvl.
  assert (2 ≤ length (vbi_bytes 3 v))%nat as Hwide.
  { rewrite (vbi_bytes_S 2 v).
    destruct (Z.ltb_spec 0 (v / 128)) as [_ | Hq].
    - pose proof (vbi_bytes_length 2 (v / 128)). rewrite length_cons. lia.
    - pose proof (Z.div_str_pos v 128 ltac:(lia)). lia. }
  unfold subscription_identifier_block. rewrite length_app, length_cons.
  cbn [Datatypes.length Nat.add].
  set (w := length (vbi_bytes 3 v)) in *.
  set (size := Z.of_nat (S (S w)) + 2).
  set (pBuffer := ([1 + Z.of_nat w]
                     ++ MQTT5_PROPERTY_SUBSCRIPTION_IDENTIFIER :: vbi_bytes 3 v)
                    ++ MQTT5_PROPERTY_PAYLOAD_FORMAT_INDICATOR :: b :: rest).
  assert (MQTT5_DecodeVariableByteInteger pBuffer size = Ret (1, 1 + Z.of_nat w))
    as Hprefix.
  { pose proof (decode_vbi (1 + Z.of_nat w)
                  (MQTT5_PROPERTY_SUBSCRIPTION_IDENTIFIER :: vbi_bytes 3 v
                     ++ MQTT5_PROPERTY_PAYLOAD_FORMAT_INDICATOR :: b :: rest) size)
      as Hdec.
    assert (vbi_bytes 3 (1 + Z.of_nat w) = [1 + Z.of_nat w]) as Hone.
    { rewrite vbi_bytes_S, (Z.div_small _ 128), (Z.mod_small _ 128) by lia. done. }
    rewrite Hone in Hdec. cbn [Datatypes.length app] in Hdec.
    unfold pBuffer. rewrite <- app_assoc. cbn [app].
    apply Hdec; unfold VBI_MAX, size; lia. }
  set (x1 := {| type := MQTT5_PROPERTY_SUBSCRIPTION_IDENTIFIER;
                value := fourByteInteger v |}).
  set (x2 := {| type := MQTT5_PROPERTY_PAYLOAD_FORMAT_INDICATOR; value := byte b |}).
  set (p1 := {| pProperties := <[Z.to_nat (count out) := x1]> (pProperties out);
                count := to_size_t (count out + 1);
                capacity := capacity out |}).
  set (p2 := {| pProperties := <[Z.to_nat (count p1) := x2]> (pProperties p1);
                count := to_size_t (count p1 + 1);
                capacity := capacity p1 |}).
  set (l1 := {| l_index := 2 + Z.of_nat w; l_vbiLength := Z.of_nat w;
                l_status := MQTTSuccess; l_properties := p1 |}).
  set (l2 := {| l_index := 4 + Z.of_nat w; l_vbiLength := Z.of_nat w;
                l_status := MQTTSuccess; l_properties := p2 |}).
  assert (count p1 = count out + 1) as Hcount1
    by (unfold p1; cbn [count]; rewrite to_size_t_small by lia; done).
  (* the round that reads the Subscription Identifier *)
  assert (loop_body pBuffer size (first_round 1 out) = Ret l1) as Hbody1.
  { unfold loop_body. cbn [first_round l_index l_vbiLength l_properties].
    unfold pBuffer. cbn [app]. rewrite load_1, bind_Ret.
    unfold read_value.
    change (switch MQTT5_PROPERTY_SUBSCRIPTION_IDENTIFIER)
      with (Some CaseSubscriptionIdentifier).
    change (to_size_t (1 + 1)) with 2. change (Z.to_nat 2) with 2%nat.
    cbn [drop]. rewrite drop_0.
    rewrite decode_vbi;
      [| unfold VBI_MAX in *; lia | unfold size; rewrite to_size_t_small; fold w; lia].
    rewrite bind_Ret. fold w.
    destruct (Z.eqb_spec (Z.of_nat w) 0) as [| _]; [lia |].
    rewrite to_size_t_small by lia. rewrite bind_Ret.
    rewrite AddProperty_room by lia. by rewrite bind_Ret. }
  (* the round that reads the two bytes behind the block *)
  assert (loop_body pBuffer size l1 = Ret l2) as Hbody2.
  { unfold loop_body. cbn [l1 l_index l_vbiLength l_properties].
    assert (Z.of_nat (length ([1 + Z.of_nat w]
                                ++ MQTT5_PROPERTY_SUBSCRIPTION_IDENTIFIER
                                   :: vbi_bytes 3 v)) = 2 + Z.of_nat w) as Hpre
      by (rewrite length_app, length_cons; cbn [Datatypes.length]; fold w; lia).
    unfold pBuffer. rewrite load_app_middle by lia.
    rewrite bind_Ret. unfold read_value.
    change (switch MQTT5_PROPERTY_PAYLOAD_FORMAT_INDICATOR) with (Some CaseByte).
    rewrite (to_size_t_small (2 + Z.of_nat w + 1)) by lia.
    rewrite (app_cons_middle _ MQTT5_PROPERTY_PAYLOAD_FORMAT_INDICATOR [] (b :: rest)).
    rewrite app_nil_l.
    rewrite load_app_middle
      by (rewrite length_app; cbn [Datatypes.length] in *; lia).
    rewrite bind_Ret, to_size_t_small by lia. rewrite bind_Ret.
    rewrite AddProperty_room
      by (rewrite ?Hcount1; unfold p1; cbn [capacity pProperties];
          rewrite ?length_insert; lia).
    rewrite bind_Ret. unfold l2. f_equal. f_equal; lia. }
  exists p2. split; [| split].
  - rewrite Hprefix. do 2 f_equal. lia.
  - unfold MQTT5_DeserializeProperties. rewrite Hprefix, bind_Ret.
    change (1 =? 0) with false. cbv iota.
    change {| l_index := 1; l_vbiLength := 1; l_status := MQTTSuccess;
              l_properties := out |} with (first_round 1 out).
    rewrite (rounds_fuel _ _ _ _ l2); [by rewrite bind_Ret | | | |].
    + unfold PTRDIFF_MAX, size. lia.
    + eapply rounds_step; [| exact Hbody1 |].
      { unfold loop_condition, size. cbn [first_round l_index l_vbiLength l_status].
        rewrite to_size_t_small by lia.
        destruct (Z.ltb_spec 1 (Z.of_nat (S (S w)) + 2)); [| lia].
        destruct (Z.ltb_spec 1 (1 + (1 + Z.of_nat w))); [| lia]. done. }
      eapply rounds_step; [| exact Hbody2 | apply rounds_refl].
      unfold loop_condition, size. cbn [l1 l_index l_vbiLength l_status].
      rewrite to_size_t_small by lia.
      destruct (Z.ltb_spec (2 + Z.of_nat w) (Z.of_nat (S (S w)) + 2)); [| lia].
      destruct (Z.ltb_spec (2 + Z.of_nat w) (Z.of_nat w + (1 + Z.of_nat w))); [| lia].
      done.
    + unfold loop_condition, size. cbn [l2 l_index].
      destruct (Z.ltb_spec (4 + Z.of_nat w) (Z.of_nat (S (S w)) + 2)); [lia | done].
    + cbn [first_round l_index]. unfold size. lia.
  - unfold p2. rewrite entries_after_add
      by (rewrite ?Hcount1; unfold p1; cbn [capacity pProperties];
          rewrite ?length_insert; lia).
    unfold p1. rewrite entries_after_add by lia. by rewrite <- app_assoc.
Qed.

Lemma deserialize_reads_past_declared_length_witness :
  (128 ≤ 300 ≤ VBI_MAX
   ∧ 0 ≤ count (empty_collection 2)
   ∧ count (empty_collection 2) + 2 ≤ capacity (empty_collection 2)
   ∧ capacity (empty_collection 2)
     ≤ Z.of_nat (length (pProperties (empty_collection 2)))
   ∧ capacity (empty_collection 2) < 2 ^ 64)
  ∧ ∃ c',
      MQTT5_DecodeVariableByteInteger [0x03; 0x0B; 0xAC; 0x02; 0x01; 0x01] 6
      = Ret (1, 3)
      ∧ MQTT5_DeserializeProperties (Some (empty_collection 2))
          (Some [0x03; 0x0B; 0xAC; 0x02; 0x01; 0x01]) 6
        = Ret (MQTTSuccess, Some c')
      ∧ entries c'
        = entries (empty_collection 2)
            ++ [ subscription_identifier_300;
                 {| type := MQTT5_PROPERTY_PAYLOAD_FORMAT_INDICATOR;
                    value := byte 1 |} ].
Proof.
  assert (128 ≤ 300 ≤ VBI_MAX) as H1 by (unfold VBI_MAX; lia).
  assert (0 ≤ count (empty_collection 2)) as H2 by (simpl; lia).
  assert (count (empty_collection 2) + 2 ≤ capacity (empty_collection 2))
    as H3 by (simpl; lia).
  assert (capacity (empty_collection 2)
          ≤ Z.of_nat (length (pProperties (empty_collection 2))))
    as H4 by (simpl; lia).
  assert (capacity (empty_collection 2) < 2 ^ 64) as H5 by (simpl; lia).
  split; [done |].
  exact (deserialize_reads_past_declared_length 300 1 [] (empty_collection 2)
           H1 H2 H3 H4 H5).
Defined.

(** ** The protocol version *)

(** X25.  In every build that core_mqtt_version.h lets pass, exactly one of
    MQTT_VERSION_IS_3_1_1() and MQTT_VERSION_IS_5_0() holds; a build that
    does not define MQTT_VERSION passes and is one of MQTT 3.1.1. *)
Theorem version_selected (defined : option Z) :
  (version_error defined = false ↔
   xorb (MQTT_VERSION_IS_3_1_1 defined) (MQTT_VERSION_IS_5_0 defined) = true)
  ∧ version_error None = false
  ∧ MQTT_VERSION_IS_3_1_1 None = true.
Proof.
  split; [| done].
  unfold version_error, MQTT_VERSION_IS_3_1_1, MQTT_VERSION_IS_5_0,
    MQTT_VERSION_3_1_1, MQTT_VERSION_5_0.
  destruct (Z.eqb_spec (MQTT_VERSION defined) 311) as [-> | ?];
    destruct (Z.eqb_spec (MQTT_VERSION defined) 500) as [? | ?]; simpl; split;
    (done || lia).
Qed.
